(* ===== verification/_CoqProject ===== *)
-Q . S2P
Prelude.v
JsString.v
Crypto.v
Store.v
ObjectId.v
UserModel.v
TaskModel.v
Joi.v
Db.v
AuthMiddleware.v
AuthRoutes.v
TaskRoutes.v
Server.v
Sessions.v
Interleaving.v
Readme.v
