(* ===== verification/Prelude.v ===== *)
(** * A verification development of the Task Management API

    The program (src/) is an Express/Mongoose HTTP service:
    - [src/server.js] builds the app: the [/api/auth] router, the [auth]
      middleware in front of every request below [/api/tasks] and then the
      task router, [GET /api/health], [GET /], the global error handler
      and a 404 catch-all;
    - [src/middleware/auth.js] is the access guard: it extracts the bearer
      token, verifies it with [jsonwebtoken] and requires the exact token
      string to be listed in the user's [tokens] array;
    - [src/unnamed/part_002] is the User model ([models/User.js]): schema
      validators, the [pre('save')] password hash, [generateAuthToken],
      [comparePassword] and [toJSON];
    - [src/routes/auth.js]: register, login, me, logout;
    - [src/models/task.js]: the Task schema and its [pre('save')] hook;
    - [src/unnamed/part_001] is [routes/tasks.js] twice (lines 1-167 and
      168-358, the same code with different comments; the map names lines
      of both): Joi validation, list with filters, sort and pagination,
      get, create, update, delete and the status statistics.
    The handlers share the database; the guard hands [req.user] and
    [req.token] to the routes; every handler forwards what it throws to
    [next(error)].

    ** Files, in dependency order

    - [Prelude] (this file): the request monad [RM] (state and thrown
      exception: the [try]/[next(error)] structure of every handler) with
      its notation in [rm_scope], the [api] hint database and the [api_rw]
      rewrite database, tactics, shared lemmas on lists and counting.
    - [JsString]: the JavaScript built-ins the code calls on strings:
      [String.prototype.replace] with a string pattern (first occurrence),
      [trim], ASCII [toLowerCase], [parseInt].
    - [Crypto]: what the code relies on from [jsonwebtoken] and [bcryptjs],
      as the type classes [JwtScheme] and [PasswordHasher] with their laws
      (decoding inverts signing; bcrypt compares the first 72 bytes),
      token issue ([jwt.sign] in [generateAuthToken]) and [jwt.verify]'s
      expiry rule, and computable instances used by the witnesses.
    - [Store]: a Mongoose collection as the ordered list of its documents,
      generic over a [Document] class ([_id]): [findOne], insert,
      replace by [_id], [findOneAndUpdate], [findOneAndDelete],
      [countDocuments]; the errors of Mongoose and the driver.
    - [ObjectId]: the 24-digit hexadecimal form of an [_id] and Mongoose's
      cast of a route parameter.
    - [UserModel]: the User document, its validators (the e-mail regular
      expression decided exactly), the save pipeline (setters, validation,
      the hash only when the password is set, the unique e-mail index),
      [generateAuthToken], [comparePassword], [toJSON], and the invariant
      [users_inv] of the users collection.
    - [TaskModel]: the Task document, its validators, setters and
      [pre('save')]; the update path of [findOneAndUpdate].
    - [Joi]: the request-body schemas of both route files, with Joi's
      first-error message; Joi's own tables are the class [JoiLib].
    - [Db]: the whole database (users, tasks, [_id] counter, clock, salt
      source), its monad [M], the lifted operations, the responses.
    - [AuthMiddleware], [AuthRoutes], [TaskRoutes]: one definition per
      handler, in the monad, returning the HTTP status and JSON body.
    - [Server]: the dispatcher of [server.js] ([app]), the error boundary
      ([handle]), the reachable states ([reachable]) and runs of
      request sequences ([run]), the response shapes ([resp_ok]).
    - [Sessions]: the specification's session store as an abstract
      machine: a set of (user [_id], token) sessions, labels [Open],
      [Close] and stutter with their guards ([sess_valid]), its reachable
      states ([sess_reachable]) and the abstraction [abs_sessions] that
      reads the [tokens] arrays of the users collection.
    - [Interleaving]: concurrent requests.  Register, login and logout
      are split at their awaits ([Thread], [step]) and step against a
      shared database whose user documents carry Mongoose's [__v]
      ([VDb]); the save of a loaded copy whose [tokens] array was
      reassigned is versioned ([versioned]) and throws a [VersionError]
      when another save came in between; every other request is one
      atomic step of [Server.handle].  A run is a list of events
      (arrival, a step of thread [i], a clock tick).
    - [Readme]: the endpoint table of the README ([src/unnamed/part_000]
      lines 15-29), checked against [Server.app].

    ** What the theorems show

    1. Sessions ([AuthRoutes], [AuthMiddleware]): a token returned by
       register or login is accepted by the guard; after logout it is
       refused while every other session stays accepted; the guard admits
       only verified, listed tokens; login failures are uniform.
    2. Isolation ([TaskRoutes], [Server]): a task of another user is
       invisible (404, nothing written); no task route runs before the
       guard.
    3. Task operations ([TaskRoutes], [Joi]): validation before any
       write, create/get round trip, the exact effect of an update,
       delete then get, the list is the caller's filtered tasks sorted
       stably and paginated, the statistics are the counts per status.
    4. The invariant of the service ([Server.reachable_inv]): valid users
       holding only tokens that name them, unique [_id]s and e-mails,
       distinct task [_id]s below the counter, in every reachable state;
       each handler keeps it on every path, errors included.
    5. Refinement ([Sessions]): every request, on every path, moves the
       abstract session store by one step its label allows (register or
       login open a session, logout closes the one the guard admitted,
       everything else stutters), so every reachable database abstracts
       to a reachable session store; and the guard admits a header exactly
       when [jwt.verify] accepts its token and the session is in the store.
    6. Responses ([Server.handle_resp_ok]): every response carries an
       error body with 400, 401, 404 or 500 and a data body with 200 or
       201; a duplicate e-mail on register is a 400 that writes nothing.
    7. Interleavings ([Interleaving]): from every state an interleaving
       reaches, each event moves the abstract session store by one step
       of the machine of [Sessions] (no stale save loses or revives a
       session), the service invariant holds in every such state (e-mails
       stay unique through the unique index although the check of
       register races), and a thread run alone gives exactly the response
       and database of [Server.handle].  Three races, evaluated: a logout
       concurrent with a login fails with 500 and leaves its token valid,
       two registrations of one e-mail give 201 and 500 (not 400), two
       concurrent logins give 200 and 500.
    8. The endpoint table of the README is the routing of [server.js]:
       every row reaches the handler it describes, the protected ones
       behind the guard.
    9. Edge cases and findings, as concrete runs evaluated by [vm_compute]:
       tokens issued in the same second are one string (logout ends both
       sessions), the [Bearer ] prefix is optional, bcrypt's 72-byte key,
       the 2-3 letter top-level domains of the e-mail regex, the trim
       setters after Joi's length checks, the title required on update,
       the alphabetical priority sort, [limit=0], a non-numeric [limit]
       and a malformed task id answered 500.

    ** Bounds and fuel

    Integers are [Z] (JavaScript numbers in the range the code meets:
    millisecond timestamps, counts) and [N] ([_id]s below [2^96]).  The
    only fuel is the star of the e-mail regular expression
    ([EmailRegex.star]), given the length of the string: every iteration
    consumes a character, so that many iterations find every match;
    [UserModel.email_regex_fuel] proves that any larger bound gives the
    same answer, so the bounded match is the regex's own.
    Sorting and grouping are structural.  [Interleaving.run_alone] takes
    a number of steps: three are enough for every thread, since a request
    awaits at most three operations on the users collection (register:
    [findOne], the insert, the save of [generateAuthToken]).

    ** Not modelled

    Process bootstrap, [dotenv], [helmet], [cors], body parsing, the
    database connection and the network: the responses carry no headers,
    so neither the security headers nor the CORS answer to an [OPTIONS]
    preflight are modelled; the prose, setup steps and technology list of
    the README; [errorHandler.js] is not in the sources and is modelled
    from the specification (a 500 with a generic body); the cryptography
    itself (only its interface laws); non-ASCII strings.  In
    [Interleaving] a task request is one atomic step: it writes only the
    tasks collection, but the [find] and [countDocuments] of the list
    route are two reads, so a concurrent create can make
    [pagination.total] disagree with the page; that race is not
    modelled. *)

From Stdlib Require Import ZArith Lia String List.
From stdpp Require Import base list.
Export ListNotations.

Declare Scope rm_scope.
Delimit Scope rm_scope with rm.

Create HintDb api.
Create Rewrite HintDb api_rw.

(** ** The request monad

    A handler runs against a state [S] (the database) and either returns a
    value or throws an exception [E] (a rejected promise, forwarded by the
    handler's [catch] to [next(error)]).  Early [return res.status(..)]
    statements are ordinary returned values. *)

Definition RM (S E A : Type) : Type := S -> (E + A) * S.

Definition rm_ret {S E A} (x : A) : RM S E A := fun s => (inr x, s).

Definition rm_bind {S E A B} (m : RM S E A) (k : A -> RM S E B) : RM S E B :=
  fun s =>
    match m s with
    | (inl e, s') => (inl e, s')
    | (inr x, s') => k x s'
    end.

Definition rm_get {S E} : RM S E S := fun s => (inr s, s).
Definition rm_put {S E} (s : S) : RM S E unit := fun _ => (inr tt, s).
Definition rm_throw {S E A} (e : E) : RM S E A := fun s => (inl e, s).

(** [try { m } catch (error) { h(error) }] *)
Definition rm_catch {S E A} (m : RM S E A) (h : E -> RM S E A) : RM S E A :=
  fun s =>
    match m s with
    | (inl e, s') => h e s'
    | r => r
    end.

(** Lift a fallible pure step ([inl] = thrown). *)
Definition rm_lift {S E A} (r : E + A) : RM S E A := fun s => (r, s).

Notation "x <- m ;; k" := (rm_bind m (fun x => k))
  (at level 95, m at next level, right associativity) : rm_scope.
Notation "m ;;; k" := (rm_bind m (fun _ => k))
  (at level 95, right associativity) : rm_scope.
Notation "' p <- m ;; k" := (rm_bind m (fun x => match x with p => k end))
  (at level 95, p pattern, m at next level, right associativity) : rm_scope.

(** ** Counting and filtering with boolean predicates

    The code filters arrays and documents with boolean tests
    ([Array.prototype.filter], Mongo filters); [count_by] is the number of
    elements satisfying the test. *)

Definition count_by {A} (f : A -> bool) (l : list A) : nat :=
  length (List.filter f l).

(** ** Tactics *)

(** Invert a hypothesis and clean up. *)
Ltac invc H := inversion H; subst; clear H.

(** Case on every boolean test of the goal produced by [decide] or by the
    [=?] tests of the standard library, keeping the equation. *)
Ltac case_tests :=
  repeat match goal with
  | |- context [decide ?P] => destruct (decide P)
  | |- context [String.eqb ?a ?b] => destruct (String.eqb_spec a b)
  | |- context [N.eqb ?a ?b] => destruct (N.eqb_spec a b)
  | |- context [Z.ltb ?a ?b] => destruct (Z.ltb_spec a b)
  | |- context [Z.leb ?a ?b] => destruct (Z.leb_spec a b)
  | |- context [Z.eqb ?a ?b] => destruct (Z.eqb_spec a b)
  end.

Section RMLaws.
Context {S E : Type}.

Lemma rm_bind_ret {A B} (x : A) (k : A -> RM S E B) s :
  rm_bind (rm_ret x) k s = k x s.
Proof. reflexivity. Qed.

Lemma rm_bind_assoc {A B C} (m : RM S E A) (k : A -> RM S E B)
    (k' : B -> RM S E C) s :
  rm_bind (rm_bind m k) k' s = rm_bind m (fun x => rm_bind (k x) k') s.
Proof. unfold rm_bind. destruct (m s) as [[e|x] s']; reflexivity. Qed.

Lemma rm_bind_inr {A B} (m : RM S E A) (k : A -> RM S E B) s x s' :
  m s = (inr x, s') -> rm_bind m k s = k x s'.
Proof. unfold rm_bind. intros ->. reflexivity. Qed.

Lemma rm_bind_inl {A B} (m : RM S E A) (k : A -> RM S E B) s e s' :
  m s = (inl e, s') -> rm_bind m k s = (inl e, s').
Proof. unfold rm_bind. intros ->. reflexivity. Qed.
End RMLaws.

#[export] Hint Rewrite @rm_bind_ret : api_rw.

Lemma count_by_app {A} (f : A -> bool) l1 l2 :
  count_by f (l1 ++ l2) = count_by f l1 + count_by f l2.
Proof. unfold count_by. rewrite List.filter_app, length_app. reflexivity. Qed.

Lemma count_by_le {A} (f : A -> bool) l : count_by f l <= length l.
Proof.
  unfold count_by. induction l as [|x l IH]; simpl; [lia|].
  destruct (f x); simpl; lia.
Qed.

Lemma filter_ext_in_eq {A} (f g : A -> bool) (l : list A) :
  (forall x, In x l -> f x = g x) -> List.filter f l = List.filter g l.
Proof. apply List.filter_ext_in. Qed.

Lemma filter_none {A} (f : A -> bool) (l : list A) :
  (forall x, In x l -> f x = false) -> List.filter f l = [].
Proof.
  induction l as [|x l IH]; simpl; intros H; [reflexivity|].
  rewrite H by auto. apply IH. auto.
Qed.

Lemma filter_all {A} (f : A -> bool) (l : list A) :
  (forall x, In x l -> f x = true) -> List.filter f l = l.
Proof.
  induction l as [|x l IH]; simpl; intros H; [reflexivity|].
  rewrite H by auto. f_equal. apply IH. auto.
Qed.

Lemma in_filter_iff {A} (f : A -> bool) (l : list A) x :
  In x (List.filter f l) <-> In x l /\ f x = true.
Proof. apply List.filter_In. Qed.

#[export] Hint Resolve count_by_le : api.

(** An injective projection on a duplicate-free list determines the
    element. *)
Lemma NoDup_map_eq {A B} (f : A -> B) (c : list A) x y :
  List.NoDup (List.map f c) -> In x c -> In y c -> f x = f y -> x = y.
Proof.
  induction c as [|z c IH]; simpl; [contradiction|].
  intros Hnd Hx Hy E. apply NoDup_cons_iff in Hnd as [Hz Hnd].
  destruct Hx as [<-|Hx], Hy as [<-|Hy]; auto.
  - exfalso. apply Hz. rewrite E. apply List.in_map. exact Hy.
  - exfalso. apply Hz. rewrite <- E. apply List.in_map. exact Hx.
Qed.

Lemma existsb_eqb_In (t : string) (l : list string) :
  existsb (String.eqb t) l = true <-> In t l.
Proof.
  rewrite existsb_exists. split.
  - intros (x & Hx & E). apply String.eqb_eq in E. subst. exact Hx.
  - intros Ht. exists t. split; [exact Ht | apply String.eqb_refl].
Qed.

Lemma flat_map_ext_in {A B} (f g : A -> list B) (l : list A) :
  (forall x, In x l -> f x = g x) -> List.flat_map f l = List.flat_map g l.
Proof. induction l as [|x l IH]; simpl; intros H; [reflexivity|]. rewrite H, IH; auto. Qed.

Lemma in_skipn_in {A} n (l : list A) x : In x (List.skipn n l) -> In x l.
Proof. intros H. rewrite <- (List.firstn_skipn n l). apply List.in_or_app. right. exact H. Qed.

Lemma in_firstn_in {A} n (l : list A) x : In x (List.firstn n l) -> In x l.
Proof. intros H. rewrite <- (List.firstn_skipn n l). apply List.in_or_app. left. exact H. Qed.
