(* ===== verification/JsString.v ===== *)
(** * JavaScript string built-ins used by the program

    The source calls a handful of ECMAScript string operations whose
    behaviour decides what the program accepts:
    - [String.prototype.replace(pat, '')] with a string pattern in
      [src/middleware/auth.js] line 8 (first occurrence only, anywhere in
      the string, not only as a prefix);
    - [trim] and [toLowerCase], the Mongoose setters [trim: true]
      and [lowercase: true] of the schemas;
    - [parseInt] on the [page]/[limit] query parameters of the task list.

    Strings are Rocq [string]s of ASCII characters (code below 128): on
    this domain a JavaScript UTF-16 code unit is one character, so the
    lengths Joi and Mongoose compare are [String.length]. *)

From Stdlib Require Import ZArith Lia String Ascii List Bool.
From S2P Require Import Prelude.

Local Open Scope string_scope.
Local Open Scope bool_scope.

Module JsString.

(** ** [trim]: ECMAScript WhiteSpace and LineTerminator (ASCII part:
    tab, LF, VT, FF, CR, space). *)

Definition is_js_space (c : ascii) : bool :=
  let n := nat_of_ascii c in
  Nat.eqb n 9 || Nat.eqb n 10 || Nat.eqb n 11 || Nat.eqb n 12 || Nat.eqb n 13
  || Nat.eqb n 32.

Fixpoint trim_start (s : string) : string :=
  match s with
  | EmptyString => EmptyString
  | String c s' => if is_js_space c then trim_start s' else s
  end.

Fixpoint str_rev_app (s acc : string) : string :=
  match s with
  | EmptyString => acc
  | String c s' => str_rev_app s' (String c acc)
  end.

Definition str_rev (s : string) : string := str_rev_app s EmptyString.

Definition trim_end (s : string) : string := str_rev (trim_start (str_rev s)).

(** [String.prototype.trim] *)
Definition trim (s : string) : string := trim_end (trim_start s).

(** ** [toLowerCase] on ASCII *)

Definition ascii_lower (c : ascii) : ascii :=
  let n := nat_of_ascii c in
  if Nat.leb 65 n && Nat.leb n 90 then ascii_of_nat (n + 32) else c.

Fixpoint to_lower (s : string) : string :=
  match s with
  | EmptyString => EmptyString
  | String c s' => String (ascii_lower c) (to_lower s')
  end.

(** ** [String.prototype.replace(pat, rep)] with a string pattern:
    the first occurrence of [pat] is replaced, the rest is kept. *)

Fixpoint str_drop (n : nat) (s : string) : string :=
  match n, s with
  | O, _ => s
  | S n', String _ s' => str_drop n' s'
  | S _, EmptyString => EmptyString
  end.

Fixpoint replace_first (pat rep s : string) : string :=
  if String.prefix pat s then rep ++ str_drop (String.length pat) s
  else match s with
       | EmptyString => EmptyString
       | String c s' => String c (replace_first pat rep s')
       end.

(** ** [parseInt(x)] with no radix.  [None] is [NaN].  Leading white space
    and a sign are skipped; a [0x]/[0X] prefix selects radix 16; the
    longest prefix of digits of the radix is read. *)

Definition digit_value (c : ascii) : option Z :=
  let n := Z.of_nat (nat_of_ascii c) in
  if Z.leb 48 n && Z.leb n 57 then Some (n - 48)%Z
  else if Z.leb 97 n && Z.leb n 122 then Some (n - 87)%Z
  else if Z.leb 65 n && Z.leb n 90 then Some (n - 55)%Z
  else None.

(** Reads the digits of radix [r]; [acc] is the value of the digits read
    so far, [None] when none has been read. *)
Fixpoint read_digits (r : Z) (s : string) (acc : option Z) : option Z :=
  match s with
  | EmptyString => acc
  | String c s' =>
      match digit_value c with
      | Some d =>
          if Z.ltb d r then
            read_digits r s'
              (Some (match acc with Some a => a | None => 0 end * r + d)%Z)
          else acc
      | None => acc
      end
  end.

Definition parse_int (s : string) : option Z :=
  let s1 := trim_start s in
  let '(sign, s2) :=
    match s1 with
    | String "-"%char s' => ((-1)%Z, s')
    | String "+"%char s' => (1%Z, s')
    | _ => (1%Z, s1)
    end in
  let '(r, s3) :=
    match s2 with
    | String "0"%char (String "x"%char s') => (16%Z, s')
    | String "0"%char (String "X"%char s') => (16%Z, s')
    | _ => (10%Z, s2)
    end in
  option_map (fun v => (sign * v)%Z) (read_digits r s3 None).

(** ** Lemmas shared by the models of the schemas and of the guard *)

Lemma str_rev_app_length s acc :
  String.length (str_rev_app s acc) = String.length s + String.length acc.
Proof.
  revert acc. induction s as [|c s IH]; intros acc; simpl; [reflexivity|].
  rewrite IH. simpl. lia.
Qed.

Lemma str_rev_length s : String.length (str_rev s) = String.length s.
Proof. unfold str_rev. rewrite str_rev_app_length. simpl. lia. Qed.

Lemma trim_start_length s : String.length (trim_start s) <= String.length s.
Proof. induction s as [|c s IH]; simpl; [lia|]. destruct (is_js_space c); simpl; lia. Qed.

(** Trimming never lengthens a string: a bound checked before the
    Mongoose [trim] setter still holds after it. *)
Lemma trim_length_le s : String.length (trim s) <= String.length s.
Proof.
  unfold trim, trim_end.
  rewrite str_rev_length.
  pose proof (trim_start_length (str_rev (trim_start s))).
  rewrite str_rev_length in H. pose proof (trim_start_length s). lia.
Qed.

Lemma ascii_lower_idem c : ascii_lower (ascii_lower c) = ascii_lower c.
Proof.
  unfold ascii_lower; cbv zeta.
  destruct (Nat.leb 65 (nat_of_ascii c) && Nat.leb (nat_of_ascii c) 90) eqn:E.
  - apply andb_true_iff in E as [E1 E2]. apply Nat.leb_le in E1, E2.
    rewrite nat_ascii_embedding by lia.
    replace (Nat.leb 65 (nat_of_ascii c + 32) && Nat.leb (nat_of_ascii c + 32) 90)
      with false; [reflexivity|].
    symmetry. apply andb_false_iff. right. apply Nat.leb_gt. lia.
  - rewrite E. reflexivity.
Qed.

(** [toLowerCase] is idempotent: a stored (lower-cased) e-mail is its own
    normal form, so the e-mail query setter finds it again. *)
Lemma to_lower_idem s : to_lower (to_lower s) = to_lower s.
Proof. induction s as [|c s IH]; simpl; [reflexivity|]. rewrite ascii_lower_idem, IH. reflexivity. Qed.

Lemma prefix_app_self pat t : String.prefix pat (pat ++ t) = true.
Proof.
  induction pat as [|c pat IH]; simpl; [destruct t; reflexivity|].
  destruct (Ascii.ascii_dec c c); [exact IH | congruence].
Qed.

Lemma str_drop_app pat t : str_drop (String.length pat) (pat ++ t) = t.
Proof. induction pat as [|c pat IH]; simpl; [destruct t; reflexivity | exact IH]. Qed.

Lemma prefix_str_drop pat t :
  String.prefix pat t = true -> t = pat ++ str_drop (String.length pat) t.
Proof.
  revert t. induction pat as [|c pat IH]; intros t P; simpl in *.
  - reflexivity.
  - destruct t as [|c' t]; simpl in P; [discriminate|].
    destruct (Ascii.ascii_dec c c') as [<-|]; [|discriminate].
    f_equal. apply IH. exact P.
Qed.

(** [header.replace(pat, '')] on a header that starts with [pat]
    yields the rest of the header. *)
Lemma replace_first_prefix pat t : replace_first pat EmptyString (pat ++ t) = t.
Proof.
  destruct pat as [|c pat']; simpl.
  - destruct t; reflexivity.
  - destruct (Ascii.ascii_dec c c) as [_|]; [|congruence].
    rewrite prefix_app_self. simpl. apply (str_drop_app pat' t).
Qed.

End JsString.
