(* ===== verification/Crypto.v ===== *)
(** * Interfaces of the signing and hashing libraries

    The program calls [jsonwebtoken] ([jwt.sign] in
    [src/unnamed/part_002] line 64, [jwt.verify] in
    [src/middleware/auth.js] line 16) and [bcryptjs] ([bcrypt.hash] line 53,
    [bcrypt.compare] line 79).  Their cryptography is not modelled; what
    the program relies on is stated as the laws of two type classes:
    - [JwtScheme]: signing is a function of the claims (HS256 is
      deterministic), the server's own signatures verify to their claims,
      and a string that verifies is the signature of its claims (no
      forgery without the secret; [jws] compares signatures as strings);
    - [PasswordHasher]: [compare(q, hash(p, salt))] holds exactly when the
      first 72 bytes of [q] and [p] agree (bcrypt reads at most 72 bytes of
      its input), and a hash is at least six characters long (bcrypt hashes
      have 60).
    [jwt_verify] adds the expiry rule of [jsonwebtoken]: a token is
    rejected once [floor(now / 1000) >= exp].  [jwt_model] and
    [bcrypt_model] are instances built on a countable encoding, so that
    the witnesses of the development compute. *)

From Stdlib Require Import ZArith Lia String Ascii List.
From stdpp Require Import base countable strings.
From S2P Require Import Prelude JsString.

Local Open Scope string_scope.
Local Open Scope Z_scope.

(** ** JWT claims: the payload [{ _id, email, role }] of
    [generateAuthToken] with the [iat] and [exp] that [jwt.sign] adds. *)

Record Claims := mkClaims {
  cl_id : N;
  cl_email : string;
  cl_role : string;
  cl_iat : Z;
  cl_exp : Z
}.

#[export] Instance Claims_eq_dec : EqDecision Claims.
Proof. solve_decision. Defined.

Definition claims_to_tuple (c : Claims) : N * string * string * Z * Z :=
  (cl_id c, cl_email c, cl_role c, cl_iat c, cl_exp c).

Definition claims_of_tuple (t : N * string * string * Z * Z) : Claims :=
  let '(i, e, r, ia, ex) := t in mkClaims i e r ia ex.

#[export] Instance Claims_countable : Countable Claims :=
  inj_countable' claims_to_tuple claims_of_tuple (fun c => match c with mkClaims _ _ _ _ _ => eq_refl end).

(** [expiresIn: '7d'] *)
Definition jwt_lifetime : Z := 7 * 24 * 3600.

Class JwtScheme := {
  jwt_sign : Claims -> string;
  jwt_decode : string -> option Claims;
  jwt_decode_sign : forall c, jwt_decode (jwt_sign c) = Some c;
  jwt_decode_inv : forall t c, jwt_decode t = Some c -> t = jwt_sign c;
  jwt_sign_nonempty : forall c, jwt_sign c <> EmptyString
}.

Section Jwt.
Context `{JwtScheme}.

(** [jwt.sign({ _id, email, role }, secret, { expiresIn: '7d' })] at
    time [now] (milliseconds): [iat = floor(now / 1000)]. *)
Definition jwt_issue (id : N) (email role : string) (now : Z) : string :=
  let iat := now / 1000 in
  jwt_sign (mkClaims id email role iat (iat + jwt_lifetime)).

(** [jwt.verify(token, secret)] at time [now]: signature, then expiry. *)
Definition jwt_verify (t : string) (now : Z) : option Claims :=
  match jwt_decode t with
  | Some c => if Z.ltb (now / 1000) (cl_exp c) then Some c else None
  | None => None
  end.

End Jwt.

(** ** Password hashing *)

(** bcrypt reads at most 72 bytes of the password. *)
Definition bcrypt_key (p : string) : string := String.substring 0 72 p.

Class PasswordHasher := {
  bc_hash : string -> N -> string;
  bc_compare : string -> string -> bool;
  bc_compare_hash : forall p q salt,
    bc_compare q (bc_hash p salt) = String.eqb (bcrypt_key q) (bcrypt_key p);
  bc_hash_length : forall p salt, (6 <= String.length (bc_hash p salt))%nat
}.

(** ** Computable instances *)

Fixpoint pos_to_bits (p : positive) : string :=
  match p with
  | xH => EmptyString
  | xO p' => String "0"%char (pos_to_bits p')
  | xI p' => String "1"%char (pos_to_bits p')
  end.

Fixpoint bits_to_pos (s : string) : option positive :=
  match s with
  | EmptyString => Some xH
  | String "0"%char s' => option_map xO (bits_to_pos s')
  | String "1"%char s' => option_map xI (bits_to_pos s')
  | _ => None
  end.

Section Codec.
Context `{Countable A}.

Definition codec_encode (x : A) : string := pos_to_bits (encode x).

Definition codec_decode (s : string) : option A :=
  match bits_to_pos s with
  | Some p =>
      match decode p with
      | Some x => if decide (encode x = p) then Some x else None
      | None => None
      end
  | None => None
  end.

End Codec.

(** A model token: a fixed header followed by the encoded claims. *)
Definition jwt_header : string := "eyJ".

Definition model_sign (c : Claims) : string := jwt_header ++ codec_encode c.

Definition model_decode (t : string) : option Claims :=
  if String.prefix jwt_header t
  then codec_decode (JsString.str_drop (String.length jwt_header) t) else None.

Definition bcrypt_prefix : string := "$2a$12$".

Definition model_hash (p : string) (salt : N) : string :=
  bcrypt_prefix ++ codec_encode (bcrypt_key p, salt).

Definition model_compare (q h : string) : bool :=
  if String.prefix bcrypt_prefix h then
    match codec_decode (A := string * N) (JsString.str_drop (String.length bcrypt_prefix) h) with
    | Some (k, _) => String.eqb (bcrypt_key q) k
    | None => false
    end
  else false.

(** ** Properties of token issue and verification *)

Section JwtProps.
Context `{JwtScheme}.

Lemma jwt_sign_inj c1 c2 : jwt_sign c1 = jwt_sign c2 -> c1 = c2.
Proof.
  intros E. pose proof (jwt_decode_sign c1) as H1.
  rewrite E, jwt_decode_sign in H1. congruence.
Qed.

Lemma jwt_verify_Some t now c :
  jwt_verify t now = Some c -> t = jwt_sign c /\ now / 1000 < cl_exp c.
Proof.
  unfold jwt_verify. destruct (jwt_decode t) as [c'|] eqn:D; [|discriminate].
  destruct (Z.ltb_spec (now / 1000) (cl_exp c')); [|discriminate].
  intros [= <-]. split; [apply jwt_decode_inv|]; assumption.
Qed.

(** A freshly issued token verifies to its claims at any time before
    its expiry, seven days after the second it was issued in. *)
Lemma jwt_verify_issue id email role now now' :
  now' / 1000 < now / 1000 + jwt_lifetime ->
  jwt_verify (jwt_issue id email role now) now'
  = Some (mkClaims id email role (now / 1000) (now / 1000 + jwt_lifetime)).
Proof.
  intros Hlt. unfold jwt_verify, jwt_issue. rewrite jwt_decode_sign. simpl.
  destruct (Z.ltb_spec (now' / 1000) (now / 1000 + jwt_lifetime)); [reflexivity | lia].
Qed.

(** Two tokens issued for the same identity within the same second are
    the same string. *)
Lemma jwt_issue_same_second id email role now now' :
  now / 1000 = now' / 1000 ->
  jwt_issue id email role now = jwt_issue id email role now'.
Proof. intros E. unfold jwt_issue. rewrite E. reflexivity. Qed.
End JwtProps.

(** ** The laws of the computable instances *)

Lemma bits_to_pos_to_bits p : bits_to_pos (pos_to_bits p) = Some p.
Proof. induction p; simpl; rewrite ?IHp; reflexivity. Qed.

Lemma bits_to_pos_inv s p : bits_to_pos s = Some p -> s = pos_to_bits p.
Proof.
  revert p. induction s as [|c s IH]; intros p; simpl.
  - intros [= <-]. reflexivity.
  - destruct c as [[] [] [] [] [] [] [] []]; try discriminate;
      destruct (bits_to_pos s) as [q|] eqn:E; simpl; try discriminate;
      intros [= <-]; simpl; f_equal; apply IH; reflexivity.
Qed.

Section CodecProps.
Context `{Countable A}.

Lemma codec_decode_encode (x : A) : codec_decode (codec_encode x) = Some x.
Proof.
  unfold codec_decode, codec_encode. rewrite bits_to_pos_to_bits, decode_encode.
  destruct (decide (encode x = encode x)); congruence.
Qed.

Lemma codec_decode_inv s (x : A) : codec_decode s = Some x -> s = codec_encode x.
Proof.
  unfold codec_decode, codec_encode.
  destruct (bits_to_pos s) as [p|] eqn:Hb; [|discriminate].
  destruct (decode p) as [y|]; [|discriminate].
  destruct (decide (encode y = p)) as [<-|]; [|discriminate].
  intros [= <-]. apply bits_to_pos_inv. exact Hb.
Qed.
End CodecProps.

Lemma model_decode_sign c : model_decode (model_sign c) = Some c.
Proof.
  unfold model_decode, model_sign.
  rewrite JsString.prefix_app_self, JsString.str_drop_app. apply codec_decode_encode.
Qed.

Lemma model_decode_inv t c : model_decode t = Some c -> t = model_sign c.
Proof.
  unfold model_decode, model_sign. destruct (String.prefix jwt_header t) eqn:P; [|discriminate].
  intros D. apply codec_decode_inv in D. rewrite <- D.
  apply JsString.prefix_str_drop. exact P.
Qed.

Lemma model_sign_nonempty c : model_sign c <> EmptyString.
Proof. discriminate. Qed.

Lemma model_compare_hash p q salt :
  model_compare q (model_hash p salt) = String.eqb (bcrypt_key q) (bcrypt_key p).
Proof.
  unfold model_compare, model_hash.
  rewrite JsString.prefix_app_self, JsString.str_drop_app, codec_decode_encode.
  reflexivity.
Qed.

Lemma model_hash_length p salt : (6 <= String.length (model_hash p salt))%nat.
Proof. unfold model_hash. simpl. lia. Qed.

(** The instances package the definitions above with their laws. *)

#[export] Instance jwt_model : JwtScheme := {|
  jwt_sign := model_sign;
  jwt_decode := model_decode;
  jwt_decode_sign := model_decode_sign;
  jwt_decode_inv := model_decode_inv;
  jwt_sign_nonempty := model_sign_nonempty
|}.

#[export] Instance bcrypt_model : PasswordHasher := {|
  bc_hash := model_hash;
  bc_compare := model_compare;
  bc_compare_hash := model_compare_hash;
  bc_hash_length := model_hash_length
|}.

Lemma jwt_verify_issue_witness :
  (1700000001000 / 1000 < 1700000000000 / 1000 + jwt_lifetime)%Z /\
  jwt_verify (jwt_issue 1 "ann@ex.com" "user" 1700000000000) 1700000001000
  = Some (mkClaims 1 "ann@ex.com" "user" (1700000000000 / 1000) (1700000000000 / 1000 + jwt_lifetime)).
Proof.
  assert (L : (1700000001000 / 1000 < 1700000000000 / 1000 + jwt_lifetime)%Z) by (vm_compute; reflexivity).
  split; [exact L | exact (jwt_verify_issue _ _ _ _ _ L)].
Defined.

