(* ===== verification/Store.v ===== *)
(** * Mongoose collections

    A collection is the ordered list of its documents in natural
    (insertion) order, generic over a [Document] class giving a document's
    [_id].  The operations are the ones the code awaits:
    [Model.findOne(filter)] (first match in natural order), [save()] of a
    new document (insert) and of a loaded one (replace by [_id]),
    [findOneAndUpdate] and [findOneAndDelete] (first match), and
    [countDocuments].  Filters are boolean functions on documents. *)

From Stdlib Require Import ZArith NArith Lia String Ascii List.
From stdpp Require Import base list.
From S2P Require Import Prelude.

Local Open Scope string_scope.

(** Errors thrown by Mongoose and the driver, forwarded by the handlers to
    [next(error)]. *)
Inductive DbError :=
  | EValidation (path : string) (msg : string)
  | ECast (value : string)
  | EDuplicateKey (index : string)
  | EBadValue (what : string)
  | EVersion (id : N).   (** [VersionError]: a versioned [save()] matched no document *)

Class Document (D : Type) := doc_id : D -> N.

Section Collection.
Context {D : Type} `{Document D}.

Definition find_one (p : D -> bool) (c : list D) : option D := List.find p c.

Definition id_is (i : N) (d : D) : bool := N.eqb (doc_id d) i.

(** [save()] of a new document *)
Definition insert_doc (d : D) (c : list D) : list D := c ++ [d].

(** [save()] of a loaded document: the stored copy with its [_id] is
    replaced. *)
Definition replace_doc (d : D) (c : list D) : list D :=
  List.map (fun x => if id_is (doc_id d) x then d else x) c.

(** [findOneAndUpdate(filter, f, { new: true })]: the first match is
    updated; the updated document is returned. *)
Fixpoint update_one (p : D -> bool) (f : D -> D) (c : list D) : option D * list D :=
  match c with
  | [] => (None, [])
  | x :: c' =>
      if p x then (Some (f x), f x :: c')
      else let '(r, c'') := update_one p f c' in (r, x :: c'')
  end.

(** [findOneAndDelete(filter)] *)
Fixpoint delete_one (p : D -> bool) (c : list D) : option D * list D :=
  match c with
  | [] => (None, [])
  | x :: c' =>
      if p x then (Some x, c')
      else let '(r, c'') := delete_one p c' in (r, x :: c'')
  end.

(** [countDocuments(filter)] *)
Definition count_documents (p : D -> bool) (c : list D) : nat := count_by p c.

(** Distinct [_id]s: the primary-key index. *)
Definition ids_unique (c : list D) : Prop := List.NoDup (List.map doc_id c).

Lemma find_one_Some p c d : find_one p c = Some d -> In d c /\ p d = true.
Proof. unfold find_one. intros E. split; [eapply find_some | eapply find_some]; eauto. Qed.

Lemma find_one_None p c : find_one p c = None -> forall d, In d c -> p d = false.
Proof. unfold find_one. intros E d Hin. eapply find_none; eauto. Qed.

Lemma find_one_none_intro p c : (forall d, In d c -> p d = false) -> find_one p c = None.
Proof.
  unfold find_one. induction c as [|x c IH]; simpl; intros E; [reflexivity|].
  rewrite E by auto. apply IH. auto.
Qed.

Lemma find_one_ext p q c :
  (forall d, In d c -> p d = q d) -> find_one p c = find_one q c.
Proof.
  unfold find_one. induction c as [|x c IH]; simpl; intros E; [reflexivity|].
  rewrite E by auto. destruct (q x); [reflexivity|]. apply IH. auto.
Qed.

Lemma find_one_insert_miss p d c :
  p d = false -> find_one p (insert_doc d c) = find_one p c.
Proof.
  unfold find_one, insert_doc. intros Hd. induction c as [|x c IH]; simpl.
  - rewrite Hd. reflexivity.
  - destruct (p x); [reflexivity | exact IH].
Qed.

Lemma replace_doc_ids d c : List.map doc_id (replace_doc d c) = List.map doc_id c.
Proof.
  unfold replace_doc. rewrite List.map_map. apply List.map_ext. intros x.
  unfold id_is. destruct (N.eqb_spec (doc_id x) (doc_id d)); congruence.
Qed.

Lemma update_one_ids p f c :
  (forall x, doc_id (f x) = doc_id x) ->
  List.map doc_id (snd (update_one p f c)) = List.map doc_id c.
Proof.
  intros Hf. induction c as [|x c IH]; simpl; [reflexivity|].
  destruct (p x); simpl; [rewrite Hf; reflexivity|].
  destruct (update_one p f c) as [r c''] eqn:E. simpl in *. rewrite IH. reflexivity.
Qed.

Lemma update_one_None p f c : fst (update_one p f c) = None -> snd (update_one p f c) = c.
Proof.
  induction c as [|x c IH]; simpl; [reflexivity|].
  destruct (p x); simpl; [discriminate|].
  destruct (update_one p f c) as [r c''] eqn:E. simpl in *. intros Hr. rewrite IH; auto.
Qed.

Lemma update_one_miss p f c :
  (forall x, In x c -> p x = false) -> update_one p f c = (None, c).
Proof.
  induction c as [|x c IH]; simpl; intros Hp; [reflexivity|].
  rewrite Hp by auto. rewrite IH by auto. reflexivity.
Qed.

Lemma delete_one_miss p c :
  (forall x, In x c -> p x = false) -> delete_one p c = (None, c).
Proof.
  induction c as [|x c IH]; simpl; intros Hp; [reflexivity|].
  rewrite Hp by auto. rewrite IH by auto. reflexivity.
Qed.

Lemma update_one_Some p f c y :
  fst (update_one p f c) = Some y -> exists x, In x c /\ p x = true /\ y = f x.
Proof.
  induction c as [|x c IH]; simpl; [discriminate|].
  destruct (p x) eqn:Px; simpl.
  - intros [= <-]. exists x. auto.
  - destruct (update_one p f c) as [r c''] eqn:E. simpl in *.
    intros Hr. destruct (IH Hr) as (z & Hz & Pz & ->). exists z. auto.
Qed.

(** [findOneAndUpdate] replaces the first match in place. *)
Lemma update_one_split p f c y :
  fst (update_one p f c) = Some y ->
  exists c1 x c2, c = (c1 ++ x :: c2)%list /\ Forall (fun z => p z = false) c1 /\ p x = true
    /\ y = f x /\ snd (update_one p f c) = (c1 ++ f x :: c2)%list.
Proof.
  induction c as [|x c IH]; simpl; [discriminate|].
  destruct (p x) eqn:Px; simpl.
  - intros [= <-]. exists [], x, c. auto.
  - destruct (update_one p f c) as [r c''] eqn:E. simpl in *.
    intros Hr. destruct (IH Hr) as (c1 & z & c2 & -> & Hf & Pz & -> & ->).
    exists (x :: c1), z, c2. repeat split; auto.
Qed.

Lemma delete_one_Some p c y :
  fst (delete_one p c) = Some y ->
  exists c1 c2, c = (c1 ++ y :: c2)%list /\ snd (delete_one p c) = (c1 ++ c2)%list /\ p y = true.
Proof.
  induction c as [|x c IH]; simpl; [discriminate|].
  destruct (p x) eqn:Px; simpl.
  - intros [= <-]. exists [], c. auto.
  - destruct (delete_one p c) as [r c''] eqn:E. simpl in *.
    intros Hr. destruct (IH Hr) as (c1 & c2 & -> & -> & Py).
    exists (x :: c1), c2. auto.
Qed.

Lemma delete_one_sublist p c : sublist (snd (delete_one p c)) c.
Proof.
  induction c as [|x c IH]; simpl; [constructor|].
  destruct (p x); simpl; [apply sublist_cons; reflexivity|].
  destruct (delete_one p c) as [r c''] eqn:E. simpl in *. apply sublist_skip. exact IH.
Qed.
Lemma in_replace_doc d c y :
  In y (replace_doc d c) -> y = d \/ (In y c /\ doc_id y <> doc_id d).
Proof.
  unfold replace_doc, id_is. rewrite List.in_map_iff. intros (x & <- & Hx).
  destruct (N.eqb_spec (doc_id x) (doc_id d)); [left; reflexivity | right; auto].
Qed.

Lemma in_replace_doc_new d c x : In x c -> doc_id x = doc_id d -> In d (replace_doc d c).
Proof.
  unfold replace_doc, id_is. intros Hx E. apply List.in_map_iff. exists x.
  split; [|exact Hx]. destruct (N.eqb_spec (doc_id x) (doc_id d)); congruence.
Qed.

Lemma in_replace_doc_other d c y : In y c -> doc_id y <> doc_id d -> In y (replace_doc d c).
Proof.
  unfold replace_doc, id_is. intros Hy E. apply List.in_map_iff. exists y.
  split; [|exact Hy]. destruct (N.eqb_spec (doc_id y) (doc_id d)); congruence.
Qed.

(** Replacing a document whose [_id] is not stored changes nothing. *)
Lemma replace_doc_absent d c :
  (forall y, In y c -> doc_id y <> doc_id d) -> replace_doc d c = c.
Proof.
  unfold replace_doc, id_is. intros Hc. rewrite <- (List.map_id c) at 2.
  apply List.map_ext_in. intros y Hy.
  destruct (N.eqb_spec (doc_id y) (doc_id d)); [exfalso; eapply Hc; eauto | reflexivity].
Qed.

(** Replacing the last, freshly inserted document. *)
Lemma replace_doc_app_fresh d x c :
  (forall y, In y c -> doc_id y <> doc_id d) -> doc_id x = doc_id d ->
  replace_doc d (c ++ [x])%list = (c ++ [d])%list.
Proof.
  intros Hc Hx. unfold replace_doc at 1. rewrite List.map_app. simpl.
  unfold id_is at 2. destruct (N.eqb_spec (doc_id x) (doc_id d)); [|congruence].
  f_equal. apply replace_doc_absent. exact Hc.
Qed.

Lemma find_one_app_last p c x :
  (forall y, In y c -> p y = false) -> p x = true -> find_one p (c ++ [x])%list = Some x.
Proof.
  unfold find_one. induction c as [|y c IH]; simpl; intros Hc Hx.
  - rewrite Hx. reflexivity.
  - rewrite Hc by auto. apply IH; auto.
Qed.

(** The only document satisfying [p] is found. *)
Lemma find_one_unique p c x :
  In x c -> p x = true -> (forall y, In y c -> p y = true -> y = x) ->
  find_one p c = Some x.
Proof.
  unfold find_one. induction c as [|y c IH]; simpl; [contradiction|].
  intros Hx Hpx Hu. destruct (p y) eqn:Py.
  - f_equal. apply Hu; auto.
  - destruct Hx as [<-|Hx]; [congruence|]. apply IH; auto.
Qed.

Lemma replace_doc_NoDup_map {B} (f : D -> B) d c :
  List.NoDup (List.map doc_id c) -> List.NoDup (List.map f c) ->
  (forall x, In x c -> f x = f d -> doc_id x = doc_id d) ->
  List.NoDup (List.map f (replace_doc d c)).
Proof.
  induction c as [|x c IH]; simpl; intros Hid Hf Hcl; [constructor|].
  apply NoDup_cons_iff in Hid as [Hxi Hid]. apply NoDup_cons_iff in Hf as [Hxf Hf].
  constructor; [|apply IH; auto]. unfold id_is at 1.
  destruct (N.eqb_spec (doc_id x) (doc_id d)) as [Exd|Exd].
  - rewrite replace_doc_absent.
    + intros Hin. apply List.in_map_iff in Hin as (z & Ez & Hz).
      apply Hxi. rewrite Exd, <- (Hcl z (or_intror Hz) Ez). apply List.in_map. exact Hz.
    + intros z Hz Ez. apply Hxi. rewrite Exd, <- Ez. apply List.in_map. exact Hz.
  - intros Hin. apply List.in_map_iff in Hin as (y & Ey & Hy).
    apply in_replace_doc in Hy as [->|[Hy _]].
    + apply Exd. apply Hcl; auto.
    + apply Hxf. rewrite <- Ey. apply List.in_map. exact Hy.
Qed.

Lemma insert_doc_NoDup_map {B} (f : D -> B) d c :
  List.NoDup (List.map f c) -> (forall x, In x c -> f x <> f d) ->
  List.NoDup (List.map f (insert_doc d c)).
Proof.
  intros Hnd Hc. unfold insert_doc. rewrite List.map_app. simpl.
  apply List.NoDup_app; [exact Hnd | repeat constructor; simpl; tauto |].
  intros z Hz [<-|[]]. apply List.in_map_iff in Hz as (x & Ex & Hx). exact (Hc x Hx Ex).
Qed.

Lemma in_delete_one p c y : In y (snd (delete_one p c)) -> In y c.
Proof.
  induction c as [|x c IH]; simpl; [tauto|].
  destruct (p x); simpl; [auto|].
  destruct (delete_one p c) as [r c''] eqn:E. simpl in *. intros [<-|Hy]; auto.
Qed.

Lemma delete_one_NoDup_map {B} (f : D -> B) p c :
  List.NoDup (List.map f c) -> List.NoDup (List.map f (snd (delete_one p c))).
Proof.
  induction c as [|x c IH]; simpl; [auto|]. intros Hnd.
  apply NoDup_cons_iff in Hnd as [Hx Hnd]. destruct (p x); simpl; [exact Hnd|].
  destruct (delete_one p c) as [r c''] eqn:E. simpl in *. constructor; [|auto].
  intros Hin. apply Hx. apply List.in_map_iff in Hin as (z & Ez & Hz).
  rewrite <- Ez. apply List.in_map. apply (in_delete_one p c). rewrite E. exact Hz.
Qed.

(** An update that keeps [_id]s leaves only documents whose [_id] was
    already stored. *)
Lemma in_update_one_id p f c y :
  (forall x, doc_id (f x) = doc_id x) -> In y (snd (update_one p f c)) ->
  exists x, In x c /\ doc_id x = doc_id y.
Proof.
  intros Hf Hy. apply (List.in_map doc_id) in Hy. rewrite update_one_ids in Hy by exact Hf.
  apply List.in_map_iff in Hy as (x & Ex & Hx). eauto.
Qed.

(** A document the filter does not match survives an update and a
    delete. *)
Lemma in_update_one_other p f c y : In y c -> p y = false -> In y (snd (update_one p f c)).
Proof.
  intros Hy Hp. induction c as [|x c IH]; [destruct Hy|]. cbn [update_one].
  destruct Hy as [<-|Hy].
  - rewrite Hp. destruct (update_one p f c). left. reflexivity.
  - destruct (p x); [right; exact Hy|].
    specialize (IH Hy). destruct (update_one p f c). right. exact IH.
Qed.

Lemma in_delete_one_other p c y : In y c -> p y = false -> In y (snd (delete_one p c)).
Proof.
  intros Hy Hp. induction c as [|x c IH]; [destruct Hy|]. cbn [delete_one].
  destruct Hy as [<-|Hy].
  - rewrite Hp. destruct (delete_one p c). left. reflexivity.
  - destruct (p x); [exact Hy|].
    specialize (IH Hy). destruct (delete_one p c). right. exact IH.
Qed.
End Collection.
