(* ===== verification/ObjectId.v ===== *)
(** * ObjectId printing and casting

    [ObjectId] values are [N] below [2^96]; [oid_to_hex] prints one as the
    24 lower-case hexadecimal digits of its JSON form
    ([ObjectId.prototype.toHexString]) and [oid_cast] is Mongoose's cast
    of a route parameter ([req.params.id]) to an [ObjectId]: 24
    hexadecimal digits of either case, otherwise a [CastError].  The
    other string forms Mongoose accepts (12-byte strings) are not
    modelled. *)

From Stdlib Require Import Arith NArith Lia String Ascii Bool List.
From S2P Require Import Prelude.

Local Open Scope string_scope.
Local Open Scope bool_scope.

Definition hex_char (d : N) : ascii :=
  ascii_of_N (if N.ltb d 10 then 48 + d else 87 + d)%N.

Definition hex_value (c : ascii) : option N :=
  let n := N_of_ascii c in
  if N.leb 48 n && N.leb n 57 then Some (n - 48)%N
  else if N.leb 97 n && N.leb n 102 then Some (n - 87)%N
  else if N.leb 65 n && N.leb n 70 then Some (n - 55)%N
  else None.

(** The last [k] hexadecimal digits of [n], most significant first, in
    front of [acc]. *)
Fixpoint hex_digits (k : nat) (n : N) (acc : string) : string :=
  match k with
  | O => acc
  | S k' => hex_digits k' (n / 16)%N (String (hex_char (n mod 16)%N) acc)
  end.

Fixpoint read_hex (s : string) (acc : N) : option N :=
  match s with
  | EmptyString => Some acc
  | String c s' =>
      match hex_value c with
      | Some d => read_hex s' (acc * 16 + d)%N
      | None => None
      end
  end.

(** [ObjectId.prototype.toHexString], the JSON form of an [_id]. *)
Definition oid_to_hex (n : N) : string := hex_digits 24 n EmptyString.

(** Mongoose's cast of a string to an [ObjectId]. *)
Definition oid_cast (s : string) : option N :=
  if Nat.eqb (String.length s) 24 then read_hex s 0 else None.

Definition oid_bound : N := (2 ^ 96)%N.

Lemma hex_value_char d : (d < 16)%N -> hex_value (hex_char d) = Some d.
Proof.
  intros Hd. unfold hex_char, hex_value.
  destruct (N.ltb_spec d 10);
    rewrite N_ascii_embedding by lia;
    repeat match goal with |- context [N.leb ?a ?b] => destruct (N.leb_spec a b) end;
    simpl; f_equal; lia.
Qed.

Lemma hex_digits_length k n acc :
  String.length (hex_digits k n acc) = (k + String.length acc)%nat.
Proof.
  revert n acc. induction k as [|k IH]; intros n acc; simpl; [reflexivity|].
  rewrite IH. simpl. lia.
Qed.

Lemma read_hex_digits k n acc a :
  read_hex (hex_digits k n acc) a = read_hex acc (a * 16 ^ N.of_nat k + n mod 16 ^ N.of_nat k)%N.
Proof.
  revert n acc a. induction k as [|k IH]; intros n acc a; simpl.
  - rewrite N.pow_0_r, N.mod_1_r, N.mul_1_r, N.add_0_r. reflexivity.
  - rewrite IH. simpl. rewrite hex_value_char by (apply N.mod_lt; lia).
    f_equal.
    rewrite Nat2N.inj_succ, N.pow_succ_r'.
    rewrite N.Div0.mod_mul_r.
    ring.
Qed.

(** Round trip: casting the printed form of an [ObjectId] gives it back. *)
Lemma oid_cast_to_hex n : (n < oid_bound)%N -> oid_cast (oid_to_hex n) = Some n.
Proof.
  intros Hn. unfold oid_cast, oid_to_hex.
  rewrite hex_digits_length, Nat.add_0_r, Nat.eqb_refl, read_hex_digits.
  change (Some (0 * 16 ^ N.of_nat 24 + n mod 16 ^ N.of_nat 24)%N = Some n).
  rewrite N.mul_0_l, N.add_0_l, N.mod_small; [reflexivity|].
  exact Hn.
Qed.

Lemma oid_cast_to_hex_witness : (2 < oid_bound)%N /\ oid_cast (oid_to_hex 2) = Some 2%N.
Proof.
  assert (B : (2 < oid_bound)%N) by (vm_compute; reflexivity).
  split; [exact B | exact (oid_cast_to_hex 2 B)].
Defined.
