(* ===== verification/UserModel.v ===== *)
(** * The User model ([src/unnamed/part_002], i.e. [models/User.js])

    - [User] is the document of [userSchema]; [Role] its enum.
    - [email_regex_test] decides the schema's [match] regular expression
      [^\w+([.-]?\w+)*@\w+([.-]?\w+)*(\.\w{2,3})+$] by a backtracking
      matcher that returns every remainder a sub-expression can leave.
    - [new_user] is [new User({ name, email, password })] with the
      setters ([trim], [lowercase]) and defaults ([role], [createdAt],
      [tokens]).
    - [user_validate] is Mongoose's validation of the document against
      the schema, [user_save] the whole [save()] pipeline: validation,
      the [pre('save')] hook (hash only when the password was modified),
      the unique index on [email], the write.
    - [generate_auth_token], [compare_password], [user_to_json]: the
      instance methods. *)

From Stdlib Require Import ZArith NArith Lia String Ascii List Bool.
From stdpp Require Import base list.
From S2P Require Import Prelude JsString Crypto Store.

Local Open Scope string_scope.
Local Open Scope bool_scope.

Inductive Role := RoleUser | RoleAdmin.

Definition role_str (r : Role) : string :=
  match r with RoleUser => "user" | RoleAdmin => "admin" end.

Record User := mkUser {
  u_id : N;
  u_name : string;
  u_email : string;
  u_password : string;
  u_role : Role;
  u_createdAt : Z;
  u_tokens : list string
}.

#[export] Instance user_document : Document User := u_id.

Definition set_tokens (u : User) (ts : list string) : User :=
  mkUser (u_id u) (u_name u) (u_email u) (u_password u) (u_role u) (u_createdAt u) ts.

Definition set_password (u : User) (p : string) : User :=
  mkUser (u_id u) (u_name u) (u_email u) p (u_role u) (u_createdAt u) (u_tokens u).

(** ** The e-mail regular expression *)

Module EmailRegex.

Definition is_word (c : ascii) : bool :=
  let n := nat_of_ascii c in
  (Nat.leb 48 n && Nat.leb n 57) || (Nat.leb 65 n && Nat.leb n 90)
  || (Nat.leb 97 n && Nat.leb n 122) || Nat.eqb n 95.

Definition is_sep (c : ascii) : bool :=
  Ascii.eqb c "." || Ascii.eqb c "-".

(** [\w+]: the remainders after one or more word characters. *)
Fixpoint word_plus (s : string) : list string :=
  match s with
  | String c s' => if is_word c then s' :: word_plus s' else []
  | EmptyString => []
  end.

(** [[.-]?\w+] *)
Definition group (s : string) : list string :=
  let starts := s :: match s with
                     | String c s' => if is_sep c then [s'] else []
                     | EmptyString => []
                     end in
  flat_map word_plus starts.

(** [\.\w{2,3}] *)
Definition tld (s : string) : list string :=
  match s with
  | String c (String a (String b s')) =>
      if Ascii.eqb c "." && is_word a && is_word b then
        s' :: match s' with
              | String c s'' => if is_word c then [s''] else []
              | EmptyString => []
              end
      else []
  | _ => []
  end.

Definition char_at (ch : ascii) (s : string) : list string :=
  match s with
  | String c s' => if Ascii.eqb c ch then [s'] else []
  | EmptyString => []
  end.

(** [f*] with at most [fuel] iterations; every [f] used below consumes at
    least one character, so [String.length] iterations are enough. *)
Fixpoint star (fuel : nat) (f : string -> list string) (s : string) : list string :=
  match fuel with
  | O => [s]
  | S k => s :: flat_map (star k f) (f s)
  end.

(** The match of the whole regular expression with [n] iterations of each
    star at most. *)
Definition email_regex_with (n : nat) (s : string) : bool :=
  let local := flat_map (star n group) (word_plus s) in
  let at_sign := flat_map (char_at "@") local in
  let domain := flat_map (star n group) (flat_map word_plus at_sign) in
  let tlds := flat_map (star n tld) (flat_map tld domain) in
  existsb (fun r => String.eqb r EmptyString) tlds.

(** [emailRegex.test(s)]: [String.length s] iterations. *)
Definition email_regex_test (s : string) : bool := email_regex_with (String.length s) s.

(** Every character of [w] is a word character. *)
Fixpoint all_word (w : string) : bool :=
  match w with EmptyString => true | String c w' => is_word c && all_word w' end.

(** [s] ends with a dot and two or three word characters. *)
Definition tld_end (s : string) : Prop :=
  exists p w, s = (p ++ String "." w)%string /\ (2 <= String.length w <= 3)%nat /\ all_word w = true.
End EmailRegex.

(** A stored user without sessions, for the witnesses. *)
Definition ex_stored_user : User :=
  mkUser 1 "Ann" "ann@ex.com" (bc_hash "secret1" 7) RoleUser 1700000000000 [].

(** [toJSON]: the outward representation, without [password] and
    [tokens]. *)

Record UserView := mkUserView {
  v_id : N;
  v_name : string;
  v_email : string;
  v_role : Role;
  v_createdAt : Z
}.

Definition user_to_json (u : User) : UserView :=
  mkUserView (u_id u) (u_name u) (u_email u) (u_role u) (u_createdAt u).

Section UserModel.
Context `{JwtScheme} `{PasswordHasher}.

(** [new User({ name, email, password })] at time [now] with the fresh
    [_id] [id]. *)
Definition new_user (id : N) (now : Z) (name email password : string) : User :=
  mkUser id (JsString.trim name) (JsString.to_lower email) password RoleUser now [].

(** Schema validation of a document; [pw_selected] is false when the
    document was loaded without [+password] (the path is then not
    validated).  The first failing path in schema order is reported. *)
Definition user_validate (pw_selected : bool) (u : User) : option DbError :=
  if String.eqb (u_name u) EmptyString then Some (EValidation "name" "Name is required")
  else if Nat.ltb 50 (String.length (u_name u)) then
    Some (EValidation "name" "Name cannot exceed 50 characters")
  else if String.eqb (u_email u) EmptyString then Some (EValidation "email" "Email is required")
  else if negb (EmailRegex.email_regex_test (u_email u)) then
    Some (EValidation "email" "Please enter a valid email")
  else if pw_selected && String.eqb (u_password u) EmptyString then
    Some (EValidation "password" "Password is required")
  else if pw_selected && Nat.ltb (String.length (u_password u)) 6 then
    Some (EValidation "password" "Password must be at least 6 characters")
  else None.

(** The [pre('save')] hook: [Some salt] when the password path was
    modified ([bcrypt.genSalt(12)] drew [salt]), [None] when the hook
    returns early. *)
Definition pre_save_hash (pw_salt : option N) (u : User) : User :=
  match pw_salt with
  | Some salt => set_password u (bc_hash (u_password u) salt)
  | None => u
  end.

(** The unique index on [email]: another document with the same e-mail. *)
Definition email_taken (u : User) (c : list User) : bool :=
  existsb (fun x => String.eqb (u_email x) (u_email u) && negb (N.eqb (u_id x) (u_id u))) c.

(** [user.save()]: validation, [pre('save')], the unique index, then
    insert ([is_new]) or replace by [_id]. *)
Definition user_save (is_new : bool) (pw_salt : option N) (pw_selected : bool) (u : User)
    (c : list User) : DbError + (User * list User) :=
  match user_validate pw_selected u with
  | Some e => inl e
  | None =>
      let u' := pre_save_hash pw_salt u in
      if email_taken u' c then inl (EDuplicateKey "email_1")
      else inr (u', if is_new then insert_doc u' c else replace_doc u' c)
  end.

(** [user.generateAuthToken()] on a loaded (or already saved) document
    that has its password: sign, append to [tokens], [save()]. *)
Definition generate_auth_token (now : Z) (u : User) (c : list User)
    : DbError + (string * User * list User) :=
  let token := jwt_issue (u_id u) (u_email u) (role_str (u_role u)) now in
  match user_save false None true (set_tokens u (u_tokens u ++ [token])) c with
  | inl e => inl e
  | inr (u', c') => inr (token, u', c')
  end.

(** [user.comparePassword(candidate)] *)
Definition compare_password (u : User) (candidate : string) : bool :=
  bc_compare candidate (u_password u).

(** ** The invariant of the [users] collection

    Every stored user has an [_id] below the next fresh one, passes the
    schema validation with its (hashed) password, and holds only session
    tokens that verify to its own [_id]; [_id]s and e-mails are unique. *)

Definition token_of (id : N) (t : string) : Prop :=
  exists c, jwt_decode t = Some c /\ cl_id c = id.

Definition user_ok (n : N) (u : User) : Prop :=
  (u_id u < n)%N /\ user_validate true u = None /\ Forall (token_of (u_id u)) (u_tokens u).

Definition users_inv (n : N) (us : list User) : Prop :=
  (forall u, In u us -> user_ok n u) /\
  List.NoDup (List.map doc_id us) /\ List.NoDup (List.map u_email us).

Lemma user_validate_set_tokens b u ts : user_validate b (set_tokens u ts) = user_validate b u.
Proof. reflexivity. Qed.

Lemma user_validate_weaken b u : user_validate true u = None -> user_validate b u = None.
Proof.
  unfold user_validate. destruct b; [auto|]. simpl.
  repeat match goal with |- context [if ?c then _ else _] => destruct c end;
    simpl; congruence.
Qed.

(** A hash of at least six characters passes the password validators. *)
Lemma user_validate_set_password u h :
  user_validate true u = None -> (6 <= String.length h)%nat ->
  user_validate true (set_password u h) = None.
Proof.
  intros Hu Hh. unfold user_validate in *; simpl in *.
  repeat match goal with
         | H : context [if ?c then _ else _] |- _ => destruct c; [discriminate|]
         end.
  destruct (String.eqb_spec h EmptyString) as [->|_]; [simpl in Hh; lia|].
  destruct (Nat.ltb_spec (String.length h) 6); [lia | reflexivity].
Qed.

Lemma user_save_inv is_new s sel u c u' c' :
  user_save is_new s sel u c = inr (u', c') ->
  u' = pre_save_hash s u /\ c' = (if is_new then insert_doc u' c else replace_doc u' c) /\
  user_validate sel u = None /\ email_taken u' c = false.
Proof.
  unfold user_save. destruct (user_validate sel u); [discriminate|].
  destruct (email_taken (pre_save_hash s u) c) eqn:E; [discriminate|].
  intros [= <- <-]. auto.
Qed.

Lemma email_taken_false u c x :
  email_taken u c = false -> In x c -> u_email x = u_email u -> u_id x = u_id u.
Proof.
  unfold email_taken. intros E Hx Ex.
  destruct (N.eqb_spec (u_id x) (u_id u)) as [|Hne]; [assumption|]. exfalso.
  apply (proj2 (not_true_iff_false _)) in E. apply E, existsb_exists. exists x.
  split; [exact Hx|]. rewrite Ex, String.eqb_refl. simpl.
  apply negb_true_iff, N.eqb_neq. exact Hne.
Qed.

Lemma users_inv_le n m c : (n <= m)%N -> users_inv n c -> users_inv m c.
Proof.
  intros Hle (Hok & Hid & Hem). split; [|auto].
  intros u Hu. destruct (Hok u Hu) as (Hn & Hv & Ht). split; [lia | auto].
Qed.

Lemma users_inv_succ n c : users_inv n c -> users_inv (N.succ n) c.
Proof. apply users_inv_le. lia. Qed.

Lemma user_save_new_ok c u s :
  user_validate true u = None -> email_taken (pre_save_hash (Some s) u) c = false ->
  user_save true (Some s) true u c
  = inr (pre_save_hash (Some s) u, insert_doc (pre_save_hash (Some s) u) c).
Proof. intros Hv He. unfold user_save. rewrite Hv, He. reflexivity. Qed.

(** Saving a new user with a fresh [_id]. *)
Lemma user_save_new_inv n c u s u' c' :
  users_inv n c -> u_id u = n -> u_tokens u = [] ->
  user_save true (Some s) true u c = inr (u', c') ->
  users_inv (N.succ n) c' /\ c' = (c ++ [u'])%list /\ u_id u' = n.
Proof.
  intros (Hok & Hid & Hem) Hn Ht Hs.
  apply user_save_inv in Hs as (-> & -> & Hv & He).
  assert (Hfresh : forall x, In x c -> u_id x <> n).
  { intros x Hx. pose proof (proj1 (Hok x Hx)). lia. }
  refine (conj (conj _ (conj _ _)) (conj eq_refl Hn)).
  - intros x Hx. unfold insert_doc in Hx. apply List.in_app_or in Hx as [Hx|[<-|[]]].
    + exact (proj1 (users_inv_succ n c (conj Hok (conj Hid Hem))) x Hx).
    + split; [simpl; lia|]. split.
      * apply user_validate_set_password; [exact Hv | apply bc_hash_length].
      * simpl. rewrite Ht. constructor.
  - apply insert_doc_NoDup_map; [exact Hid|]. intros x Hx E.
    apply (Hfresh x Hx). change (u_id x = u_id u) in E. congruence.
  - apply insert_doc_NoDup_map; [exact Hem|]. intros x Hx E.
    apply (Hfresh x Hx). rewrite (email_taken_false _ _ _ He Hx E). exact Hn.
Qed.

(** Saving an already stored user under its [_id]. *)
Lemma user_save_replace_inv n c u0 u sel u' c' :
  users_inv n c -> In u0 c -> u_id u = u_id u0 ->
  user_validate true u = None -> Forall (token_of (u_id u)) (u_tokens u) ->
  user_save false None sel u c = inr (u', c') ->
  users_inv n c' /\ u' = u /\ c' = replace_doc u c.
Proof.
  intros (Hok & Hid & Hem) Hu0 Hid0 Hv Ht Hs.
  apply user_save_inv in Hs as (-> & -> & _ & He). simpl in *.
  refine (conj (conj _ (conj _ _)) (conj eq_refl eq_refl)).
  - intros x Hx. apply in_replace_doc in Hx as [->|[Hx _]]; [|exact (Hok x Hx)].
    split; [rewrite Hid0; exact (proj1 (Hok u0 Hu0)) | auto].
  - rewrite replace_doc_ids. exact Hid.
  - apply replace_doc_NoDup_map; auto. intros x Hx E. exact (email_taken_false _ _ _ He Hx E).
Qed.

(** Under the invariant, saving a stored user whose e-mail is unchanged
    and that passes validation succeeds. *)
Lemma user_save_replace_ok n c u0 u sel :
  users_inv n c -> In u0 c -> u_id u = u_id u0 -> u_email u = u_email u0 ->
  user_validate sel u = None ->
  user_save false None sel u c = inr (u, replace_doc u c).
Proof.
  intros (Hok & Hid & Hem) Hu0 Hid0 Hem0 Hv. unfold user_save. rewrite Hv. simpl.
  destruct (email_taken u c) eqn:E; [|reflexivity]. exfalso.
  unfold email_taken in E. apply existsb_exists in E as (x & Hx & Ex).
  apply andb_true_iff in Ex as [Ee Ei]. apply String.eqb_eq in Ee.
  apply negb_true_iff, N.eqb_neq in Ei.
  assert (x = u0) as -> by (apply (NoDup_map_eq u_email c); auto; congruence).
  congruence.
Qed.
Lemma token_of_issue id email role now : token_of id (jwt_issue id email role now).
Proof. unfold jwt_issue. eexists. rewrite jwt_decode_sign. split; reflexivity. Qed.

(** [generateAuthToken()] on a stored user under the invariant. *)
Lemma generate_auth_token_ok_spec n c u now :
  users_inv n c -> In u c ->
  let t := jwt_issue (u_id u) (u_email u) (role_str (u_role u)) now in
  let u' := set_tokens u (u_tokens u ++ [t]) in
  generate_auth_token now u c = inr (t, u', replace_doc u' c) /\ users_inv n (replace_doc u' c).
Proof.
  intros Hinv Hu t u'. destruct (proj1 Hinv u Hu) as (_ & Hv & Ht).
  assert (Hv' : user_validate true u' = None) by (unfold u'; rewrite user_validate_set_tokens; exact Hv).
  assert (S : user_save false None true u' c = inr (u', replace_doc u' c))
    by (apply (user_save_replace_ok n c u); auto).
  split.
  - unfold generate_auth_token. fold t u'. rewrite S. reflexivity.
  - apply (user_save_replace_inv n c u u' true u' (replace_doc u' c)); auto.
    simpl. apply Forall_app. split; [exact Ht | constructor; [apply token_of_issue | constructor]].
Qed.

(** C18: [generateAuthToken()] on a stored user always succeeds under the
    invariant: the signed token is appended and the user replaced. *)
Lemma generate_auth_token_ok n c u now :
  users_inv n c -> In u c ->
  let t := jwt_issue (u_id u) (u_email u) (role_str (u_role u)) now in
  let u' := set_tokens u (u_tokens u ++ [t]) in
  generate_auth_token now u c = inr (t, u', replace_doc u' c) /\ users_inv n (replace_doc u' c).
Proof. exact (generate_auth_token_ok_spec n c u now). Qed.

End UserModel.

(** ** Stored users keep their identity

    [users_kept c c']: every user of [c] is in [c'] with the same
    [_id], name, e-mail, password hash, role and creation date, its
    sessions aside. *)

Definition users_kept (c c' : list User) : Prop :=
  forall u, In u c -> exists ts, In (set_tokens u ts) c'.

Lemma set_tokens_self u : set_tokens u (u_tokens u) = u.
Proof. destruct u; reflexivity. Qed.

Lemma users_kept_refl c : users_kept c c.
Proof. intros u Hu. exists (u_tokens u). rewrite set_tokens_self. exact Hu. Qed.

Lemma users_kept_trans c1 c2 c3 : users_kept c1 c2 -> users_kept c2 c3 -> users_kept c1 c3.
Proof.
  intros H12 H23 u Hu. destruct (H12 u Hu) as (ts & H). destruct (H23 _ H) as (ts' & H').
  exists ts'. exact H'.
Qed.

Lemma users_kept_insert c d : users_kept c (insert_doc d c).
Proof. intros u Hu. exists (u_tokens u). rewrite set_tokens_self. apply List.in_or_app. left. exact Hu. Qed.

(** Replacing a stored document by itself with other sessions. *)
Lemma users_kept_replace c u ts :
  List.NoDup (List.map doc_id c) -> In u c -> users_kept c (replace_doc (set_tokens u ts) c).
Proof.
  intros Hnd Hu y Hy. destruct (N.eq_dec (u_id y) (u_id u)) as [E|E].
  - assert (y = u) as -> by (apply (NoDup_map_eq doc_id c); auto).
    exists ts. apply (in_replace_doc_new _ _ u Hu). reflexivity.
  - exists (u_tokens y). rewrite set_tokens_self. apply in_replace_doc_other; [exact Hy | exact E].
Qed.

#[export] Hint Resolve users_kept_refl users_kept_insert : api.

(** ** The iterations of the e-mail regular expression are enough

    Each step of [EmailRegex.star] consumes at least one character, so a
    string of length [n] needs at most [n] iterations; more fuel gives the
    same answer. *)

Section RegexFuel.
Import EmailRegex.

(** A matching step that consumes at least one character. *)
Definition consumes (f : string -> list string) : Prop :=
  forall x r, In r (f x) -> String.length r < String.length x.

Lemma word_plus_consumes : consumes word_plus.
Proof.
  intros x. induction x as [|c x IH]; intros r; simpl; [tauto|].
  destruct (is_word c); simpl; [|tauto]. intros [<-|Hr]; [lia|]. specialize (IH r Hr). lia.
Qed.

Lemma group_consumes : consumes group.
Proof.
  intros x r. unfold group. rewrite List.in_flat_map. intros (y & Hy & Hr).
  apply word_plus_consumes in Hr. destruct Hy as [<-|Hy]; [exact Hr|].
  destruct x as [|c x]; [contradiction|]. destruct (is_sep c); [|contradiction].
  destruct Hy as [<-|[]]. simpl. lia.
Qed.

Lemma tld_consumes : consumes tld.
Proof.
  intros x r. unfold tld.
  destruct x as [|c [|a [|b x]]]; simpl; try tauto.
  destruct (Ascii.eqb c "." && is_word a && is_word b); simpl; [|tauto].
  intros [<-|Hr]; [lia|]. destruct x as [|d x]; [contradiction|].
  destruct (is_word d); [|contradiction]. destruct Hr as [<-|[]]. simpl. lia.
Qed.

Lemma char_at_consumes ch : consumes (char_at ch).
Proof.
  intros [|c x] r; simpl; [tauto|]. destruct (Ascii.eqb c ch); simpl; [|tauto].
  intros [<-|[]]. lia.
Qed.

Lemma star_le f k s r : consumes f -> In r (star k f s) -> String.length r <= String.length s.
Proof.
  intros Hf. revert s. induction k as [|k IH]; intros s; simpl; [intros [<-|[]]; lia|].
  intros [<-|Hr]; [lia|]. apply List.in_flat_map in Hr as (y & Hy & Hr).
  specialize (IH y Hr). specialize (Hf s y Hy). lia.
Qed.

(** With a consuming step, [n] iterations are as good as any [k >= n] on
    a string of length at most [n]. *)
Lemma star_enough f : consumes f ->
  forall n s k, String.length s <= n -> n <= k -> star k f s = star n f s.
Proof.
  intros Hf n. induction n as [|n IH]; intros s k Hs Hk.
  - assert (E : f s = []).
    { destruct (f s) as [|r l] eqn:F; [reflexivity|]. exfalso.
      assert (In r (f s)) by (rewrite F; left; reflexivity). specialize (Hf s r H). lia. }
    destruct k; simpl; rewrite ?E; reflexivity.
  - destruct k as [|k]; [lia|]. simpl. f_equal. apply flat_map_ext_in.
    intros r Hr. specialize (Hf s r Hr). apply IH; lia.
Qed.

Lemma flat_map_star_enough f n k l :
  consumes f -> n <= k -> (forall r, In r l -> String.length r <= n) ->
  flat_map (star k f) l = flat_map (star n f) l.
Proof. intros Hf Hk Hl. apply flat_map_ext_in. intros r Hr. apply star_enough; auto. Qed.

(** Every string a stage of the match yields is a suffix no longer than
    the input of the stage. *)
Lemma flat_map_le (g : string -> list string) l n :
  (forall x r, In r (g x) -> String.length r <= String.length x) ->
  (forall x, In x l -> String.length x <= n) ->
  forall r, In r (flat_map g l) -> String.length r <= n.
Proof.
  intros Hg Hl r Hr. apply List.in_flat_map in Hr as (x & Hx & Hr).
  specialize (Hg x r Hr). specialize (Hl x Hx). lia.
Qed.

Lemma consumes_le f : consumes f -> forall x r, In r (f x) -> String.length r <= String.length x.
Proof. intros Hf x r Hr. specialize (Hf x r Hr). lia. Qed.

(** Termination of the bounded match: [emailRegex.test] runs every
    star of the regular expression at most [String.length s] times, and
    that is enough: any larger bound gives the same answer. *)
Theorem email_regex_fuel s k :
  String.length s <= k -> email_regex_with k s = email_regex_test s.
Proof.
  intros Hk. unfold email_regex_test, email_regex_with. set (n := String.length s) in *.
  assert (B0 : forall r, In r (word_plus s) -> String.length r <= n)
    by (intros r; apply consumes_le, word_plus_consumes).
  rewrite (flat_map_star_enough _ n k _ group_consumes Hk B0).
  assert (B1 : forall r, In r (flat_map word_plus (flat_map (char_at "@")
                 (flat_map (star n group) (word_plus s)))) -> String.length r <= n).
  { apply flat_map_le; [apply consumes_le, word_plus_consumes|].
    apply flat_map_le; [apply consumes_le, char_at_consumes|].
    apply flat_map_le; [intros x r; apply star_le, group_consumes | exact B0]. }
  rewrite (flat_map_star_enough _ n k _ group_consumes Hk B1).
  rewrite (flat_map_star_enough _ n k _ tld_consumes Hk); [reflexivity|].
  apply flat_map_le; [apply consumes_le, tld_consumes|].
  apply flat_map_le; [intros x r; apply star_le, group_consumes | exact B1].
Qed.
End RegexFuel.

(** ** The language of the e-mail regular expression *)

Section RegexLanguage.
Import EmailRegex.

Lemma str_app_nil_r (a : string) : (a ++ EmptyString)%string = a.
Proof. induction a as [|c a IH]; [reflexivity | exact (f_equal (String c) IH)]. Qed.

Lemma str_app_assoc (a b c : string) : (a ++ (b ++ c))%string = ((a ++ b) ++ c)%string.
Proof. induction a as [|x a IH]; [reflexivity | exact (f_equal (String x) IH)]. Qed.

Lemma all_word_app a b : all_word (a ++ b) = all_word a && all_word b.
Proof. induction a as [|c a IH]; simpl; [reflexivity | rewrite IH, Bool.andb_assoc; reflexivity]. Qed.

Lemma str_app_cons c (a b : string) : (String c a ++ b)%string = String c (a ++ b).
Proof. reflexivity. Qed.

Lemma str_length_app (a b : string) : String.length (a ++ b) = String.length a + String.length b.
Proof. induction a as [|c a IH]; [reflexivity | rewrite str_app_cons; exact (f_equal S IH)]. Qed.

(** A longer suffix of a string contains every shorter one. *)
Lemma append_eq_suffix a b c d :
  (a ++ b)%string = (c ++ d)%string -> String.length b <= String.length d ->
  exists m, d = (m ++ b)%string.
Proof.
  revert c. induction a as [|x a IH]; intros c E Hl.
  - destruct c as [|y c]; [exists EmptyString; exact (eq_sym E)|].
    change (b = String y (c ++ d)) in E. subst b.
    change (S (String.length (c ++ d)) <= String.length d) in Hl. rewrite str_length_app in Hl. lia.
  - destruct c as [|y c]; [exists (String x a); exact (eq_sym E)|].
    rewrite !str_app_cons in E. injection E as _ E. exact (IH c E Hl).
Qed.

Lemma word_plus_suffix x r : In r (word_plus x) -> exists pre, x = (pre ++ r)%string.
Proof.
  revert r. induction x as [|c x IH]; intros r; simpl; [tauto|].
  destruct (is_word c); [|simpl; tauto]. intros [<-|Hr]; [exists (String c EmptyString); reflexivity|].
  destruct (IH r Hr) as (pre & ->). exists (String c pre). reflexivity.
Qed.

Lemma group_suffix x r : In r (group x) -> exists pre, x = (pre ++ r)%string.
Proof.
  unfold group. rewrite List.in_flat_map. intros (y & Hy & Hr).
  destruct (word_plus_suffix _ _ Hr) as (pre & ->). destruct Hy as [E|Hy]; [exists pre; exact E|].
  destruct x as [|c x]; [contradiction|]. destruct (is_sep c); [|contradiction].
  destruct Hy as [E|[]]. exists (String c pre). rewrite E. reflexivity.
Qed.

Lemma char_at_suffix ch x r : In r (char_at ch x) -> exists pre, x = (pre ++ r)%string.
Proof.
  destruct x as [|c x]; simpl; [tauto|]. destruct (Ascii.eqb c ch); simpl; [|simpl; tauto].
  intros [<-|[]]. exists (String c EmptyString). reflexivity.
Qed.

Lemma star_suffix f n :
  (forall x r, In r (f x) -> exists pre, x = (pre ++ r)%string) ->
  forall x r, In r (star n f x) -> exists pre, x = (pre ++ r)%string.
Proof.
  intros Hf. induction n as [|n IH]; intros x r; simpl.
  - intros [<-|[]]. exists EmptyString. reflexivity.
  - intros [<-|H]; [exists EmptyString; reflexivity|]. apply List.in_flat_map in H as (y & Hy & H).
    destruct (Hf _ _ Hy) as (p1 & ->). destruct (IH _ _ H) as (p2 & ->).
    exists (p1 ++ p2)%string. apply str_app_assoc.
Qed.

Lemma flat_map_suffix s f l :
  (forall y, In y l -> exists pre, s = (pre ++ y)%string) ->
  (forall x r, In r (f x) -> exists pre, x = (pre ++ r)%string) ->
  forall r, In r (flat_map f l) -> exists pre, s = (pre ++ r)%string.
Proof.
  intros Hl Hf r Hr. apply List.in_flat_map in Hr as (y & Hy & Hr).
  destruct (Hl _ Hy) as (p1 & ->). destruct (Hf _ _ Hr) as (p2 & ->).
  exists (p1 ++ p2)%string. apply str_app_assoc.
Qed.

Lemma tld_spec x r :
  In r (tld x) -> exists w, x = String "." (w ++ r) /\ (2 <= String.length w <= 3)%nat /\ all_word w = true.
Proof.
  unfold tld. destruct x as [|c [|a [|b x]]]; simpl; try tauto.
  destruct (Ascii.eqb c ".") eqn:Ec; [|simpl; tauto].
  destruct (is_word a) eqn:Ea; [|simpl; tauto]. destruct (is_word b) eqn:Eb; [|simpl; tauto].
  apply Ascii.eqb_eq in Ec. subst c. simpl. intros [<-|Hr].
  - exists (String a (String b EmptyString)). simpl. rewrite Ea, Eb. split; [reflexivity | split; [lia | reflexivity]].
  - destruct x as [|d x]; [contradiction|]. destruct (is_word d) eqn:Ed; [|contradiction].
    destruct Hr as [<-|[]]. exists (String a (String b (String d EmptyString))). simpl.
    rewrite Ea, Eb, Ed. split; [reflexivity | split; [lia | reflexivity]].
Qed.

Lemma tld_end_app pre x : tld_end x -> tld_end (pre ++ x).
Proof. intros (p & w & -> & Hw & Ha). exists (pre ++ p)%string, w. rewrite str_app_assoc. auto. Qed.

Lemma star_tld_end n x : In EmptyString (star n tld x) -> x = EmptyString \/ tld_end x.
Proof.
  revert x. induction n as [|n IH]; intros x; simpl; [intros [<-|[]]; left; reflexivity|].
  intros [<-|H]; [left; reflexivity|]. right. apply List.in_flat_map in H as (y & Hy & H).
  destruct (tld_spec _ _ Hy) as (w & -> & Hw & Ha). destruct (IH y H) as [->|Hy'].
  - exists EmptyString, w. rewrite str_app_nil_r. auto.
  - apply (tld_end_app (String "." w)) in Hy'. exact Hy'.
Qed.

(** The last label of a matched address is two or three word
    characters. *)
Lemma email_regex_tld_end s : email_regex_test s = true -> tld_end s.
Proof.
  unfold email_regex_test, email_regex_with. set (n := String.length s). intros E.
  apply existsb_exists in E as (r0 & Hr0 & Er0). apply String.eqb_eq in Er0. subst r0.
  apply List.in_flat_map in Hr0 as (y & Hy & Hr0). apply List.in_flat_map in Hy as (x & Hx & Hy).
  assert (Hx' : In EmptyString (star (S n) tld x)) by (simpl; right; apply List.in_flat_map; eauto).
  assert (Hne : x <> EmptyString) by (intros ->; exact Hy). clear Hy Hr0.
  assert (Hs : exists pre, s = (pre ++ x)%string).
  { clear Hx' Hne. revert x Hx. apply flat_map_suffix; [|apply star_suffix, group_suffix].
    apply flat_map_suffix; [|apply word_plus_suffix].
    apply flat_map_suffix; [|apply char_at_suffix].
    apply flat_map_suffix; [|apply star_suffix, group_suffix].
    intros y' Hy'. apply word_plus_suffix, Hy'. }
  destruct Hs as (pre & ->). apply tld_end_app.
  destruct (star_tld_end (S n) x Hx') as [->|H]; [contradiction | exact H].
Qed.

(** An address whose last label has four or more word characters does
    not end as the regular expression requires. *)
Lemma long_label_not_tld_end p w :
  (4 <= String.length w)%nat -> all_word w = true -> ~ tld_end (p ++ String "." w).
Proof.
  intros Hl Hw (p' & w' & E & Hw' & _).
  destruct (append_eq_suffix p' (String "." w') p (String "." w)) as ([|c m] & Em);
    [exact (eq_sym E) | simpl; lia | injection Em as ->; lia |].
  injection Em as Ec ->. subst c. rewrite all_word_app in Hw. destruct (all_word m); simpl in Hw; discriminate Hw.
Qed.

Lemma long_label_rejected p w :
  (4 <= String.length w)%nat -> all_word w = true -> email_regex_test (p ++ String "." w) = false.
Proof.
  intros Hl Hw. destruct (email_regex_test _) eqn:E; [|reflexivity].
  exfalso. exact (long_label_not_tld_end p w Hl Hw (email_regex_tld_end _ E)).
Qed.

(** C36: the e-mail regular expression of the schema accepts only
    addresses that end with a dot and two or three word characters:
    [(\.\w{2,3})+$] leaves no room for a longer top-level domain. *)
Theorem email_regex_tld s :
  email_regex_test s = true ->
  exists p w, s = (p ++ String "." w)%string /\ (2 <= String.length w <= 3)%nat /\ all_word w = true.
Proof. exact (email_regex_tld_end s). Qed.
End RegexLanguage.

(** A document that passes the schema has an e-mail the regular
    expression accepts. *)
Lemma user_validate_email sel u :
  user_validate sel u = None -> EmailRegex.email_regex_test (u_email u) = true.
Proof.
  destruct (EmailRegex.email_regex_test (u_email u)) eqn:E; [reflexivity|].
  unfold user_validate. rewrite E.
  destruct (String.eqb (u_name u) EmptyString), (Nat.ltb 50 (String.length (u_name u))),
    (String.eqb (u_email u) EmptyString); discriminate.
Qed.

(** Schema validation fails only with a [ValidationError]. *)
Lemma user_validate_is_validation sel u e :
  user_validate sel u = Some e -> exists path msg, e = EValidation path msg.
Proof.
  unfold user_validate.
  repeat match goal with |- context [if ?c then _ else _] => destruct c end;
    intros H; injection H as <- || discriminate H; eauto.
Qed.

(** ** Witnesses *)

Lemma users_inv_ex : users_inv 2 [ex_stored_user].
Proof.
  split; [|split; repeat constructor; simpl; tauto].
  intros u [<-|[]]. split; [cbn; lia | split; [vm_compute; reflexivity | constructor]].
Qed.

Lemma generate_auth_token_ok_witness :
  users_inv 2 [ex_stored_user] /\ In ex_stored_user [ex_stored_user] /\
  let t := jwt_issue (u_id ex_stored_user) (u_email ex_stored_user)
             (role_str (u_role ex_stored_user)) 1700000000000 in
  let u' := set_tokens ex_stored_user (u_tokens ex_stored_user ++ [t]) in
  generate_auth_token 1700000000000 ex_stored_user [ex_stored_user] = inr (t, u', replace_doc u' [ex_stored_user])
  /\ users_inv 2 (replace_doc u' [ex_stored_user]).
Proof.
  assert (I : In ex_stored_user [ex_stored_user]) by (left; reflexivity).
  split; [exact users_inv_ex | split; [exact I|]].
  exact (generate_auth_token_ok _ _ _ 1700000000000 users_inv_ex I).
Defined.

Lemma email_regex_tld_witness :
  EmailRegex.email_regex_test "ann@ex.com" = true /\
  exists p w, "ann@ex.com" = (p ++ String "." w)%string /\ (2 <= String.length w <= 3)%nat
    /\ EmailRegex.all_word w = true.
Proof.
  assert (E : EmailRegex.email_regex_test "ann@ex.com" = true) by (vm_compute; reflexivity).
  split; [exact E | exact (email_regex_tld _ E)].
Defined.

