(* ===== verification/TaskModel.v ===== *)
(** * The Task model ([src/models/task.js])

    - [Task] is the document of [taskSchema] with its enums [Status] and
      [Priority]; [TaskFields] is the validated request body ([value] of
      the Joi schema of the routes) that [new Task] and
      [findOneAndUpdate] receive.
    - [new_task] is [new Task({ ...value, owner })]: the [trim] setters
      and the defaults ([pending], [medium], [Date.now]).
    - [task_validate] is the schema validation of a whole document,
      [fields_validate] the update validators ([runValidators: true]) on
      the paths an update sets; both share the per-path checks.
    - [task_save] is [task.save()]: validation, then the [pre('save')] hook
      that sets [updatedAt], then the write.
    - [apply_fields] is the [$set] of [findOneAndUpdate]: setters applied,
      no [pre('save')] hook. *)

From Stdlib Require Import ZArith NArith Lia String List Bool.
From stdpp Require Import base list.
From S2P Require Import Prelude JsString Store.

Local Open Scope string_scope.
Local Open Scope bool_scope.

Inductive Status := Pending | InProgress | Completed.
Inductive Priority := Low | Medium | High.

Definition status_str (s : Status) : string :=
  match s with Pending => "pending" | InProgress => "in-progress" | Completed => "completed" end.

Definition priority_str (p : Priority) : string :=
  match p with Low => "low" | Medium => "medium" | High => "high" end.

#[export] Instance Status_eq_dec : EqDecision Status.
Proof. solve_decision. Defined.
#[export] Instance Priority_eq_dec : EqDecision Priority.
Proof. solve_decision. Defined.

Record Task := mkTask {
  t_id : N;
  t_title : string;
  t_description : option string;
  t_status : Status;
  t_priority : Priority;
  t_dueDate : option Z;
  t_owner : N;
  t_createdAt : Z;
  t_updatedAt : Z
}.

#[export] Instance task_document : Document Task := t_id.

(** The validated body of a create or update request. *)
Record TaskFields := mkFields {
  f_title : string;
  f_description : option string;
  f_status : option Status;
  f_priority : option Priority;
  f_dueDate : option Z
}.

(** [new Task({ ...value, owner })] *)
Definition new_task (id owner : N) (now : Z) (f : TaskFields) : Task :=
  mkTask id (JsString.trim (f_title f)) (option_map JsString.trim (f_description f))
    (default Pending (f_status f)) (default Medium (f_priority f))
    (f_dueDate f) owner now now.

(** ** Validators of the schema paths *)

Definition check_title (title : string) : option DbError :=
  if String.eqb title EmptyString then Some (EValidation "title" "Task title is required")
  else if Nat.ltb 100 (String.length title) then
    Some (EValidation "title" "Title cannot exceed 100 characters")
  else None.

Definition check_description (d : option string) : option DbError :=
  match d with
  | Some s => if Nat.ltb 500 (String.length s) then
                Some (EValidation "description" "Description cannot exceed 500 characters")
              else None
  | None => None
  end.

(** [validator: value => !value || value > new Date()] *)
Definition check_dueDate (now : Z) (d : option Z) : option DbError :=
  match d with
  | Some v => if Z.ltb now v then None
              else Some (EValidation "dueDate" "Due date must be in the future")
  | None => None
  end.

Definition first_error (l : list (option DbError)) : option DbError :=
  List.fold_right (fun o acc => match o with Some e => Some e | None => acc end) None l.

(** Validation of a whole document, in schema order. *)
Definition task_validate (now : Z) (t : Task) : option DbError :=
  first_error [check_title (t_title t); check_description (t_description t);
               check_dueDate now (t_dueDate t)].

(** [pre('save')]: [this.updatedAt = new Date()] *)
Definition task_pre_save (now : Z) (t : Task) : Task :=
  mkTask (t_id t) (t_title t) (t_description t) (t_status t) (t_priority t)
    (t_dueDate t) (t_owner t) (t_createdAt t) now.

(** [task.save()] of a new document. *)
Definition task_save (now : Z) (t : Task) (c : list Task) : DbError + (Task * list Task) :=
  match task_validate now t with
  | Some e => inl e
  | None => let t' := task_pre_save now t in inr (t', insert_doc t' c)
  end.

(** ** [findOneAndUpdate(filter, value, { new: true, runValidators: true })] *)

(** The update validators check the paths of the update, after the
    setters. *)
Definition fields_validate (now : Z) (f : TaskFields) : option DbError :=
  first_error [check_title (JsString.trim (f_title f));
               check_description (option_map JsString.trim (f_description f));
               check_dueDate now (f_dueDate f)].

(** The [$set] of the given paths; [updatedAt] is not touched (no
    [pre('save')] for [findOneAndUpdate]). *)
Definition apply_fields (f : TaskFields) (t : Task) : Task :=
  mkTask (t_id t) (JsString.trim (f_title f))
    (match f_description f with Some d => Some (JsString.trim d) | None => t_description t end)
    (default (t_status t) (f_status f)) (default (t_priority t) (f_priority f))
    (match f_dueDate f with Some d => Some d | None => t_dueDate t end)
    (t_owner t) (t_createdAt t) (t_updatedAt t).

Lemma first_error_None l : first_error l = None <-> Forall (fun o => o = None) l.
Proof.
  induction l as [|o l IH]; simpl.
  - split; auto.
  - destruct o; split; intros Hl; try discriminate.
    + inversion Hl; discriminate.
    + constructor; [reflexivity | apply IH; exact Hl].
    + inversion Hl; subst. apply IH. assumption.
Qed.
