(* ===== verification/Joi.v ===== *)
(** * Request-body validation with Joi

    [src/routes/auth.js] lines 8-17 ([registerSchema], [loginSchema]) and
    [src/unnamed/part_001] lines 9-15 ([taskSchema]).  A JSON body is an
    association list of keys and JSON values ([Body]).  Joi validates the
    keys of the schema in order, then rejects keys the schema does not
    name; with [abortEarly] (the default) the first error is reported, and
    the handlers answer [400] with [error.details[0].message]
    ([joi_message]).  For a key, Joi first checks [valid(...)] lists, then
    the type ([string.base], [string.empty]), then the rules in the order
    they are chained.  Strings are not trimmed or converted.

    What Joi decides with its own tables ([string().email()], and the
    parsing of a date string) is the interface [JoiLib]; [joi_model] is
    an instance for the witnesses ([JoiEmail], decimal timestamps). *)

From Stdlib Require Import ZArith NArith Lia String Ascii List Bool DecimalString.
From stdpp Require Import base list.
From S2P Require Import Prelude JsString Store UserModel TaskModel.

Local Open Scope string_scope.
Local Open Scope bool_scope.

Inductive JVal := JStr (s : string) | JNum (z : Z) | JBool (b : bool) | JNull.

Definition Body := list (string * JVal).

Definition body_get (k : string) (b : Body) : option JVal :=
  option_map snd (List.find (fun kv => String.eqb (fst kv) k) b).

Inductive JoiError :=
  | JRequired (key : string)
  | JEmpty (key : string)
  | JNotString (key : string)
  | JMinLen (key : string) (n : nat)
  | JMaxLen (key : string) (n : nat)
  | JEmail (key : string)
  | JOnly (key : string) (valids : list string)
  | JDate (key : string)
  | JGreaterNow (key : string)
  | JUnknown (key : string).

Definition nat_str (n : nat) : string := NilEmpty.string_of_uint (Nat.to_uint n).

(** The double quote character. *)
Definition dq : string := String (Ascii.ascii_of_nat 34) EmptyString.

Definition quoted (k : string) : string := dq ++ k ++ dq.

Fixpoint join_comma (l : list string) : string :=
  match l with
  | [] => EmptyString
  | [x] => x
  | x :: l' => x ++ ", " ++ join_comma l'
  end.

(** [error.details[0].message] *)
Definition joi_message (e : JoiError) : string :=
  match e with
  | JRequired k => quoted k ++ " is required"
  | JEmpty k => quoted k ++ " is not allowed to be empty"
  | JNotString k => quoted k ++ " must be a string"
  | JMinLen k n => quoted k ++ " length must be at least " ++ nat_str n ++ " characters long"
  | JMaxLen k n => quoted k ++ " length must be less than or equal to " ++ nat_str n
                   ++ " characters long"
  | JEmail k => quoted k ++ " must be a valid email"
  | JOnly k vs => quoted k ++ " must be one of [" ++ join_comma vs ++ "]"
  | JDate k => quoted k ++ " must be a valid date"
  | JGreaterNow k => quoted k ++ " must be greater than " ++ quoted "now"
  | JUnknown k => quoted k ++ " is not allowed"
  end.

Class JoiLib := {
  joi_is_email : string -> bool;
  joi_parse_date : string -> option Z
}.

Section Schemas.
Context `{JoiLib}.

(** [Joi.string()] followed by [min]/[max] rules (given as options) and
    optionally [email()]; [None] input means the key is absent. *)
Definition joi_string (k : string) (required : bool) (min max : option nat)
    (email : bool) (v : option JVal) : JoiError + option string :=
  match v with
  | None => if required then inl (JRequired k) else inr None
  | Some (JStr s) =>
      if String.eqb s EmptyString then inl (JEmpty k)
      else if match min with Some n => Nat.ltb (String.length s) n | None => false end
      then inl (JMinLen k (default 0 min))
      else if match max with Some n => Nat.ltb n (String.length s) | None => false end
      then inl (JMaxLen k (default 0 max))
      else if email && negb (joi_is_email s) then inl (JEmail k)
      else inr (Some s)
  | Some _ => inl (JNotString k)
  end.

(** [Joi.string().valid(...valids)]: the allow list is checked before the
    type. *)
Definition joi_valid {A} (k : string) (valids : list (string * A)) (v : option JVal)
    : JoiError + option A :=
  match v with
  | None => inr None
  | Some (JStr s) =>
      match List.find (fun p => String.eqb (fst p) s) valids with
      | Some (_, a) => inr (Some a)
      | None => inl (JOnly k (List.map fst valids))
      end
  | Some _ => inl (JOnly k (List.map fst valids))
  end.

(** [Joi.date().greater('now')] *)
Definition joi_date_future (k : string) (now : Z) (v : option JVal) : JoiError + option Z :=
  match v with
  | None => inr None
  | Some jv =>
      let d := match jv with
               | JNum z => Some z
               | JStr s => joi_parse_date s
               | _ => None
               end in
      match d with
      | None => inl (JDate k)
      | Some z => if Z.ltb now z then inr (Some z) else inl (JGreaterNow k)
      end
  end.

Definition unknown_keys (known : list string) (b : Body) : option JoiError :=
  option_map (fun kv => JUnknown (fst kv))
    (List.find (fun kv => negb (existsb (String.eqb (fst kv)) known)) b).

Record RegisterInput := mkRegister { ri_name : string; ri_email : string; ri_password : string }.
Record LoginInput := mkLogin { li_email : string; li_password : string }.

Definition or_else {E A} (o : option A) (e : E) : E + A :=
  match o with Some x => inr x | None => inl e end.

(** [registerSchema.validate(req.body)] *)
Definition validate_register (b : Body) : JoiError + RegisterInput :=
  match joi_string "name" true (Some 2) (Some 50) false (body_get "name" b) with
  | inl e => inl e
  | inr name =>
  match joi_string "email" true None None true (body_get "email" b) with
  | inl e => inl e
  | inr email =>
  match joi_string "password" true (Some 6) None false (body_get "password" b) with
  | inl e => inl e
  | inr password =>
  match unknown_keys ["name"; "email"; "password"] b with
  | Some e => inl e
  | None =>
      match name, email, password with
      | Some n, Some e, Some p => inr (mkRegister n e p)
      | _, _, _ => inl (JRequired "name")
      end
  end end end end.

(** [loginSchema.validate(req.body)] *)
Definition validate_login (b : Body) : JoiError + LoginInput :=
  match joi_string "email" true None None true (body_get "email" b) with
  | inl e => inl e
  | inr email =>
  match joi_string "password" true None None false (body_get "password" b) with
  | inl e => inl e
  | inr password =>
  match unknown_keys ["email"; "password"] b with
  | Some e => inl e
  | None =>
      match email, password with
      | Some e, Some p => inr (mkLogin e p)
      | _, _ => inl (JRequired "email")
      end
  end end end.

Definition status_valids : list (string * Status) :=
  [("pending", Pending); ("in-progress", InProgress); ("completed", Completed)].
Definition priority_valids : list (string * Priority) :=
  [("low", Low); ("medium", Medium); ("high", High)].

(** [taskSchema.validate(req.body)] at time [now] *)
Definition validate_task (now : Z) (b : Body) : JoiError + TaskFields :=
  match joi_string "title" true (Some 1) (Some 100) false (body_get "title" b) with
  | inl e => inl e
  | inr title =>
  match joi_string "description" false None (Some 500) false (body_get "description" b) with
  | inl e => inl e
  | inr description =>
  match joi_valid "status" status_valids (body_get "status" b) with
  | inl e => inl e
  | inr status =>
  match joi_valid "priority" priority_valids (body_get "priority" b) with
  | inl e => inl e
  | inr priority =>
  match joi_date_future "dueDate" now (body_get "dueDate" b) with
  | inl e => inl e
  | inr due =>
  match unknown_keys ["title"; "description"; "status"; "priority"; "dueDate"] b with
  | Some e => inl e
  | None =>
      match title with
      | Some t => inr (mkFields t description status priority due)
      | None => inl (JRequired "title")
      end
  end end end end end end.
End Schemas.

(** ** A concrete instance

    [JoiEmail.joi_email] stands for [string().email()] with Joi's
    defaults: one [@], a local part of dot-separated non-empty atoms of
    RFC 5322 [atext], a domain of at least two dot-separated labels of
    letters, digits and inner hyphens (at most 63 characters), at most
    254 characters in all, and a top-level domain of at least two letters
    (in place of the IANA list Joi consults). *)

Module JoiEmail.

Fixpoint split_on (c : ascii) (s : string) : list string :=
  match s with
  | EmptyString => [EmptyString]
  | String x s' =>
      if Ascii.eqb x c then EmptyString :: split_on c s'
      else match split_on c s' with
           | w :: ws => String x w :: ws
           | [] => [String x EmptyString]
           end
  end.

Definition all_chars (p : ascii -> bool) (s : string) : bool := forallb p (list_ascii_of_string s).

Definition in_range (lo hi : nat) (c : ascii) : bool :=
  Nat.leb lo (nat_of_ascii c) && Nat.leb (nat_of_ascii c) hi.

Definition is_alpha (c : ascii) : bool := in_range 65 90 c || in_range 97 122 c.
Definition is_alnum (c : ascii) : bool := is_alpha c || in_range 48 57 c.

(** [atext] of RFC 5322: letters, digits and [!#$%&'*+-/=?^_`{|}~]. *)
Definition is_atext (c : ascii) : bool :=
  is_alnum c || existsb (Ascii.eqb c) (list_ascii_of_string "!#$%&'*+-/=?^_`{|}~").

Definition nonempty (w : string) : bool := negb (String.eqb w EmptyString).

Definition starts_with (c : ascii) (w : string) : bool :=
  match w with String c' _ => Ascii.eqb c' c | EmptyString => false end.

Definition label_ok (w : string) : bool :=
  nonempty w && Nat.leb (String.length w) 63
  && all_chars (fun c => is_alnum c || Ascii.eqb c "-") w
  && negb (starts_with "-" w) && negb (starts_with "-" (JsString.str_rev w)).

Definition tld_ok (w : string) : bool := Nat.leb 2 (String.length w) && all_chars is_alpha w.

Definition joi_email (s : string) : bool :=
  Nat.leb (String.length s) 254 &&
  match split_on "@" s with
  | [l; d] =>
      forallb (fun w => nonempty w && all_chars is_atext w) (split_on "." l)
      && (let ls := split_on "." d in
          Nat.leb 2 (List.length ls) && forallb label_ok ls && tld_ok (List.last ls EmptyString))
  | _ => false
  end.

End JoiEmail.

(** Date strings are read as decimal millisecond timestamps. *)
#[export] Instance joi_model : JoiLib := {|
  joi_is_email := JoiEmail.joi_email;
  joi_parse_date := fun s => JsString.parse_int s
|}.

(** ** Properties of the schemas *)

Local Open Scope Z_scope.

Section SchemaProps.
Context `{JoiLib}.

(** C12: a due date that is not in the future is rejected by the schema
    whatever the other fields. *)
Lemma past_due_date_rejected now b d :
  body_get "dueDate" b = Some (JNum d) -> d <= now -> exists e, validate_task now b = inl e.
Proof.
  intros Hd Hle. unfold validate_task. rewrite Hd. unfold joi_date_future.
  destruct (Z.ltb_spec now d); [lia|].
  repeat match goal with
         | |- context [match ?m with inl _ => _ | inr _ => _ end] => destruct m
         | |- context [match ?m with Some _ => _ | None => _ end] => destruct m
         end; eauto.
Qed.
End SchemaProps.

Lemma past_due_date_rejected_witness :
  body_get "dueDate" [("title", JStr "x"); ("dueDate", JNum (1700000000000 - 1))] = Some (JNum (1700000000000 - 1))
  /\ 1700000000000 - 1 <= 1700000000000
  /\ exists e, validate_task 1700000000000 [("title", JStr "x"); ("dueDate", JNum (1700000000000 - 1))] = inl e.
Proof.
  assert (G : body_get "dueDate" [("title", JStr "x"); ("dueDate", JNum (1700000000000 - 1))]
              = Some (JNum (1700000000000 - 1))) by reflexivity.
  assert (L : 1700000000000 - 1 <= 1700000000000) by lia.
  split; [exact G | split; [exact L | exact (past_due_date_rejected _ _ _ G L)]].
Defined.

