(* ===== verification/Db.v ===== *)
(** * The database and the responses

    [Db] is the state the handlers share: the [users] and [tasks]
    collections, the source of fresh [ObjectId]s (Mongoose assigns [_id]
    when a document is constructed), the clock read by [Date.now] /
    [new Date()] (milliseconds; one reading per request), and the source
    of bcrypt salts ([bcrypt.genSalt]).  [M] is the request monad over it
    with the errors of [Store].  [Response] is the status and JSON body a
    handler sends; [RespBody] has one constructor per body shape of the
    code. *)

From Stdlib Require Import ZArith NArith Lia String List.
From stdpp Require Import base list.
From S2P Require Import Prelude Crypto Store UserModel TaskModel.

Local Open Scope string_scope.
Local Open Scope rm_scope.

Record Db := mkDb {
  db_users : list User;
  db_tasks : list Task;
  db_next_oid : N;
  db_clock : Z;
  db_salt : N
}.

Definition M (A : Type) : Type := RM Db DbError A.

Definition with_users (us : list User) (db : Db) : Db :=
  mkDb us (db_tasks db) (db_next_oid db) (db_clock db) (db_salt db).
Definition with_tasks (ts : list Task) (db : Db) : Db :=
  mkDb (db_users db) ts (db_next_oid db) (db_clock db) (db_salt db).

(** A fresh [_id] ([new Model(...)]). *)
Definition fresh_oid : M N :=
  fun db => (inr (db_next_oid db),
             mkDb (db_users db) (db_tasks db) (N.succ (db_next_oid db)) (db_clock db) (db_salt db)).

(** [bcrypt.genSalt(12)] *)
Definition fresh_salt : M N :=
  fun db => (inr (db_salt db),
             mkDb (db_users db) (db_tasks db) (db_next_oid db) (db_clock db) (N.succ (db_salt db))).

(** [Date.now()] *)
Definition clock : M Z := fun db => (inr (db_clock db), db).

Section Lifted.
Context `{JwtScheme} `{PasswordHasher}.

(** [await user.save()] against the [users] collection. *)
Definition save_user (is_new : bool) (pw_salt : option N) (pw_selected : bool) (u : User)
    : M User :=
  fun db => match user_save is_new pw_salt pw_selected u (db_users db) with
            | inl e => (inl e, db)
            | inr (u', us) => (inr u', with_users us db)
            end.

(** [await user.generateAuthToken()] *)
Definition gen_token (now : Z) (u : User) : M (string * User) :=
  fun db => match generate_auth_token now u (db_users db) with
            | inl e => (inl e, db)
            | inr (t, u', us) => (inr (t, u'), with_users us db)
            end.
End Lifted.

(** ** Responses *)

Record Pagination := mkPagination {
  pg_page : Z;
  pg_limit : Z;
  pg_total : Z;
  pg_pages : option Z   (** [None]: [Math.ceil] gave [NaN] or [Infinity], sent as [null] *)
}.

Record Overview := mkOverview {
  ov_total : Z;
  ov_pending : Z;
  ov_in_progress : Z;
  ov_completed : Z
}.

Inductive RespBody :=
  | BError (msg : string)
  | BAuth (msg : string) (u : UserView) (token : string)
  | BUser (u : UserView)
  | BMessage (msg : string)
  | BTasks (ts : list Task) (pg : Pagination)
  | BTask (msg : option string) (t : Task)
  | BStats (ov : Overview)
  | BHealth (status : string) (timestamp : Z)
  | BRoot (msg : string) (timestamp : Z).

Record Response := mkResp { r_status : Z; r_body : RespBody }.

Definition respond (status : Z) (b : RespBody) : M Response := rm_ret (mkResp status b).

(** [m] is atomic on failure from [db]: when it throws, neither
    collection has been written (the counters of [_id]s and salts may
    have moved). *)
Definition throw_keeps {A} (m : M A) (db : Db) : Prop :=
  forall e db', m db = (inl e, db') -> db_users db' = db_users db /\ db_tasks db' = db_tasks db.

(** A computation unfolded to its final [respond] or [rm_throw]: every
    throwing branch returns a database with the same collections. *)
Ltac throw_cases :=
  repeat (match goal with
          | |- context [match ?x with _ => _ end] =>
              lazymatch type of x with
              | ((_ + _) * Db)%type => fail
              | _ => destruct x; cbv beta iota
              end
          end);
  intros ? ? E; first [discriminate E | injection E as _ <-; split; reflexivity].
