(* ===== verification/AuthMiddleware.v ===== *)
(** * The access guard ([src/middleware/auth.js])

    [extract_token] is [req.header('Authorization')?.replace('Bearer ', '')]
    with the [!token] test; [auth] is the whole middleware: no token gives
    [401 "No token, authorization denied"]; a token that [jwt.verify]
    rejects (bad signature, malformed, expired) and a token that is not in
    the [tokens] array of the user it names both give
    [401 "Token is not valid"] (the [catch] and the [!user] branch);
    otherwise the user and the token are handed to the route ([next()]).
    The middleware reads the database and writes nothing, so it is a
    function of the database. *)

From Stdlib Require Import ZArith NArith String List Bool.
From stdpp Require Import base list.
From S2P Require Import Prelude JsString Crypto Store UserModel Db.

Local Open Scope string_scope.
Local Open Scope bool_scope.

Definition bearer_prefix : string := "Bearer ".

Definition extract_token (hdr : option string) : option string :=
  match hdr with
  | Some h =>
      let t := JsString.replace_first bearer_prefix EmptyString h in
      if String.eqb t EmptyString then None else Some t
  | None => None
  end.

Inductive Guard :=
  | Authed (u : User) (token : string)
  | Rejected (r : Response).

(** [User.findOne({ _id: decoded._id, 'tokens.token': token })] *)
Definition session_owner (id : N) (t : string) (us : list User) : option User :=
  find_one (fun u => N.eqb (u_id u) id && existsb (String.eqb t) (u_tokens u)) us.

Section Guard.
Context `{JwtScheme}.

Definition auth (db : Db) (hdr : option string) : Guard :=
  match extract_token hdr with
  | None => Rejected (mkResp 401 (BError "No token, authorization denied"))
  | Some t =>
      match jwt_verify t (db_clock db) with
      | None => Rejected (mkResp 401 (BError "Token is not valid"))
      | Some c =>
          match session_owner (cl_id c) t (db_users db) with
          | Some u => Authed u t
          | None => Rejected (mkResp 401 (BError "Token is not valid"))
          end
      end
  end.
End Guard.

(** ** Example inputs: a database holding one user with one session *)

Definition ex_clock : Z := 1700000000000.
Definition ex_token : string := jwt_issue 1 "ann@ex.com" "user" ex_clock.
Definition ex_user : User :=
  mkUser 1 "Ann" "ann@ex.com" (bc_hash "secret1" 7) RoleUser ex_clock [ex_token].
Definition ex_db : Db := mkDb [ex_user] [] 2 ex_clock 8.

(** ** What the guard admits *)

Section GuardProps.
Context `{JwtScheme}.

(** The facts the guard establishes when it admits a request. *)
Lemma auth_Authed_inv_spec db hdr u t :
  auth db hdr = Authed u t ->
  extract_token hdr = Some t /\ In u (db_users db) /\ In t (u_tokens u) /\
  exists c, jwt_verify t (db_clock db) = Some c /\ cl_id c = u_id u.
Proof.
  unfold auth. destruct (extract_token hdr) as [t'|]; [|discriminate].
  destruct (jwt_verify t' (db_clock db)) as [c|] eqn:V; [|discriminate].
  destruct (session_owner (cl_id c) t' (db_users db)) as [u'|] eqn:S; [|discriminate].
  intros [= <- <-]. apply find_one_Some in S as [Hin Hp].
  apply andb_true_iff in Hp as [Hi Ht]. apply N.eqb_eq in Hi. apply existsb_eqb_In in Ht.
  split; [reflexivity|]. split; [exact Hin|]. split; [exact Ht|]. exists c. auto.
Qed.

(** C8: the guard admits only a token extracted from the header that
    [jwt.verify] accepts at the current time, that names a stored user by
    its [_id], and that is listed in that user's [tokens]. *)
Lemma auth_Authed_inv db hdr u t :
  auth db hdr = Authed u t ->
  extract_token hdr = Some t /\ In u (db_users db) /\ In t (u_tokens u) /\
  exists c, jwt_verify t (db_clock db) = Some c /\ cl_id c = u_id u.
Proof. exact (auth_Authed_inv_spec db hdr u t). Qed.

Lemma auth_accepts db hdr t c u :
  extract_token hdr = Some t -> jwt_verify t (db_clock db) = Some c ->
  session_owner (cl_id c) t (db_users db) = Some u -> auth db hdr = Authed u t.
Proof. intros E V S. unfold auth. rewrite E, V, S. reflexivity. Qed.

Lemma auth_rejects_owner db hdr t c :
  extract_token hdr = Some t -> jwt_verify t (db_clock db) = Some c ->
  session_owner (cl_id c) t (db_users db) = None ->
  auth db hdr = Rejected (mkResp 401 (BError "Token is not valid")).
Proof. intros E V S. unfold auth. rewrite E, V, S. reflexivity. Qed.
End GuardProps.

Lemma extract_token_bearer t :
  t <> EmptyString -> extract_token (Some (bearer_prefix ++ t)) = Some t.
Proof.
  intros Ht. unfold extract_token. rewrite JsString.replace_first_prefix.
  destruct (String.eqb_spec t EmptyString); [contradiction | reflexivity].
Qed.

Lemma session_owner_unique id t us u :
  List.NoDup (List.map doc_id us) -> In u us -> u_id u = id -> In t (u_tokens u) ->
  session_owner id t us = Some u.
Proof.
  intros Hnd Hu Hid Ht. unfold session_owner. apply find_one_unique; [exact Hu | |].
  - apply andb_true_iff. split; [apply N.eqb_eq; exact Hid | apply existsb_eqb_In; exact Ht].
  - intros y Hy Hp. apply andb_true_iff in Hp as [Hi _]. apply N.eqb_eq in Hi.
    apply (NoDup_map_eq doc_id us y u Hnd Hy Hu). change (u_id y = u_id u). congruence.
Qed.

Lemma session_owner_None id t us :
  (forall u, In u us -> u_id u = id -> ~ In t (u_tokens u)) -> session_owner id t us = None.
Proof.
  intros H. unfold session_owner. apply find_one_none_intro. intros u Hu.
  destruct (N.eqb_spec (u_id u) id) as [E|]; [|reflexivity]. simpl.
  apply not_true_iff_false. rewrite existsb_eqb_In. exact (H u Hu E).
Qed.

Lemma auth_Authed_inv_witness :
  auth ex_db (Some (bearer_prefix ++ ex_token)) = Authed ex_user ex_token /\
  (extract_token (Some (bearer_prefix ++ ex_token)) = Some ex_token /\ In ex_user (db_users ex_db)
   /\ In ex_token (u_tokens ex_user)
   /\ exists c, jwt_verify ex_token (db_clock ex_db) = Some c /\ cl_id c = u_id ex_user).
Proof.
  assert (A : auth ex_db (Some (bearer_prefix ++ ex_token)) = Authed ex_user ex_token)
    by (vm_compute; reflexivity).
  split; [exact A | exact (auth_Authed_inv _ _ _ _ A)].
Defined.

(** The [Bearer ] prefix is not required: [replace] leaves a bare
    token unchanged, and the guard admits it (the header format of the
    specification is [Bearer <token>]). *)
Example header_without_bearer_accepted :
  auth ex_db (Some ex_token) = Authed ex_user ex_token.
Proof. vm_compute. reflexivity. Qed.

