(* ===== verification/AuthRoutes.v ===== *)
(** * The authentication routes ([src/routes/auth.js])

    One definition per handler, each the body of its [try] block in the
    request monad (a thrown error is forwarded to [next(error)] by the
    dispatcher of [Server]):
    - [register]: Joi, [User.findOne({ email })] (the [lowercase] setter
      applies to the query), [new User] and [save()] (which hashes the
      password), [generateAuthToken()], [201];
    - [login]: Joi, [findOne({ email }).select('+password')],
      [comparePassword], [generateAuthToken()], [200]; an unknown e-mail
      and a wrong password give the same [401];
    - [me]: the authenticated user's outward representation;
    - [logout]: the presented token is filtered out of [tokens] and the
      user saved (the user was loaded by the guard without its password). *)

From Stdlib Require Import ZArith NArith String Ascii List Bool.
From stdpp Require Import base list.
From S2P Require Import Prelude JsString Crypto Store UserModel Joi Db AuthMiddleware.

Local Open Scope string_scope.
Local Open Scope bool_scope.
Local Open Scope rm_scope.
Local Open Scope Z_scope.

(** [User.findOne({ email })] *)
Definition find_by_email (email : string) (us : list User) : option User :=
  find_one (fun u => String.eqb (u_email u) (JsString.to_lower email)) us.

(** [req.user.tokens.filter(tokenObj => tokenObj.token !== req.token)] *)
Definition revoke (t : string) (ts : list string) : list string :=
  List.filter (fun tokenObj => negb (String.eqb tokenObj t)) ts.

Section AuthRoutes.
Context `{JwtScheme} `{PasswordHasher} `{JoiLib}.

Definition register (b : Body) : M Response :=
  match validate_register b with
  | inl e => respond 400 (BError (joi_message e))
  | inr ri =>
      db <- rm_get ;;
      match find_by_email (ri_email ri) (db_users db) with
      | Some _ => respond 400 (BError "User already exists with this email")
      | None =>
          id <- fresh_oid ;;
          now <- clock ;;
          salt <- fresh_salt ;;
          u1 <- save_user true (Some salt) true
                  (new_user id now (ri_name ri) (ri_email ri) (ri_password ri)) ;;
          '(token, u2) <- gen_token now u1 ;;
          respond 201 (BAuth "User registered successfully" (user_to_json u2) token)
      end
  end.

Definition invalid_credentials : M Response :=
  respond 401 (BError "Invalid credentials").

Definition login (b : Body) : M Response :=
  match validate_login b with
  | inl e => respond 400 (BError (joi_message e))
  | inr li =>
      db <- rm_get ;;
      match find_by_email (li_email li) (db_users db) with
      | None => invalid_credentials
      | Some u =>
          if compare_password u (li_password li) then
            now <- clock ;;
            '(token, u2) <- gen_token now u ;;
            respond 200 (BAuth "Login successful" (user_to_json u2) token)
          else invalid_credentials
      end
  end.

Definition me (u : User) : M Response := respond 200 (BUser (user_to_json u)).

Definition logout (u : User) (token : string) : M Response :=
  _ <- save_user false None false
         (set_tokens u (revoke token (u_tokens u))) ;;
  respond 200 (BMessage "Logged out successfully").
End AuthRoutes.

(** ** Example inputs

    Ann registers on an empty database; [ex_db1] is the database after
    that request, holding her with the session [ex_token]. *)

Definition ex_db0 : Db := mkDb [] [] 1 ex_clock 7.
Definition ann_body : Body :=
  [("name", JStr "Ann"); ("email", JStr "Ann@Ex.com"); ("password", JStr "secret1")].
Definition ann_ri : RegisterInput := mkRegister "Ann" "Ann@Ex.com" "secret1".
Definition ex_db1 : Db := snd (register ann_body ex_db0).
Definition ann1 : User := List.hd ex_user (db_users ex_db1).
Definition ann_login : Body := [("email", JStr "ann@ex.com"); ("password", JStr "secret1")].
Definition ann_wrong : Body := [("email", JStr "ann@ex.com"); ("password", JStr "secret2")].

(** ** Sessions *)

Section Sessions.
Context `{JwtScheme} `{PasswordHasher} `{JoiLib}.

(** The invariant of the users collection in a database. *)
Definition db_users_inv (db : Db) : Prop := users_inv (db_next_oid db) (db_users db).

(** A freshly issued token is accepted while it is not expired. *)
Lemma auth_issued db u now :
  users_inv (db_next_oid db) (db_users db) -> In u (db_users db) ->
  db_clock db / 1000 < now / 1000 + jwt_lifetime ->
  let t := jwt_issue (u_id u) (u_email u) (role_str (u_role u)) now in
  In t (u_tokens u) -> auth db (Some (bearer_prefix ++ t)) = Authed u t.
Proof.
  intros (_ & Hnd & _) Hu Hexp t Ht. unfold auth.
  rewrite extract_token_bearer by apply jwt_sign_nonempty.
  subst t. rewrite jwt_verify_issue by exact Hexp. cbn [cl_id].
  rewrite (session_owner_unique _ _ _ u Hnd Hu eq_refl Ht). reflexivity.
Qed.

Lemma email_taken_fresh e c u :
  find_by_email e c = None -> u_email u = JsString.to_lower e -> email_taken u c = false.
Proof.
  intros Hf Hu. unfold email_taken. apply not_true_iff_false. intros E.
  apply existsb_exists in E as (x & Hx & Ex). apply andb_true_iff in Ex as [Ex _].
  pose proof (find_one_None _ _ Hf x Hx) as Hn. simpl in Hn.
  rewrite Hu in Ex. congruence.
Qed.

(** C2: [register] with a valid body, a new e-mail and a document that passes
    the schema: [201] with a token that the guard accepts in the
    resulting database, the new user holding the next [_id]. *)
Lemma register_creates_session db b ri :
  db_users_inv db -> validate_register b = inr ri ->
  find_by_email (ri_email ri) (db_users db) = None ->
  user_validate true (new_user (db_next_oid db) (db_clock db)
                        (ri_name ri) (ri_email ri) (ri_password ri)) = None ->
  exists u t db',
    register b db = (inr (mkResp 201 (BAuth "User registered successfully" (user_to_json u) t)), db')
    /\ auth db' (Some (bearer_prefix ++ t)) = Authed u t
    /\ db_users_inv db' /\ u_id u = db_next_oid db
    /\ (forall q, compare_password u q = String.eqb (bcrypt_key q) (bcrypt_key (ri_password ri))).
Proof.
  intros Hinv Hv Hf Hval. unfold register at 1. rewrite Hv.
  cbv beta iota zeta delta [rm_bind rm_get fresh_oid clock fresh_salt save_user gen_token
                             respond rm_ret].
  rewrite Hf. cbn [db_users db_clock db_next_oid db_salt].
  set (u0 := new_user _ _ _ _ _).
  set (u1 := pre_save_hash (Some (db_salt db)) u0).
  rewrite (user_save_new_ok (db_users db) u0 (db_salt db) Hval)
    by (apply (email_taken_fresh (ri_email ri)); [exact Hf | reflexivity]).
  destruct (user_save_new_inv (db_next_oid db) (db_users db) u0 (db_salt db) u1
              (insert_doc u1 (db_users db)) Hinv eq_refl eq_refl
              (user_save_new_ok _ _ _ Hval
                 (email_taken_fresh _ _ u1 Hf eq_refl))) as (Hinv1 & _ & Hid1).
  assert (Hu1 : In u1 (insert_doc u1 (db_users db)))
    by (apply List.in_or_app; right; left; reflexivity).
  destruct (generate_auth_token_ok_spec _ _ u1 (db_clock db) Hinv1 Hu1) as [G Hinv2].
  cbn [with_users db_users db_clock]. fold u1. rewrite G. cbn beta iota.
  set (t := jwt_issue _ _ _ _). set (u2 := set_tokens u1 _).
  exists u2, t. eexists. split; [reflexivity|].
  split; [|split; [exact Hinv2 | split; [change (u_id u1 = db_next_oid db); exact Hid1|]]].
  2: { intros q. apply bc_compare_hash. }
  apply (auth_issued _ u2 (db_clock db)); cbn [db_users db_clock db_next_oid with_users].
  - exact Hinv2.
  - apply (in_replace_doc_new u2 _ u1 Hu1). reflexivity.
  - pose proof jwt_lifetime. unfold jwt_lifetime. lia.
  - simpl. left. reflexivity.
Qed.
Lemma in_revoke t s ts : In s (revoke t ts) <-> In s ts /\ s <> t.
Proof.
  unfold revoke. rewrite List.filter_In, negb_true_iff.
  destruct (String.eqb_spec s t); intuition congruence.
Qed.

(** Under the invariant [logout] never throws: the presented token is
    removed from the user's document. *)
Lemma logout_step db u t :
  db_users_inv db -> In u (db_users db) ->
  logout u t db = (inr (mkResp 200 (BMessage "Logged out successfully")),
                   with_users (replace_doc (set_tokens u (revoke t (u_tokens u))) (db_users db)) db).
Proof.
  intros Hinv Hu. unfold logout, save_user, rm_bind, respond, rm_ret.
  rewrite (user_save_replace_ok _ _ u (set_tokens u (revoke t (u_tokens u))) false Hinv Hu
             eq_refl eq_refl); [reflexivity|].
  rewrite user_validate_set_tokens. apply user_validate_weaken. apply (proj1 Hinv u Hu).
Qed.

(** The database a logout writes satisfies the invariant: the revoked
    list is a sub-list of tokens that all name the user. *)
Lemma logout_inv db u t :
  db_users_inv db -> In u (db_users db) ->
  db_users_inv (with_users (replace_doc (set_tokens u (revoke t (u_tokens u))) (db_users db)) db).
Proof.
  intros Hinv Hu. set (u' := set_tokens u (revoke t (u_tokens u))).
  assert (Hv' : user_validate true u' = None)
    by (unfold u'; rewrite user_validate_set_tokens; apply (proj1 Hinv u Hu)).
  assert (Ht' : Forall (token_of (u_id u')) (u_tokens u')).
  { apply List.Forall_forall. intros s Hs. apply in_revoke in Hs as [Hs _].
    pose proof (proj2 (proj2 (proj1 Hinv u Hu))) as Hall. rewrite List.Forall_forall in Hall.
    exact (Hall s Hs). }
  assert (S : user_save false None false u' (db_users db) = inr (u', replace_doc u' (db_users db)))
    by (apply (user_save_replace_ok (db_next_oid db) _ u); auto; apply user_validate_weaken; exact Hv').
  destruct (user_save_replace_inv _ _ u u' false u' _ Hinv Hu eq_refl Hv' Ht' S)
    as (Hinv' & _ & _).
  exact Hinv'.
Qed.

Lemma logout_revokes_spec db hdr u t :
  db_users_inv db -> auth db hdr = Authed u t ->
  exists db',
    logout u t db = (inr (mkResp 200 (BMessage "Logged out successfully")), db')
    /\ auth db' hdr = Rejected (mkResp 401 (BError "Token is not valid"))
    /\ db_users_inv db'
    /\ (forall hdr2 u2 t2, auth db hdr2 = Authed u2 t2 -> t2 <> t ->
         exists u2', auth db' hdr2 = Authed u2' t2 /\ u_id u2' = u_id u2).
Proof.
  intros Hinv Ha. pose proof (auth_Authed_inv_spec _ _ _ _ Ha) as (Ext & Hu & Ht & c & V & Hc).
  pose proof (logout_inv db u t Hinv Hu) as Hinv'.
  set (u' := set_tokens u (revoke t (u_tokens u))) in *.
  exists (with_users (replace_doc u' (db_users db)) db).
  split; [apply logout_step; assumption|]. split; [|split; [exact Hinv'|]].
  - apply (auth_rejects_owner (with_users (replace_doc u' (db_users db)) db) hdr t c Ext V).
    apply session_owner_None.
    intros x Hx Ex. apply in_replace_doc in Hx as [->|[_ Hne]].
    + intros Hin. apply in_revoke in Hin as [_ []]. reflexivity.
    + exfalso. apply Hne. change (u_id x = u_id u). congruence.
  - intros hdr2 u2 t2 Ha2 Hne. pose proof (auth_Authed_inv_spec _ _ _ _ Ha2) as (Ext2 & Hu2 & Ht2 & c2 & V2 & Hc2).
    destruct (N.eq_dec (u_id u2) (u_id u)) as [E|E].
    + assert (u2 = u) as -> by (apply (NoDup_map_eq doc_id (db_users db)); auto; apply (proj2 Hinv)).
      exists u'. split; [|reflexivity].
      apply (auth_accepts (with_users (replace_doc u' (db_users db)) db) _ t2 c2 _ Ext2 V2).
      apply session_owner_unique.
      * cbn. rewrite replace_doc_ids. apply (proj2 Hinv).
      * apply (in_replace_doc_new u' _ u Hu). reflexivity.
      * cbn. congruence.
      * apply in_revoke. auto.
    + exists u2. split; [|reflexivity].
      apply (auth_accepts (with_users (replace_doc u' (db_users db)) db) _ t2 c2 _ Ext2 V2).
      apply session_owner_unique; auto.
      * cbn. rewrite replace_doc_ids. apply (proj2 Hinv).
      * apply in_replace_doc_other; [exact Hu2|]. exact E.
Qed.
(** C1: logout revokes the presented token at once, keeps every other session
    of every user, and keeps the invariant. *)
Lemma logout_revokes db hdr u t :
  db_users_inv db -> auth db hdr = Authed u t ->
  exists db',
    logout u t db = (inr (mkResp 200 (BMessage "Logged out successfully")), db')
    /\ auth db' hdr = Rejected (mkResp 401 (BError "Token is not valid"))
    /\ db_users_inv db'
    /\ (forall hdr2 u2 t2, auth db hdr2 = Authed u2 t2 -> t2 <> t ->
         exists u2', auth db' hdr2 = Authed u2' t2 /\ u_id u2' = u_id u2).
Proof. exact (logout_revokes_spec db hdr u t). Qed.

(** C37: a registration for an e-mail that is already stored (after the
    [lowercase] setter) answers [400 "User already exists with this
    email"] and writes nothing: no [_id], salt or user is consumed. *)
Lemma register_duplicate_rejected db b ri u :
  validate_register b = inr ri -> find_by_email (ri_email ri) (db_users db) = Some u ->
  register b db = (inr (mkResp 400 (BError "User already exists with this email")), db).
Proof. intros Hv Hf. unfold register. rewrite Hv. unfold rm_bind, rm_get. rewrite Hf. reflexivity. Qed.

(** C3: an unknown e-mail and a wrong password get the same response, and
    nothing is written. *)
Lemma login_failure_uniform db b li :
  validate_login b = inr li ->
  (find_by_email (li_email li) (db_users db) = None \/
   exists u, find_by_email (li_email li) (db_users db) = Some u
             /\ compare_password u (li_password li) = false) ->
  login b db = (inr (mkResp 401 (BError "Invalid credentials")), db).
Proof.
  intros Hv Hcase. unfold login. rewrite Hv. unfold rm_bind, rm_get.
  destruct Hcase as [-> | (u & -> & Hc)]; [reflexivity|]. rewrite Hc. reflexivity.
Qed.

(** The token a successful [login] answers is signed from the stored
    user's [_id], e-mail and role and the clock's second. *)
Lemma login_token db b li u j t db' :
  validate_login b = inr li -> find_by_email (li_email li) (db_users db) = Some u ->
  login b db = (inr (mkResp 200 (BAuth "Login successful" j t)), db') ->
  t = jwt_issue (u_id u) (u_email u) (role_str (u_role u)) (db_clock db).
Proof.
  intros Hv Hf. unfold login. rewrite Hv.
  cbv beta iota zeta delta [rm_bind rm_get clock gen_token respond rm_ret invalid_credentials].
  rewrite Hf. destruct (compare_password u (li_password li)); [|discriminate].
  unfold generate_auth_token. destruct (user_save _ _ _ _ _) as [e|[u' c']]; [discriminate|].
  intros E. injection E as _ <- _. reflexivity.
Qed.

Lemma login_creates_session_spec db b li u :
  db_users_inv db -> validate_login b = inr li ->
  find_by_email (li_email li) (db_users db) = Some u ->
  compare_password u (li_password li) = true ->
  exists u' t db',
    login b db = (inr (mkResp 200 (BAuth "Login successful" (user_to_json u') t)), db')
    /\ auth db' (Some (bearer_prefix ++ t)) = Authed u' t
    /\ db_users_inv db' /\ u_id u' = u_id u.
Proof.
  intros Hinv Hv Hf Hc. pose proof (proj1 (find_one_Some _ _ _ Hf)) as Hu.
  destruct (generate_auth_token_ok_spec _ _ u (db_clock db) Hinv Hu) as [G Hinv2].
  unfold login. rewrite Hv.
  cbv beta iota zeta delta [rm_bind rm_get clock gen_token respond rm_ret].
  rewrite Hf, Hc, G. cbn beta iota.
  set (t := jwt_issue _ _ _ _). set (u2 := set_tokens u _).
  exists u2, t. eexists. split; [reflexivity|]. split; [|split; [exact Hinv2 | reflexivity]].
  apply (auth_issued _ u2 (db_clock db)); cbn [db_users db_clock db_next_oid with_users].
  - exact Hinv2.
  - apply (in_replace_doc_new u2 _ u Hu). reflexivity.
  - unfold jwt_lifetime. lia.
  - simpl. apply List.in_or_app. right. left. reflexivity.
Qed.

(** C6: [login] with the right password answers [200] with a new token that
    the guard accepts; the invariant is kept. *)
Lemma login_creates_session db b li u :
  db_users_inv db -> validate_login b = inr li ->
  find_by_email (li_email li) (db_users db) = Some u ->
  compare_password u (li_password li) = true ->
  exists u' t db',
    login b db = (inr (mkResp 200 (BAuth "Login successful" (user_to_json u') t)), db')
    /\ auth db' (Some (bearer_prefix ++ t)) = Authed u' t
    /\ db_users_inv db' /\ u_id u' = u_id u.
Proof. exact (login_creates_session_spec db b li u). Qed.

(** Every [register] keeps the invariant of the users collection, on
    every path, including a save that throws. *)
Lemma register_preserves db b : db_users_inv db -> db_users_inv (snd (register b db)).
Proof.
  intros Hinv. unfold register.
  destruct (validate_register b) as [e|ri]; [exact Hinv|].
  cbv beta iota zeta delta [rm_bind rm_get fresh_oid clock fresh_salt save_user gen_token
                             respond rm_ret].
  destruct (find_by_email (ri_email ri) (db_users db)); [exact Hinv|].
  cbn [db_users db_clock db_next_oid db_salt].
  set (u0 := new_user _ _ _ _ _).
  destruct (user_save true (Some (db_salt db)) true u0 (db_users db)) as [e|[u1 us1]] eqn:S.
  - apply users_inv_succ. exact Hinv.
  - destruct (user_save_new_inv _ _ u0 _ _ _ Hinv eq_refl eq_refl S) as (Hi & -> & _).
    cbn [with_users db_users db_clock db_next_oid].
    assert (Hu1 : In u1 (db_users db ++ [u1])%list) by (apply List.in_or_app; right; left; reflexivity).
    destruct (generate_auth_token_ok_spec _ _ u1 (db_clock db) Hi Hu1) as [G Hi2].
    rewrite G. exact Hi2.
Qed.

(** A body that Joi accepts, for a new e-mail whose last label has four
    or more word characters, makes [save()] throw the schema's
    [ValidationError]; no user is written. *)
Lemma register_long_tld_throws db b ri p w :
  validate_register b = inr ri -> find_by_email (ri_email ri) (db_users db) = None ->
  JsString.to_lower (ri_email ri) = (p ++ String "."%char w)%string ->
  (4 <= String.length w)%nat -> EmailRegex.all_word w = true ->
  (exists path msg, fst (register b db) = inl (EValidation path msg))
  /\ db_users (snd (register b db)) = db_users db.
Proof.
  intros Hv Hf Hl Hlen Hw. unfold register. rewrite Hv.
  cbv beta iota zeta delta [rm_bind rm_get fresh_oid clock fresh_salt save_user respond rm_ret].
  rewrite Hf. cbn [db_users db_clock db_next_oid db_salt].
  set (u0 := new_user _ _ _ _ _).
  assert (Hr : EmailRegex.email_regex_test (u_email u0) = false)
    by (unfold u0, new_user; cbn [u_email]; rewrite Hl; exact (long_label_rejected p w Hlen Hw)).
  unfold user_save. destruct (user_validate true u0) as [e|] eqn:V.
  - destruct (user_validate_is_validation _ _ _ V) as (pa & m & ->). split; [eauto | reflexivity].
  - rewrite (user_validate_email _ _ V) in Hr. discriminate Hr.
Qed.

Lemma login_preserves db b : db_users_inv db -> db_users_inv (snd (login b db)).
Proof.
  intros Hinv. unfold login.
  destruct (validate_login b) as [e|li]; [exact Hinv|].
  cbv beta iota zeta delta [rm_bind rm_get clock gen_token respond rm_ret invalid_credentials].
  destruct (find_by_email (li_email li) (db_users db)) as [u|] eqn:Hf; [|exact Hinv].
  destruct (compare_password u (li_password li)); [|exact Hinv].
  pose proof (proj1 (find_one_Some _ _ _ Hf)) as Hu.
  destruct (generate_auth_token_ok_spec _ _ u (db_clock db) Hinv Hu) as [G Hi2].
  rewrite G. exact Hi2.
Qed.

(** Under the invariant the authentication routes throw only before
    they write: [register] when [save()] of the new document fails,
    [login] and [logout] never. *)
Lemma register_throw_keeps db b : db_users_inv db -> throw_keeps (register b) db.
Proof.
  intros Hinv. unfold throw_keeps, register.
  destruct (validate_register b) as [e|ri]; [intros ? ? E; discriminate E|].
  cbv beta iota zeta delta [rm_bind rm_get fresh_oid clock fresh_salt save_user gen_token
                             respond rm_ret].
  destruct (find_by_email (ri_email ri) (db_users db)); [intros ? ? E; discriminate E|].
  cbn [db_users db_clock db_next_oid db_salt].
  set (u0 := new_user _ _ _ _ _).
  destruct (user_save true (Some (db_salt db)) true u0 (db_users db)) as [e|[u1 us1]] eqn:S.
  - intros ? ? E. injection E as _ <-. split; reflexivity.
  - destruct (user_save_new_inv _ _ u0 _ _ _ Hinv eq_refl eq_refl S) as (Hi & -> & _).
    cbn [with_users db_users db_clock db_next_oid].
    assert (Hu1 : In u1 (db_users db ++ [u1])%list) by (apply List.in_or_app; right; left; reflexivity).
    destruct (generate_auth_token_ok_spec _ _ u1 (db_clock db) Hi Hu1) as [G _].
    rewrite G. intros ? ? E. discriminate E.
Qed.

Lemma login_throw_keeps db b : db_users_inv db -> throw_keeps (login b) db.
Proof.
  intros Hinv. unfold throw_keeps, login.
  destruct (validate_login b) as [e|li]; [intros ? ? E; discriminate E|].
  cbv beta iota zeta delta [rm_bind rm_get clock gen_token respond rm_ret invalid_credentials].
  destruct (find_by_email (li_email li) (db_users db)) as [u|] eqn:Hf; [|intros ? ? E; discriminate E].
  destruct (compare_password u (li_password li)); [|intros ? ? E; discriminate E].
  pose proof (proj1 (find_one_Some _ _ _ Hf)) as Hu.
  destruct (generate_auth_token_ok_spec _ _ u (db_clock db) Hinv Hu) as [G _].
  rewrite G. intros ? ? E. discriminate E.
Qed.

Lemma logout_throw_keeps db u t :
  db_users_inv db -> In u (db_users db) -> throw_keeps (logout u t) db.
Proof. intros Hinv Hu ? ? E. rewrite (logout_step db u t Hinv Hu) in E. discriminate E. Qed.

(** The authentication routes change a stored user only in its
    sessions: [register] appends a document, [login] and [logout] save
    the loaded one with another token list, and the [pre('save')] hook
    leaves an unmodified password alone. *)
Lemma register_keeps_users db b :
  db_users_inv db -> users_kept (db_users db) (db_users (snd (register b db))).
Proof.
  intros Hinv. unfold register.
  destruct (validate_register b) as [e|ri]; [auto with api|].
  cbv beta iota zeta delta [rm_bind rm_get fresh_oid clock fresh_salt save_user gen_token
                             respond rm_ret].
  destruct (find_by_email (ri_email ri) (db_users db)); [auto with api|].
  cbn [db_users db_clock db_next_oid db_salt].
  set (u0 := new_user _ _ _ _ _).
  destruct (user_save true (Some (db_salt db)) true u0 (db_users db)) as [e|[u1 us1]] eqn:S;
    [auto with api|].
  destruct (user_save_new_inv _ _ u0 _ _ _ Hinv eq_refl eq_refl S) as (Hi & -> & _).
  cbn [with_users db_users db_clock db_next_oid].
  assert (Hu1 : In u1 (db_users db ++ [u1])%list) by (apply List.in_or_app; right; left; reflexivity).
  destruct (generate_auth_token_ok_spec _ _ u1 (db_clock db) Hi Hu1) as [G _].
  rewrite G. exact (users_kept_trans _ _ _ (users_kept_insert _ u1)
                      (users_kept_replace _ u1 _ (proj1 (proj2 Hi)) Hu1)).
Qed.

Lemma login_keeps_users db b :
  db_users_inv db -> users_kept (db_users db) (db_users (snd (login b db))).
Proof.
  intros Hinv. unfold login.
  destruct (validate_login b) as [e|li]; [auto with api|].
  cbv beta iota zeta delta [rm_bind rm_get clock gen_token respond rm_ret invalid_credentials].
  destruct (find_by_email (li_email li) (db_users db)) as [u|] eqn:Hf; [|auto with api].
  destruct (compare_password u (li_password li)); [|auto with api].
  pose proof (proj1 (find_one_Some _ _ _ Hf)) as Hu.
  destruct (generate_auth_token_ok_spec _ _ u (db_clock db) Hinv Hu) as [G _].
  rewrite G. exact (users_kept_replace _ u _ (proj1 (proj2 Hinv)) Hu).
Qed.

Lemma logout_keeps_users db u t :
  db_users_inv db -> In u (db_users db) -> users_kept (db_users db) (db_users (snd (logout u t db))).
Proof.
  intros Hinv Hu. rewrite (logout_step db u t Hinv Hu).
  exact (users_kept_replace _ u _ (proj1 (proj2 Hinv)) Hu).
Qed.

(** The authentication routes never write the tasks collection, and the
    [_id] counter only grows. *)
Lemma register_tasks db b :
  db_tasks (snd (register b db)) = db_tasks db /\ (db_next_oid db <= db_next_oid (snd (register b db)))%N.
Proof.
  unfold register. destruct (validate_register b); [cbn; split; [reflexivity | lia]|].
  cbv beta iota zeta delta [rm_bind rm_get fresh_oid clock fresh_salt save_user gen_token
                             respond rm_ret].
  destruct (find_by_email _ _); [cbn; split; [reflexivity | lia]|].
  cbn [db_users db_clock db_next_oid db_salt].
  destruct (user_save _ _ _ _ _) as [e|[u1 us1]]; [cbn; split; [reflexivity | lia]|].
  cbn [with_users db_users db_clock].
  destruct (generate_auth_token _ _ _) as [e|[[t u2] us2]]; cbn; split; reflexivity || lia.
Qed.

Lemma login_tasks db b :
  db_tasks (snd (login b db)) = db_tasks db /\ db_next_oid (snd (login b db)) = db_next_oid db.
Proof.
  unfold login. destruct (validate_login b); [split; reflexivity|].
  cbv beta iota zeta delta [rm_bind rm_get clock gen_token respond rm_ret invalid_credentials].
  destruct (find_by_email _ _) as [u|]; [|split; reflexivity].
  destruct (compare_password _ _); [|split; reflexivity].
  destruct (generate_auth_token _ _ _) as [e|[[t u2] us2]]; split; reflexivity.
Qed.

Lemma logout_tasks db u t :
  db_tasks (snd (logout u t db)) = db_tasks db /\ db_next_oid (snd (logout u t db)) = db_next_oid db.
Proof.
  unfold logout, save_user, rm_bind, respond, rm_ret.
  destruct (user_save _ _ _ _ _) as [e|[u1 us1]]; split; reflexivity.
Qed.

Lemma logout_preserves db u t :
  db_users_inv db -> In u (db_users db) -> db_users_inv (snd (logout u t db)).
Proof. intros Hinv Hu. rewrite logout_step by assumption. apply logout_inv; assumption. Qed.
End Sessions.

(** ** Witnesses *)

Lemma db_users_inv_ex_db0 : db_users_inv ex_db0.
Proof. split; [intros u []|split; constructor]. Qed.

Lemma db_users_inv_ex_db1 : db_users_inv ex_db1.
Proof. apply register_preserves, db_users_inv_ex_db0. Qed.

Lemma logout_revokes_witness :
  db_users_inv ex_db1 /\ auth ex_db1 (Some (bearer_prefix ++ ex_token)) = Authed ann1 ex_token /\
  exists db',
    logout ann1 ex_token ex_db1 = (inr (mkResp 200 (BMessage "Logged out successfully")), db')
    /\ auth db' (Some (bearer_prefix ++ ex_token)) = Rejected (mkResp 401 (BError "Token is not valid"))
    /\ db_users_inv db'
    /\ (forall hdr2 u2 t2, auth ex_db1 hdr2 = Authed u2 t2 -> t2 <> ex_token ->
         exists u2', auth db' hdr2 = Authed u2' t2 /\ u_id u2' = u_id u2).
Proof.
  assert (A : auth ex_db1 (Some (bearer_prefix ++ ex_token)) = Authed ann1 ex_token)
    by (vm_compute; reflexivity).
  split; [exact db_users_inv_ex_db1 | split; [exact A|]].
  exact (logout_revokes _ _ _ _ db_users_inv_ex_db1 A).
Defined.

Lemma register_creates_session_witness :
  db_users_inv ex_db0 /\ validate_register ann_body = inr ann_ri
  /\ find_by_email (ri_email ann_ri) (db_users ex_db0) = None
  /\ user_validate true (new_user (db_next_oid ex_db0) (db_clock ex_db0)
                          (ri_name ann_ri) (ri_email ann_ri) (ri_password ann_ri)) = None
  /\ exists u t db',
    register ann_body ex_db0
      = (inr (mkResp 201 (BAuth "User registered successfully" (user_to_json u) t)), db')
    /\ auth db' (Some (bearer_prefix ++ t)) = Authed u t
    /\ db_users_inv db' /\ u_id u = db_next_oid ex_db0
    /\ (forall q, compare_password u q = String.eqb (bcrypt_key q) (bcrypt_key (ri_password ann_ri))).
Proof.
  assert (V : validate_register ann_body = inr ann_ri) by (vm_compute; reflexivity).
  assert (F : find_by_email (ri_email ann_ri) (db_users ex_db0) = None) by reflexivity.
  assert (U : user_validate true (new_user (db_next_oid ex_db0) (db_clock ex_db0)
                (ri_name ann_ri) (ri_email ann_ri) (ri_password ann_ri)) = None)
    by (vm_compute; reflexivity).
  refine (conj db_users_inv_ex_db0 (conj V (conj F (conj U _)))).
  exact (register_creates_session _ _ _ db_users_inv_ex_db0 V F U).
Defined.

Lemma login_failure_uniform_witness :
  validate_login ann_wrong = inr (mkLogin "ann@ex.com" "secret2")
  /\ (exists u, find_by_email "ann@ex.com" (db_users ex_db1) = Some u
                /\ compare_password u "secret2" = false)
  /\ login ann_wrong ex_db1 = (inr (mkResp 401 (BError "Invalid credentials")), ex_db1).
Proof.
  assert (V : validate_login ann_wrong = inr (mkLogin "ann@ex.com" "secret2")) by (vm_compute; reflexivity).
  assert (W : exists u, find_by_email "ann@ex.com" (db_users ex_db1) = Some u
                        /\ compare_password u "secret2" = false)
    by (exists ann1; split; vm_compute; reflexivity).
  split; [exact V | split; [exact W|]].
  exact (login_failure_uniform ex_db1 ann_wrong _ V (or_intror W)).
Defined.

Lemma login_creates_session_witness :
  db_users_inv ex_db1 /\ validate_login ann_login = inr (mkLogin "ann@ex.com" "secret1")
  /\ find_by_email "ann@ex.com" (db_users ex_db1) = Some ann1
  /\ compare_password ann1 "secret1" = true
  /\ exists u' t db',
    login ann_login ex_db1 = (inr (mkResp 200 (BAuth "Login successful" (user_to_json u') t)), db')
    /\ auth db' (Some (bearer_prefix ++ t)) = Authed u' t
    /\ db_users_inv db' /\ u_id u' = u_id ann1.
Proof.
  assert (V : validate_login ann_login = inr (mkLogin "ann@ex.com" "secret1")) by (vm_compute; reflexivity).
  assert (F : find_by_email "ann@ex.com" (db_users ex_db1) = Some ann1) by (vm_compute; reflexivity).
  assert (C : compare_password ann1 "secret1" = true) by (vm_compute; reflexivity).
  refine (conj db_users_inv_ex_db1 (conj V (conj F (conj C _)))).
  exact (login_creates_session ex_db1 ann_login _ ann1 db_users_inv_ex_db1 V F C).
Defined.

Lemma register_duplicate_rejected_witness :
  validate_register ann_body = inr ann_ri
  /\ find_by_email (ri_email ann_ri) (db_users ex_db1) = Some ann1
  /\ register ann_body ex_db1 = (inr (mkResp 400 (BError "User already exists with this email")), ex_db1).
Proof.
  assert (V : validate_register ann_body = inr ann_ri) by (vm_compute; reflexivity).
  assert (F : find_by_email (ri_email ann_ri) (db_users ex_db1) = Some ann1) by (vm_compute; reflexivity).
  split; [exact V | split; [exact F | exact (register_duplicate_rejected _ _ _ _ V F)]].
Defined.

