(* ===== verification/TaskRoutes.v ===== *)
(** * The task routes ([src/unnamed/part_001], i.e. [routes/tasks.js])

    Every handler runs after the guard with the authenticated user's
    [_id] as [owner], and every query is intersected with
    [{ owner: req.user._id }]:
    - [list_tasks] (GET [/]): optional [status]/[priority] equality
      filters (only when the query string is non-empty), sort on the
      field [sortBy] in the direction [sortOrder], [skip((page-1)*limit)],
      [limit(limit)], [countDocuments] and the pagination object;
    - [get_task] (GET [/:id]), [create_task] (POST [/]),
      [update_task] (PUT [/:id]), [delete_task] (DELETE [/:id]);
    - [stats_overview] (GET [/stats/overview]): the [$group] by status and
      the [forEach] that fills the overview.

    Query values are strings as Express parses them ([None] when absent);
    [parseInt] of a value that has no digits is [NaN], which the driver
    rejects in [skip]/[limit] (a thrown [EBadValue]), as it rejects a
    negative [skip].  MongoDB's [limit(0)] means no limit and a negative
    limit [-n] returns [n] documents.  Sorting compares values in BSON
    order (missing < string < ObjectId < date) and strings by code
    points; documents with equal keys keep their natural order (a stable
    sort). *)

From Stdlib Require Import ZArith NArith Lia String List Bool Permutation Sorted.
From stdpp Require Import base list.
From S2P Require Import Prelude JsString Store ObjectId TaskModel Joi Db.

Local Open Scope string_scope.
Local Open Scope bool_scope.
Local Open Scope rm_scope.
Local Open Scope Z_scope.

(** ** Sorting *)

Inductive SortKey := KNull | KStr (s : string) | KOid (n : N) | KDate (z : Z).

Definition key_rank (k : SortKey) : Z :=
  match k with KNull => 0 | KStr _ => 1 | KOid _ => 2 | KDate _ => 3 end.

(** Binary string order (code points). *)
Fixpoint str_leb (a b : string) : bool :=
  match a, b with
  | EmptyString, _ => true
  | String _ _, EmptyString => false
  | String x a', String y b' =>
      let nx := Ascii.nat_of_ascii x in
      let ny := Ascii.nat_of_ascii y in
      if Nat.ltb nx ny then true else if Nat.ltb ny nx then false else str_leb a' b'
  end.

Definition key_leb (a b : SortKey) : bool :=
  match a, b with
  | KNull, KNull => true
  | KStr x, KStr y => str_leb x y
  | KOid x, KOid y => N.leb x y
  | KDate x, KDate y => Z.leb x y
  | _, _ => Z.leb (key_rank a) (key_rank b)
  end.

(** The value of the path [sortBy] of a task. *)
Definition sort_key (field : string) (t : Task) : SortKey :=
  if String.eqb field "title" then KStr (t_title t)
  else if String.eqb field "description" then
    match t_description t with Some d => KStr d | None => KNull end
  else if String.eqb field "status" then KStr (status_str (t_status t))
  else if String.eqb field "priority" then KStr (priority_str (t_priority t))
  else if String.eqb field "dueDate" then
    match t_dueDate t with Some d => KDate d | None => KNull end
  else if String.eqb field "createdAt" then KDate (t_createdAt t)
  else if String.eqb field "updatedAt" then KDate (t_updatedAt t)
  else if String.eqb field "owner" then KOid (t_owner t)
  else if String.eqb field "_id" then KOid (t_id t)
  else KNull.

Section StableSort.
Context {A : Type} (le : A -> A -> bool).

(** Insert after every element that is not greater. *)
Fixpoint insert_stable (x : A) (l : list A) : list A :=
  match l with
  | [] => [x]
  | y :: l' => if le y x then y :: insert_stable x l' else x :: l
  end.

Definition sort_stable (l : list A) : list A :=
  List.fold_left (fun acc x => insert_stable x acc) l [].
End StableSort.

(** [sort[sortBy] = sortOrder === 'desc' ? -1 : 1] *)
Definition task_le (sortBy : string) (desc : bool) (a b : Task) : bool :=
  if desc then key_leb (sort_key sortBy b) (sort_key sortBy a)
  else key_leb (sort_key sortBy a) (sort_key sortBy b).

(** ** Pagination *)

(** [.skip(s).limit(l)] on the sorted result (the driver applies [skip]
    first whatever the call order). *)
Definition skip_limit (s l : Z) (ts : list Task) : list Task :=
  let rest := List.skipn (Z.to_nat s) ts in
  if Z.eqb l 0 then rest else List.firstn (Z.to_nat (Z.abs l)) rest.

(** [Math.ceil(total / limit)]; [None] when it is [NaN] or [Infinity]. *)
Definition ceil_div (total l : Z) : option Z :=
  if Z.eqb l 0 then None else Some (- ((- total) / l)).

Record ListQuery := mkQuery {
  q_status : option string;
  q_priority : option string;
  q_sortBy : option string;
  q_sortOrder : option string;
  q_page : option string;
  q_limit : option string
}.

(** [if (status) query.status = status] *)
Definition filter_opt (v : option string) (actual : string) : bool :=
  match v with
  | Some s => if String.eqb s EmptyString then true else String.eqb actual s
  | None => true
  end.

(** The query object of the list route. *)
Definition list_filter (owner : N) (q : ListQuery) (t : Task) : bool :=
  N.eqb (t_owner t) owner && filter_opt (q_status q) (status_str (t_status t))
  && filter_opt (q_priority q) (priority_str (t_priority t)).

(** [parseInt] of a query value with its default ([page = 1], [limit = 10]). *)
Definition int_param (v : option string) (dflt : Z) : option Z :=
  match v with Some s => JsString.parse_int s | None => Some dflt end.

Definition list_tasks (owner : N) (q : ListQuery) : M Response :=
  db <- rm_get ;;
  let sortBy := default "createdAt" (q_sortBy q) in
  let desc := String.eqb (default "desc" (q_sortOrder q)) "desc" in
  match int_param (q_page q) 1, int_param (q_limit q) 10 with
  | Some page, Some limit =>
      let s := (page - 1) * limit in
      if Z.ltb s 0 then rm_throw (EBadValue "skip")
      else
        let matching := List.filter (list_filter owner q) (db_tasks db) in
        let tasks := skip_limit s limit (sort_stable (task_le sortBy desc) matching) in
        let total := Z.of_nat (count_documents (list_filter owner q) (db_tasks db)) in
        respond 200 (BTasks tasks (mkPagination page limit total (ceil_div total limit)))
  | _, _ => rm_throw (EBadValue "limit")
  end.

(** ** Single-task routes *)

(** [{ _id: req.params.id, owner: req.user._id }] after the cast of the
    parameter. *)
Definition owned (owner id : N) (t : Task) : bool := N.eqb (t_id t) id && N.eqb (t_owner t) owner.

Definition cast_id (p : string) : M N :=
  match ObjectId.oid_cast p with
  | Some id => rm_ret id
  | None => rm_throw (ECast p)
  end.

Definition not_found : M Response := respond 404 (BError "Task not found").

Definition get_task (owner : N) (p : string) : M Response :=
  id <- cast_id p ;;
  db <- rm_get ;;
  match find_one (owned owner id) (db_tasks db) with
  | Some t => respond 200 (BTask None t)
  | None => not_found
  end.

Section WithJoi.
Context `{JoiLib}.

Definition create_task (owner : N) (b : Body) : M Response :=
  now <- clock ;;
  match validate_task now b with
  | inl e => respond 400 (BError (joi_message e))
  | inr f =>
      id <- fresh_oid ;;
      db <- rm_get ;;
      match task_save now (new_task id owner now f) (db_tasks db) with
      | inl e => rm_throw e
      | inr (t, ts) =>
          rm_put (with_tasks ts db) ;;;
          respond 201 (BTask (Some "Task created successfully") t)
      end
  end.

(** The filter is cast, then the update validators run, then the
    document is updated. *)
Definition update_task (owner : N) (p : string) (b : Body) : M Response :=
  now <- clock ;;
  match validate_task now b with
  | inl e => respond 400 (BError (joi_message e))
  | inr f =>
      id <- cast_id p ;;
      match fields_validate now f with
      | Some e => rm_throw e
      | None =>
          db <- rm_get ;;
          match update_one (owned owner id) (apply_fields f) (db_tasks db) with
          | (Some t, ts) =>
              rm_put (with_tasks ts db) ;;;
              respond 200 (BTask (Some "Task updated successfully") t)
          | (None, _) => not_found
          end
      end
  end.
End WithJoi.

Definition delete_task (owner : N) (p : string) : M Response :=
  id <- cast_id p ;;
  db <- rm_get ;;
  match delete_one (owned owner id) (db_tasks db) with
  | (Some _, ts) => rm_put (with_tasks ts db) ;;; respond 200 (BMessage "Task deleted successfully")
  | (None, _) => not_found
  end.

(** ** Statistics *)

(** [$group: { _id: '$status', count: { $sum: 1 } }] in order of first
    appearance. *)
Fixpoint add_group (s : Status) (gs : list (Status * Z)) : list (Status * Z) :=
  match gs with
  | [] => [(s, 1)]
  | (s', n) :: gs' => if decide (s = s') then (s', n + 1) :: gs' else (s', n) :: add_group s gs'
  end.

Definition group_by_status (ts : list Task) : list (Status * Z) :=
  List.fold_left (fun gs t => add_group (t_status t) gs) ts [].

(** [overview[stat._id] = stat.count; overview.total += stat.count] *)
Definition overview_step (ov : Overview) (g : Status * Z) : Overview :=
  let '(s, n) := g in
  let ov' := match s with
             | Pending => mkOverview (ov_total ov) n (ov_in_progress ov) (ov_completed ov)
             | InProgress => mkOverview (ov_total ov) (ov_pending ov) n (ov_completed ov)
             | Completed => mkOverview (ov_total ov) (ov_pending ov) (ov_in_progress ov) n
             end in
  mkOverview (ov_total ov' + n) (ov_pending ov') (ov_in_progress ov') (ov_completed ov').

Definition overview0 : Overview := mkOverview 0 0 0 0.

Definition stats_overview (owner : N) : M Response :=
  db <- rm_get ;;
  let stats := group_by_status (List.filter (fun t => N.eqb (t_owner t) owner) (db_tasks db)) in
  respond 200 (BStats (List.fold_left overview_step stats overview0)).

(** ** Specification-level definitions used by the theorems *)

(** The sort key order and direction of a list query. *)
Definition query_le (q : ListQuery) : Task -> Task -> bool :=
  task_le (default "createdAt" (q_sortBy q)) (String.eqb (default "desc" (q_sortOrder q)) "desc").

(** The position of a priority in the alphabetical order of its stored
    string ([high] < [low] < [medium]). *)
Definition alpha_rank (p : Priority) : nat := match p with High => 0 | Low => 1 | Medium => 2 end.

(** Fresh task [_id]s: every stored task has an [_id] below the next one. *)
Definition tasks_fresh (db : Db) : Prop := forall t, In t (db_tasks db) -> (t_id t < db_next_oid db)%N.

Definition has_status (s : Status) (t : Task) : bool := if decide (t_status t = s) then true else false.

(** The count of a status in a [$group] result. *)
Definition glookup (s : Status) (gs : list (Status * Z)) : Z :=
  match List.find (fun g => if decide (fst g = s) then true else false) gs with
  | Some (_, n) => n
  | None => 0
  end.

Definition gsum (gs : list (Status * Z)) : Z := List.fold_right (fun g acc => snd g + acc) 0 gs.

Definition ov_field (s : Status) (ov : Overview) : Z :=
  match s with Pending => ov_pending ov | InProgress => ov_in_progress ov | Completed => ov_completed ov end.

Definition cnt (s : Status) (ts : list Task) : Z := Z.of_nat (count_by (has_status s) ts).

(** The invariant of the tasks collection: fresh and distinct [_id]s. *)
Definition tasks_inv (db : Db) : Prop :=
  tasks_fresh db /\ List.NoDup (List.map doc_id (db_tasks db)).

(** ** The sort is a sorting function *)

(** A step of a task route: the tasks invariant holds after it, the users
    are untouched and the [_id] counter only grows. *)
Definition task_frame (db db' : Db) : Prop :=
  tasks_inv db' /\ db_users db' = db_users db /\ (db_next_oid db <= db_next_oid db')%N.

(** ** Example inputs

    [ex_tdb] holds one task of user [1] with [_id] [2]; [ex_tdb3] holds
    three tasks of user [1] of priorities high, low and medium. *)

Definition ex_now : Z := 1700000000000.
Definition ex_task (id owner : N) (title : string) (st : Status) (pr : Priority) : Task :=
  mkTask id title None st pr None owner ex_now ex_now.
Definition ex_tdb : Db := mkDb [] [ex_task 2 1 "Write report" Pending Medium] 3 ex_now 7.
Definition ex_tdb3 : Db :=
  mkDb [] [ex_task 2 1 "A" Pending High; ex_task 3 1 "B" Pending Low; ex_task 4 1 "C" Completed Medium]
    5 ex_now 7.
Definition ex_q (sortBy sortOrder limit : option string) : ListQuery :=
  mkQuery None None sortBy sortOrder None limit.
Definition ex_created : Task := ex_task 3 1 "Plan trip" Pending Medium.
Definition ex_updated : Task :=
  mkTask 2 "Write report v2" None Completed Medium None 1 ex_now ex_now.

(** The page of a list response. *)
Definition page_of (r : DbError + Response) : option (list Task * Pagination) :=
  match r with inr (mkResp _ (BTasks ts pg)) => Some (ts, pg) | _ => None end.

Section StableSortProps.
Context {A : Type} (le : A -> A -> bool).
Hypothesis le_total : forall a b, le a b = false -> le b a = true.

Let R := fun a b => le a b = true.

Lemma insert_stable_perm x l : Permutation (insert_stable le x l) (x :: l).
Proof.
  induction l as [|y l IH]; simpl; [reflexivity|].
  destruct (le y x); [|reflexivity].
  rewrite IH. apply perm_swap.
Qed.

Lemma sort_stable_perm l : Permutation (sort_stable le l) l.
Proof.
  unfold sort_stable. cut (forall acc, Permutation (List.fold_left (fun acc x => insert_stable le x acc) l acc) (l ++ acc)).
  { intros H. rewrite H, List.app_nil_r. reflexivity. }
  induction l as [|x l IH]; intros acc; simpl; [reflexivity|].
  rewrite IH, insert_stable_perm. symmetry. apply Permutation_middle.
Qed.

Lemma insert_stable_hd y x l : HdRel R y l -> R y x -> HdRel R y (insert_stable le x l).
Proof.
  intros Hh Hyx. destruct l as [|z l]; simpl; [constructor; exact Hyx|].
  destruct (le z x); constructor; [inversion Hh; assumption | exact Hyx].
Qed.

Lemma insert_stable_sorted x l : Sorted R l -> Sorted R (insert_stable le x l).
Proof.
  induction l as [|y l IH]; intros Hs; simpl; [repeat constructor|].
  inversion Hs as [|? ? Hl Hh]; subst.
  destruct (le y x) eqn:E.
  - constructor; [apply IH; exact Hl | apply insert_stable_hd; assumption].
  - constructor; [exact Hs | constructor; apply le_total; exact E].
Qed.

Lemma sort_stable_sorted l : Sorted R (sort_stable le l).
Proof.
  unfold sort_stable. cut (forall acc, Sorted R acc ->
    Sorted R (List.fold_left (fun acc x => insert_stable le x acc) l acc)).
  { intros H. apply H. constructor. }
  induction l as [|x l IH]; intros acc Hacc; simpl; [exact Hacc|].
  apply IH, insert_stable_sorted, Hacc.
Qed.
End StableSortProps.

Lemma Sorted_skipn {A} (R : A -> A -> Prop) n l : Sorted R l -> Sorted R (List.skipn n l).
Proof.
  revert l. induction n as [|n IH]; intros l Hs; [exact Hs|].
  destruct l as [|x l]; simpl; [constructor|]. apply IH. inversion Hs; assumption.
Qed.

Lemma Sorted_firstn {A} (R : A -> A -> Prop) n l : Sorted R l -> Sorted R (List.firstn n l).
Proof.
  revert l. induction n as [|n IH]; intros l Hs; simpl; [constructor|].
  destruct l as [|x l]; [constructor|]. inversion Hs as [|? ? Hl Hh]; subst.
  constructor; [apply IH; exact Hl|].
  destruct n, l; simpl; constructor. inversion Hh. assumption.
Qed.

Lemma str_leb_total a b : str_leb a b = false -> str_leb b a = true.
Proof.
  revert b. induction a as [|x a IH]; intros [|y b]; simpl; try discriminate; auto.
  destruct (Nat.ltb_spec (Ascii.nat_of_ascii x) (Ascii.nat_of_ascii y)); [discriminate|].
  destruct (Nat.ltb_spec (Ascii.nat_of_ascii y) (Ascii.nat_of_ascii x)); [reflexivity|].
  auto.
Qed.

Lemma key_leb_total a b : key_leb a b = false -> key_leb b a = true.
Proof.
  destruct a, b; simpl; try discriminate; intros E;
    try apply str_leb_total; try lia; auto;
    rewrite ?N.leb_gt, ?Z.leb_gt in E; rewrite ?N.leb_le, ?Z.leb_le; lia.
Qed.

Lemma task_le_total sortBy desc a b :
  task_le sortBy desc a b = false -> task_le sortBy desc b a = true.
Proof. unfold task_le. destruct desc; apply key_leb_total. Qed.

Lemma skip_limit_sorted R s l ts : Sorted R ts -> Sorted R (skip_limit s l ts).
Proof.
  intros Hs. unfold skip_limit. destruct (Z.eqb l 0);
    [apply Sorted_skipn | apply Sorted_firstn, Sorted_skipn]; exact Hs.
Qed.

Lemma skip_limit_incl s l ts x : In x (skip_limit s l ts) -> In x ts.
Proof.
  unfold skip_limit. intros Hx. destruct (Z.eqb l 0);
    [|apply in_firstn_in in Hx]; apply in_skipn_in in Hx; exact Hx.
Qed.

(** ** Properties of the task routes *)

(** What a successful list answers. *)
Lemma list_tasks_result_spec o q db r db' :
  list_tasks o q db = (inr r, db') ->
  db' = db /\ exists ts pg,
    r = mkResp 200 (BTasks ts pg)
    /\ Sorted (fun a b => query_le q a b = true) ts
    /\ (forall t, In t ts -> In t (db_tasks db) /\ t_owner t = o /\ list_filter o q t = true)
    /\ pg_total pg = Z.of_nat (count_by (list_filter o q) (db_tasks db))
    /\ pg_pages pg = ceil_div (pg_total pg) (pg_limit pg)
    /\ ts = skip_limit ((pg_page pg - 1) * pg_limit pg) (pg_limit pg)
              (sort_stable (query_le q) (List.filter (list_filter o q) (db_tasks db))).
Proof.
  unfold list_tasks, rm_bind, rm_get. cbv zeta.
  destruct (int_param (q_page q) 1) as [page|], (int_param (q_limit q) 10) as [limit|];
    try (unfold rm_throw; discriminate).
  destruct (Z.ltb_spec ((page - 1) * limit) 0); [unfold rm_throw; discriminate|].
  unfold respond, rm_ret. intros [= <- <-]. split; [reflexivity|]. eexists _, _.
  split; [reflexivity|].
  split; [apply skip_limit_sorted, sort_stable_sorted; intros a b; apply task_le_total|].
  split; [|split; [reflexivity | split; reflexivity]].
  intros t Ht. apply skip_limit_incl in Ht.
  apply (Permutation_in _ (sort_stable_perm _ _)), List.filter_In in Ht as [Hin Hf].
  split; [exact Hin|]. split; [|exact Hf].
  unfold list_filter in Hf. apply andb_true_iff in Hf as [Hf _]. apply andb_true_iff in Hf as [Hf _].
  apply N.eqb_eq. exact Hf.
Qed.

(** [Math.ceil(total / limit)] as the least [k] with [total / limit <= k],
    for either sign of [limit]. *)
Lemma ceil_div_spec n l k :
  ceil_div n l = Some k ->
  l <> 0 /\ ((0 < l /\ (k - 1) * l < n <= k * l) \/ (l < 0 /\ k * l <= n < (k - 1) * l)).
Proof.
  unfold ceil_div. destruct (Z.eqb_spec l 0); [discriminate|]. intros [= <-]. split; [exact n0|].
  pose proof (Z.div_mod (- n) l n0).
  destruct (Z.lt_ge_cases 0 l) as [Hl|Hl].
  - left. pose proof (Z.mod_pos_bound (- n) l Hl). split; [exact Hl | nia].
  - right. assert (Hl' : l < 0) by lia. pose proof (Z.mod_neg_bound (- n) l Hl'). split; [exact Hl' | nia].
Qed.

(** C14: a successful list writes nothing and answers the page the query
    asks for: [page] and [limit] are [parseInt] of [?page] and [?limit]
    (defaults 1 and 10), the tasks are [skip((page-1)*limit)] and then
    [limit] (none for 0, [|limit|] when negative) of the caller's tasks
    matching the filters sorted on [sortBy] in the direction [sortOrder],
    [total] counts all of them, and [pages] is [Math.ceil(total / limit)]
    ([null] for [limit = 0]). *)
Lemma list_tasks_result o q db r db' :
  list_tasks o q db = (inr r, db') ->
  db' = db /\ exists page limit ts pg all,
    int_param (q_page q) 1 = Some page /\ int_param (q_limit q) 10 = Some limit
    /\ r = mkResp 200 (BTasks ts pg) /\ pg_page pg = page /\ pg_limit pg = limit
    /\ Permutation all (List.filter (list_filter o q) (db_tasks db))
    /\ Sorted (fun a b => query_le q a b = true) all
    /\ 0 <= (page - 1) * limit
    /\ ts = (if Z.eqb limit 0 then List.skipn (Z.to_nat ((page - 1) * limit)) all
             else List.firstn (Z.to_nat (Z.abs limit)) (List.skipn (Z.to_nat ((page - 1) * limit)) all))
    /\ pg_total pg = Z.of_nat (length (List.filter (list_filter o q) (db_tasks db)))
    /\ ((limit = 0 /\ pg_pages pg = None)
        \/ exists k, pg_pages pg = Some k
             /\ ((0 < limit /\ (k - 1) * limit < pg_total pg <= k * limit)
                 \/ (limit < 0 /\ k * limit <= pg_total pg < (k - 1) * limit))).
Proof.
  unfold list_tasks, rm_bind, rm_get. cbv zeta.
  destruct (int_param (q_page q) 1) as [page|], (int_param (q_limit q) 10) as [limit|];
    try (unfold rm_throw; discriminate).
  destruct (Z.ltb_spec ((page - 1) * limit) 0); [unfold rm_throw; discriminate|].
  unfold respond, rm_ret. intros [= <- <-]. split; [reflexivity|].
  set (all := sort_stable (query_le q) (List.filter (list_filter o q) (db_tasks db))).
  eexists page, limit, _, _, all. do 5 (split; [reflexivity|]).
  split; [apply sort_stable_perm|]. split; [apply sort_stable_sorted; intros a b; apply task_le_total|].
  split; [lia|]. split; [reflexivity|]. split; [reflexivity|].
  destruct (Z.eqb_spec limit 0) as [->|Hne]; [left; split; reflexivity|].
  right. unfold count_documents, count_by. cbn [pg_pages pg_total].
  destruct (ceil_div _ limit) as [k|] eqn:C; [|unfold ceil_div in C; destruct (Z.eqb_spec limit 0); [lia | discriminate]].
  exists k. split; [reflexivity|]. apply ceil_div_spec in C as [_ C]. exact C.
Qed.



(** [Math.ceil(total / limit)] with a positive limit is the least
    number of pages of [limit] items that hold [total] items. *)
Lemma ceil_div_bounds n l k : 0 < l -> ceil_div n l = Some k -> (k - 1) * l < n <= k * l.
Proof.
  unfold ceil_div. intros Hl. destruct (Z.eqb_spec l 0); [lia|]. intros [= <-].
  pose proof (Z.div_mod (- n) l ltac:(lia)). pose proof (Z.mod_pos_bound (- n) l Hl). nia.
Qed.


(** C4: owner isolation: when no task with the requested [_id] belongs to the
    caller, get and delete answer 404 and an update never succeeds; none
    of them changes the database. *)
Lemma task_isolation db o p id :
  ObjectId.oid_cast p = Some id ->
  (forall t, In t (db_tasks db) -> t_id t = id -> t_owner t <> o) ->
  get_task o p db = (inr (mkResp 404 (BError "Task not found")), db)
  /\ delete_task o p db = (inr (mkResp 404 (BError "Task not found")), db)
  /\ (forall `{JoiLib} b, snd (update_task o p b db) = db
        /\ forall r, fst (update_task o p b db) = inr r -> r_status r <> 200).
Proof.
  intros Hc Hno.
  assert (Hmiss : forall t, In t (db_tasks db) -> owned o id t = false).
  { intros t Ht. unfold owned. destruct (N.eqb_spec (t_id t) id) as [E|]; [|reflexivity].
    destruct (N.eqb_spec (t_owner t) o); [exfalso; exact (Hno t Ht E ltac:(assumption)) | reflexivity]. }
  unfold get_task, delete_task, update_task, cast_id, rm_bind, rm_get. rewrite Hc. simpl.
  rewrite find_one_none_intro by exact Hmiss. rewrite delete_one_miss by exact Hmiss.
  split; [reflexivity|]. split; [reflexivity|].
  intros J b. unfold clock. simpl. destruct (validate_task (db_clock db) b) as [e|f]; simpl.
  - split; [reflexivity|]. intros r [= <-]. simpl. discriminate.
  - destruct (fields_validate (db_clock db) f); simpl.
    + split; [reflexivity | discriminate].
    + rewrite update_one_miss by exact Hmiss. cbn beta iota.
      unfold not_found, respond, rm_ret. cbn.
      split; [exact eq_refl|]. intros r [= <-] E. discriminate E.
Qed.

Section TaskProps.
Context `{JoiLib}.

(** C9: round trip: a created task is stored with the caller as owner, its
    fields are the validated ones after the [trim] setters and defaults,
    and getting it by the [_id] printed in the response returns it. *)
Lemma create_get_roundtrip o b db r db' :
  tasks_fresh db -> (db_next_oid db < ObjectId.oid_bound)%N ->
  create_task o b db = (inr r, db') -> r_status r = 201 ->
  exists f t,
    validate_task (db_clock db) b = inr f
    /\ r = mkResp 201 (BTask (Some "Task created successfully") t)
    /\ t = task_pre_save (db_clock db) (new_task (db_next_oid db) o (db_clock db) f)
    /\ get_task o (ObjectId.oid_to_hex (t_id t)) db' = (inr (mkResp 200 (BTask None t)), db').
Proof.
  intros Hfr Hb. unfold create_task, clock, fresh_oid, rm_bind, rm_get, respond, rm_ret, rm_put.
  destruct (validate_task (db_clock db) b) as [e|f] eqn:Hv; simpl.
  - intros [= <- _]. simpl. discriminate.
  - unfold task_save. destruct (task_validate _ _); simpl; [unfold rm_throw; discriminate|].
    intros [= <- <-] _. eexists f, _. split; [reflexivity|]. split; [reflexivity|].
    split; [reflexivity|].
    unfold get_task, cast_id, rm_bind, rm_get, rm_ret.
    rewrite ObjectId.oid_cast_to_hex by exact Hb. cbn beta iota.
    cbn [with_tasks db_tasks]. unfold insert_doc.
    rewrite find_one_app_last; [reflexivity| |].
    + intros y Hy. unfold owned. pose proof (Hfr y Hy). cbn [t_id task_pre_save new_task].
      destruct (N.eqb_spec (t_id y) (db_next_oid db)); [lia | reflexivity].
    + unfold owned. simpl. rewrite !N.eqb_refl. reflexivity.
Qed.

(** C10: a successful update replaces, in place, the first task with the
    requested [_id] that the caller owns by that task with each supplied
    path set ([title] and [description] trimmed, the others as given),
    every path not supplied kept, and [_id], [owner], [createdAt] and
    [updatedAt] unchanged: [findOneAndUpdate] runs no [pre('save')], so
    [updatedAt] is not refreshed. *)
Lemma update_task_effect o p b db r db' :
  update_task o p b db = (inr r, db') -> r_status r = 200 ->
  exists f id c1 t c2 t',
    validate_task (db_clock db) b = inr f /\ ObjectId.oid_cast p = Some id
    /\ db_tasks db = (c1 ++ t :: c2)%list /\ Forall (fun z => owned o id z = false) c1
    /\ t_id t = id /\ t_owner t = o
    /\ r = mkResp 200 (BTask (Some "Task updated successfully") t')
    /\ db' = with_tasks (c1 ++ t' :: c2) db
    /\ t_id t' = t_id t /\ t_title t' = JsString.trim (f_title f)
    /\ t_description t' = match f_description f with Some d => Some (JsString.trim d) | None => t_description t end
    /\ t_status t' = default (t_status t) (f_status f)
    /\ t_priority t' = default (t_priority t) (f_priority f)
    /\ t_dueDate t' = match f_dueDate f with Some d => Some d | None => t_dueDate t end
    /\ t_owner t' = o /\ t_createdAt t' = t_createdAt t /\ t_updatedAt t' = t_updatedAt t.
Proof.
  unfold update_task, clock, cast_id, rm_bind, rm_get, respond, rm_ret, rm_put.
  destruct (validate_task (db_clock db) b) as [e|f] eqn:Hv; simpl.
  - intros [= <- _]. simpl. discriminate.
  - destruct (ObjectId.oid_cast p) as [id|] eqn:Hc; simpl; [|unfold rm_throw; discriminate].
    destruct (fields_validate (db_clock db) f); simpl; [unfold rm_throw; discriminate|].
    destruct (update_one (owned o id) (apply_fields f) (db_tasks db)) as [[t'|] ts] eqn:U;
      simpl; [|intros [= <- _]; simpl; discriminate].
    intros [= <- <-] _.
    assert (Hs : fst (update_one (owned o id) (apply_fields f) (db_tasks db)) = Some t')
      by (rewrite U; reflexivity).
    destruct (update_one_split _ _ _ _ Hs) as (c1 & t & c2 & Ec & Hf & Ho & -> & Es).
    rewrite U in Es. cbn in Es. subst ts.
    unfold owned in Ho. apply andb_true_iff in Ho as [Hi Ho]. apply N.eqb_eq in Hi, Ho.
    exists f, id, c1, t, c2, (apply_fields f t). repeat split; assumption || reflexivity.
Qed.

(** C11: validation comes before any write: a body that Joi rejects gets
    [400] with Joi's message from create and update, and the database is
    unchanged. *)
Lemma invalid_body_no_write o p b db e :
  validate_task (db_clock db) b = inl e ->
  create_task o b db = (inr (mkResp 400 (BError (joi_message e))), db)
  /\ update_task o p b db = (inr (mkResp 400 (BError (joi_message e))), db).
Proof.
  intros Hv. unfold create_task, update_task, clock, rm_bind. simpl. rewrite Hv.
  split; reflexivity.
Qed.


End TaskProps.

(** C13: with distinct task [_id]s, a deleted task is gone: getting it again
    answers 404. *)
Lemma delete_then_get o p db r db' :
  List.NoDup (List.map doc_id (db_tasks db)) ->
  delete_task o p db = (inr r, db') -> r_status r = 200 ->
  get_task o p db' = (inr (mkResp 404 (BError "Task not found")), db').
Proof.
  intros Hnd. unfold delete_task, cast_id, rm_bind, rm_get, respond, rm_ret, rm_put.
  destruct (ObjectId.oid_cast p) as [id|] eqn:Hc; simpl; [|unfold rm_throw; discriminate].
  destruct (delete_one (owned o id) (db_tasks db)) as [[y|] ts] eqn:D;
    simpl; [|intros [= <- _]; simpl; discriminate].
  intros [= <- <-] _.
  assert (Hs : fst (delete_one (owned o id) (db_tasks db)) = Some y) by (rewrite D; reflexivity).
  destruct (delete_one_Some _ _ _ Hs) as (c1 & c2 & Hdb & Hts & Hy). rewrite D in Hts. simpl in Hts.
  unfold get_task, cast_id, rm_bind, rm_get. rewrite Hc. simpl. subst ts.
  rewrite find_one_none_intro; [reflexivity|].
  intros z Hz. destruct (owned o id z) eqn:Hoz; [|reflexivity]. exfalso.
  unfold owned in Hy, Hoz. apply andb_true_iff in Hy as [Hy _]. apply andb_true_iff in Hoz as [Hoz _].
  apply N.eqb_eq in Hy, Hoz. rewrite Hdb in Hnd.
  rewrite List.map_app in Hnd. simpl in Hnd. apply List.NoDup_remove_2 in Hnd. apply Hnd.
  rewrite <- List.map_app. change (doc_id y) with (t_id y). rewrite Hy, <- Hoz.
  change (t_id z) with (doc_id z). apply List.in_map. exact Hz.
Qed.

(** ** Statistics are the counts per status *)

Lemma overview_step_field ov s n s' :
  ov_field s' (overview_step ov (s, n)) = if decide (s = s') then n else ov_field s' ov.
Proof. destruct s, s'; simpl; reflexivity. Qed.

Lemma overview_fold_total gs ov :
  ov_total (List.fold_left overview_step gs ov) = ov_total ov + gsum gs.
Proof.
  revert ov. induction gs as [|[s n] gs IH]; intros ov; simpl; [lia|].
  rewrite IH. destruct s; simpl; lia.
Qed.

Lemma find_none_intro_status (s : Status) (gs : list (Status * Z)) :
  ~ In s (List.map fst gs) ->
  List.find (fun g => if decide (fst g = s) then true else false) gs = None.
Proof.
  induction gs as [|[s' n] gs IH]; simpl; intros Hn; [reflexivity|].
  destruct (decide (s' = s)); [exfalso; auto|]. apply IH. auto.
Qed.

Lemma overview_fold_field gs ov s :
  List.NoDup (List.map fst gs) ->
  ov_field s (List.fold_left overview_step gs ov)
  = match List.find (fun g => if decide (fst g = s) then true else false) gs with
    | Some (_, n) => n
    | None => ov_field s ov
    end.
Proof.
  revert ov. induction gs as [|[s1 n1] gs IH]; intros ov Hnd;
    cbn [List.fold_left List.map List.find fst]; [reflexivity|].
  apply NoDup_cons_iff in Hnd as [Hs1 Hnd]. rewrite IH by exact Hnd.
  rewrite overview_step_field. simpl. destruct (decide (s1 = s)) as [<-|Hne].
  - rewrite find_none_intro_status; [reflexivity|]. exact Hs1.
  - reflexivity.
Qed.

Lemma add_group_lookup s s' gs :
  glookup s (add_group s' gs) = glookup s gs + (if decide (s' = s) then 1 else 0).
Proof.
  unfold glookup. induction gs as [|[s1 n] gs IH]; simpl.
  - destruct (decide (s' = s)); simpl; lia.
  - destruct (decide (s' = s1)) as [<-|Hne]; simpl.
    + destruct (decide (s' = s)); lia.
    + destruct (decide (s1 = s)) as [<-|Hne']; simpl.
      * destruct (decide (s' = s1)); [contradiction | lia].
      * exact IH.
Qed.

Lemma add_group_sum s gs : gsum (add_group s gs) = gsum gs + 1.
Proof.
  induction gs as [|[s1 n] gs IH]; simpl; [reflexivity|].
  destruct (decide (s = s1)); simpl; lia.
Qed.

Lemma add_group_keys s gs :
  List.map fst (add_group s gs) = List.map fst gs \/
  (List.map fst (add_group s gs) = (List.map fst gs ++ [s])%list /\ ~ In s (List.map fst gs)).
Proof.
  induction gs as [|[s1 n] gs IH]; simpl; [right; auto|].
  destruct (decide (s = s1)) as [<-|Hne]; simpl; [left; reflexivity|].
  destruct IH as [-> | [-> Hn]]; [left; reflexivity | right; split; [reflexivity|]].
  intros [E|E]; [congruence | contradiction].
Qed.

Lemma add_group_NoDup s gs : List.NoDup (List.map fst gs) -> List.NoDup (List.map fst (add_group s gs)).
Proof.
  intros Hnd. destruct (add_group_keys s gs) as [-> | [-> Hn]]; [exact Hnd|].
  apply List.NoDup_app; [exact Hnd | repeat constructor; simpl; tauto |].
  intros a Ha [<-|[]]. contradiction.
Qed.

Lemma group_by_status_spec ts :
  List.NoDup (List.map fst (group_by_status ts))
  /\ gsum (group_by_status ts) = Z.of_nat (length ts)
  /\ forall s, glookup s (group_by_status ts) = cnt s ts.
Proof.
  unfold group_by_status, cnt, count_by.
  cut (forall gs, List.NoDup (List.map fst gs) ->
       List.NoDup (List.map fst (List.fold_left (fun gs t => add_group (t_status t) gs) ts gs))
       /\ gsum (List.fold_left (fun gs t => add_group (t_status t) gs) ts gs) = gsum gs + Z.of_nat (length ts)
       /\ forall s, glookup s (List.fold_left (fun gs t => add_group (t_status t) gs) ts gs)
                   = glookup s gs + Z.of_nat (length (List.filter (has_status s) ts))).
  { intros H. destruct (H [] ltac:(constructor)) as (H1 & H2 & H3). simpl in *. auto. }
  induction ts as [|t ts IH]; intros gs Hnd; simpl.
  - repeat split; [exact Hnd | lia | intros; lia].
  - destruct (IH (add_group (t_status t) gs) (add_group_NoDup _ _ Hnd)) as (H1 & H2 & H3).
    repeat split; [exact H1 | rewrite H2, add_group_sum; lia |].
    intros s. rewrite H3, add_group_lookup. unfold has_status at 2.
    destruct (decide (t_status t = s)); simpl; lia.
Qed.

Lemma glookup_In s n gs : List.NoDup (List.map fst gs) -> In (s, n) gs -> glookup s gs = n.
Proof.
  unfold glookup. induction gs as [|[s' n'] gs IH]; simpl; intros Hnd Hin; [contradiction|].
  inversion Hnd as [|? ? Hn Hnd']; subst. destruct (decide (s' = s)) as [->|Ne].
  - destruct Hin as [[= ->]|Hin]; [reflexivity|]. exfalso. apply Hn, List.in_map_iff. exists (s, n). auto.
  - destruct Hin as [[= -> _]|Hin]; [contradiction | auto].
Qed.

(** With distinct statuses, [glookup] does not depend on the order of the
    groups. *)
Lemma glookup_perm s gs gs' :
  List.NoDup (List.map fst gs) -> Permutation gs gs' -> glookup s gs = glookup s gs'.
Proof.
  intros Hnd P. assert (Hnd' : List.NoDup (List.map fst gs'))
    by (apply (Permutation_NoDup (Permutation_map fst P)), Hnd).
  destruct (in_dec (decide_rel eq) s (List.map fst gs)) as [Hin|Hn].
  - apply List.in_map_iff in Hin as ([s' n] & <- & Hin). cbn [fst].
    rewrite (glookup_In _ _ _ Hnd Hin), (glookup_In _ _ _ Hnd' (Permutation_in _ P Hin)). reflexivity.
  - assert (Hn' : ~ In s (List.map fst gs')) by (intros H'; apply Hn, (Permutation_in _ (Permutation_sym (Permutation_map fst P)) H')).
    unfold glookup. rewrite !find_none_intro_status by assumption. reflexivity.
Qed.

Lemma gsum_perm gs gs' : Permutation gs gs' -> gsum gs = gsum gs'.
Proof. unfold gsum. induction 1; simpl; lia. Qed.

(** The [forEach] over groups with distinct statuses that count the
    tasks [mine]. *)
Lemma overview_of_groups gs mine :
  List.NoDup (List.map fst gs) -> gsum gs = Z.of_nat (length mine) ->
  (forall s, glookup s gs = cnt s mine) ->
  List.fold_left overview_step gs overview0
  = mkOverview (Z.of_nat (length mine)) (cnt Pending mine) (cnt InProgress mine) (cnt Completed mine).
Proof.
  intros Hnd Hsum Hl. set (ov := List.fold_left overview_step gs overview0).
  assert (Hf : forall s, ov_field s ov = cnt s mine).
  { intros s. unfold ov. rewrite overview_fold_field by exact Hnd. rewrite <- Hl. unfold glookup.
    destruct (List.find _ _) as [[? ?]|]; [reflexivity | destruct s; reflexivity]. }
  assert (Ht : ov_total ov = Z.of_nat (length mine)).
  { unfold ov. rewrite overview_fold_total, Hsum. reflexivity. }
  rewrite <- Ht, <- (Hf Pending), <- (Hf InProgress), <- (Hf Completed). destruct ov; reflexivity.
Qed.

(** C16: the statistics route writes nothing and answers the caller's
    total and the count of each status (0 for a status the caller has
    no task in); [$group] returns its groups in no specified order, and
    the [forEach] gives that same overview for every order of them. *)
Lemma stats_overview_counts o db :
  let mine := List.filter (fun t => N.eqb (t_owner t) o) (db_tasks db) in
  let expected := mkOverview (Z.of_nat (length mine)) (cnt Pending mine)
                             (cnt InProgress mine) (cnt Completed mine) in
  stats_overview o db = (inr (mkResp 200 (BStats expected)), db)
  /\ forall gs, Permutation gs (group_by_status mine) -> List.fold_left overview_step gs overview0 = expected.
Proof.
  intros mine expected. destruct (group_by_status_spec mine) as (Hnd & Hsum & Hl).
  assert (G : forall gs, Permutation gs (group_by_status mine) -> List.fold_left overview_step gs overview0 = expected).
  { intros gs P. apply overview_of_groups.
    - apply (Permutation_NoDup (Permutation_map fst (Permutation_sym P)) Hnd).
    - rewrite (gsum_perm _ _ P). exact Hsum.
    - intros s. rewrite <- (glookup_perm s _ _ Hnd (Permutation_sym P)). apply Hl. }
  split; [|exact G]. unfold stats_overview, rm_bind, rm_get, respond, rm_ret. fold mine.
  rewrite (G _ (Permutation_refl _)). reflexivity.
Qed.

(** ** Every task route keeps the tasks invariant *)

Lemma task_frame_refl db : tasks_inv db -> task_frame db db.
Proof. intros H. split; [exact H | split; [reflexivity | lia]]. Qed.

Lemma task_frame_succ db :
  tasks_inv db ->
  task_frame db (mkDb (db_users db) (db_tasks db) (N.succ (db_next_oid db)) (db_clock db) (db_salt db)).
Proof.
  intros [Hfr Hnd]. split; [split|split; [reflexivity | cbn; lia]]; [|exact Hnd].
  intros t Ht. pose proof (Hfr t Ht). cbn. lia.
Qed.

#[export] Hint Resolve task_frame_refl task_frame_succ : api.

Lemma list_tasks_readonly o q db : snd (list_tasks o q db) = db.
Proof.
  unfold list_tasks, rm_bind, rm_get, respond, rm_ret, rm_throw. cbv zeta.
  destruct (int_param (q_page q) 1) as [page|], (int_param (q_limit q) 10) as [limit|]; try reflexivity.
  destruct (Z.ltb ((page - 1) * limit) 0); reflexivity.
Qed.

Lemma get_task_readonly o p db : snd (get_task o p db) = db.
Proof.
  unfold get_task, cast_id, rm_bind, rm_get, respond, rm_ret, rm_throw.
  destruct (ObjectId.oid_cast p); [|reflexivity]. destruct (find_one _ _); reflexivity.
Qed.

Lemma stats_overview_readonly o db : snd (stats_overview o db) = db.
Proof. reflexivity. Qed.

Section TaskFrames.
Context `{JoiLib}.

Lemma create_task_frame o b db : tasks_inv db -> task_frame db (snd (create_task o b db)).
Proof.
  intros Hinv. unfold create_task, clock, fresh_oid, rm_bind, rm_get, respond, rm_ret, rm_put, rm_throw.
  destruct (validate_task (db_clock db) b); cbn beta iota; [auto with api|].
  unfold task_save. destruct (task_validate _ _); cbn beta iota; [auto with api|].
  destruct Hinv as [Hfr Hnd].
  split; [split|split; [reflexivity | cbn; lia]].
  - intros y Ht. cbn in Ht. unfold insert_doc in Ht.
    apply List.in_app_or in Ht as [Ht|[<-|[]]]; [pose proof (Hfr _ Ht)|]; cbn; lia.
  - cbn. apply insert_doc_NoDup_map; [exact Hnd|]. intros x Hx E. pose proof (Hfr x Hx).
    unfold doc_id, task_document in E. cbn in E. lia.
Qed.

Lemma update_task_frame o p b db : tasks_inv db -> task_frame db (snd (update_task o p b db)).
Proof.
  intros Hinv. unfold update_task, clock, cast_id, rm_bind, rm_get, respond, rm_ret, rm_put, rm_throw.
  destruct (validate_task (db_clock db) b); cbn beta iota; [auto with api|].
  destruct (ObjectId.oid_cast p) as [id|]; cbn beta iota; [|auto with api].
  destruct (fields_validate _ _); cbn beta iota; [auto with api|].
  destruct (update_one (owned o id) (apply_fields t) (db_tasks db)) as [[t'|] ts] eqn:U;
    cbn beta iota; [|auto with api].
  assert (Ets : ts = snd (update_one (owned o id) (apply_fields t) (db_tasks db))) by (rewrite U; reflexivity).
  destruct Hinv as [Hfr Hnd]. split; [split|split; [reflexivity | cbn; lia]]; cbn; rewrite Ets.
  - intros y Hy. apply in_update_one_id in Hy as (x & Hx & Ex); [|reflexivity].
    pose proof (Hfr x Hx). change (t_id x = t_id y) in Ex. cbn. lia.
  - rewrite update_one_ids by reflexivity. exact Hnd.
Qed.

Lemma delete_task_frame o p db : tasks_inv db -> task_frame db (snd (delete_task o p db)).
Proof.
  intros Hinv. unfold delete_task, cast_id, rm_bind, rm_get, respond, rm_ret, rm_put, rm_throw.
  destruct (ObjectId.oid_cast p) as [id|]; cbn beta iota; [|auto with api].
  destruct (delete_one (owned o id) (db_tasks db)) as [[t'|] ts] eqn:D; cbn beta iota; [|auto with api].
  assert (Ets : ts = snd (delete_one (owned o id) (db_tasks db))) by (rewrite D; reflexivity).
  destruct Hinv as [Hfr Hnd]. split; [split|split; [reflexivity | cbn; lia]]; cbn; rewrite Ets.
  - intros y Hy. apply Hfr. exact (in_delete_one _ _ _ Hy).
  - apply delete_one_NoDup_map. exact Hnd.
Qed.

(** The task handlers throw only before they write: a cast, a failed
    validation or a bad [skip] leave the collections as they were. *)
Lemma task_handlers_throw_keeps o p q b db :
  throw_keeps (list_tasks o q) db /\ throw_keeps (get_task o p) db
  /\ throw_keeps (create_task o b) db /\ throw_keeps (update_task o p b) db
  /\ throw_keeps (delete_task o p) db /\ throw_keeps (stats_overview o) db.
Proof.
  unfold throw_keeps, list_tasks, get_task, create_task, update_task, delete_task, stats_overview,
    task_save, cast_id, not_found.
  cbv beta iota zeta delta [clock fresh_oid rm_bind rm_get respond rm_ret rm_put rm_throw].
  split_and!; throw_cases.
Qed.

Lemma owned_other o id t : t_owner t <> o -> owned o id t = false.
Proof. intros Hne. unfold owned. destruct (N.eqb_spec (t_owner t) o); [contradiction | apply andb_false_r]. Qed.

(** The task handlers called for [o] keep every task of another owner
    in the collection, unchanged. *)
Lemma task_handlers_keep_others o p q b db t :
  In t (db_tasks db) -> t_owner t <> o ->
  In t (db_tasks (snd (list_tasks o q db))) /\ In t (db_tasks (snd (get_task o p db)))
  /\ In t (db_tasks (snd (create_task o b db))) /\ In t (db_tasks (snd (update_task o p b db)))
  /\ In t (db_tasks (snd (delete_task o p db))) /\ In t (db_tasks (snd (stats_overview o db))).
Proof.
  intros Ht Hne. rewrite list_tasks_readonly, get_task_readonly, stats_overview_readonly.
  split_and!; try exact Ht.
  - unfold create_task, task_save.
    cbv beta iota zeta delta [clock fresh_oid rm_bind rm_get respond rm_ret rm_put rm_throw].
    destruct (validate_task _ _); [exact Ht|]. destruct (task_validate _ _); [exact Ht|].
    apply List.in_or_app. left. exact Ht.
  - unfold update_task, cast_id, not_found.
    cbv beta iota zeta delta [clock rm_bind rm_get respond rm_ret rm_put rm_throw].
    destruct (validate_task _ _) as [|f]; [exact Ht|]. destruct (ObjectId.oid_cast p) as [id|]; [|exact Ht].
    destruct (fields_validate _ _); [exact Ht|].
    pose proof (in_update_one_other (owned o id) (apply_fields f) _ t Ht (owned_other o id t Hne)) as Hk.
    destruct (update_one _ _ _) as [[t'|] ts]; [exact Hk | exact Ht].
  - unfold delete_task, cast_id, not_found.
    cbv beta iota zeta delta [rm_bind rm_get respond rm_ret rm_put rm_throw].
    destruct (ObjectId.oid_cast p) as [id|]; [|exact Ht].
    pose proof (in_delete_one_other (owned o id) _ t Ht (owned_other o id t Hne)) as Hk.
    destruct (delete_one _ _) as [[t'|] ts]; [exact Hk | exact Ht].
Qed.
End TaskFrames.

(** ** Witnesses and examples *)

Lemma tasks_fresh_ex_tdb : tasks_fresh ex_tdb.
Proof. intros t [<-|[]]. cbn. lia. Qed.

Lemma task_isolation_witness :
  ObjectId.oid_cast (ObjectId.oid_to_hex 2) = Some 2%N
  /\ (forall t, In t (db_tasks ex_tdb) -> t_id t = 2%N -> t_owner t <> 3%N)
  /\ get_task 3 (ObjectId.oid_to_hex 2) ex_tdb = (inr (mkResp 404 (BError "Task not found")), ex_tdb)
  /\ delete_task 3 (ObjectId.oid_to_hex 2) ex_tdb = (inr (mkResp 404 (BError "Task not found")), ex_tdb)
  /\ (forall `{JoiLib} b, snd (update_task 3 (ObjectId.oid_to_hex 2) b ex_tdb) = ex_tdb
        /\ forall r, fst (update_task 3 (ObjectId.oid_to_hex 2) b ex_tdb) = inr r -> r_status r <> 200).
Proof.
  assert (C : ObjectId.oid_cast (ObjectId.oid_to_hex 2) = Some 2%N) by (vm_compute; reflexivity).
  assert (O : forall t, In t (db_tasks ex_tdb) -> t_id t = 2%N -> t_owner t <> 3%N)
    by (intros t [<-|[]] _; discriminate).
  split; [exact C | split; [exact O | exact (task_isolation ex_tdb 3 _ 2 C O)]].
Defined.

Lemma create_get_roundtrip_witness :
  tasks_fresh ex_tdb /\ (db_next_oid ex_tdb < ObjectId.oid_bound)%N
  /\ create_task 1 [("title", JStr "Plan trip")] ex_tdb
     = (inr (mkResp 201 (BTask (Some "Task created successfully") ex_created)),
        with_tasks (db_tasks ex_tdb ++ [ex_created]) (mkDb [] (db_tasks ex_tdb) 4 ex_now 7))
  /\ exists f t,
      validate_task (db_clock ex_tdb) [("title", JStr "Plan trip")] = inr f
      /\ mkResp 201 (BTask (Some "Task created successfully") ex_created)
         = mkResp 201 (BTask (Some "Task created successfully") t)
      /\ t = task_pre_save (db_clock ex_tdb) (new_task (db_next_oid ex_tdb) 1 (db_clock ex_tdb) f)
      /\ get_task 1 (ObjectId.oid_to_hex (t_id t))
           (with_tasks (db_tasks ex_tdb ++ [ex_created]) (mkDb [] (db_tasks ex_tdb) 4 ex_now 7))
         = (inr (mkResp 200 (BTask None t)),
            with_tasks (db_tasks ex_tdb ++ [ex_created]) (mkDb [] (db_tasks ex_tdb) 4 ex_now 7)).
Proof.
  assert (B : (db_next_oid ex_tdb < ObjectId.oid_bound)%N) by (vm_compute; reflexivity).
  assert (E : create_task 1 [("title", JStr "Plan trip")] ex_tdb
     = (inr (mkResp 201 (BTask (Some "Task created successfully") ex_created)),
        with_tasks (db_tasks ex_tdb ++ [ex_created]) (mkDb [] (db_tasks ex_tdb) 4 ex_now 7)))
    by (vm_compute; reflexivity).
  refine (conj tasks_fresh_ex_tdb (conj B (conj E _))).
  exact (create_get_roundtrip _ _ _ _ _ tasks_fresh_ex_tdb B E eq_refl).
Defined.

Lemma update_task_effect_witness :
  let b := [("title", JStr "Write report v2"); ("status", JStr "completed")] in
  let r := mkResp 200 (BTask (Some "Task updated successfully") ex_updated) in
  let db' := with_tasks [ex_updated] ex_tdb in
  update_task 1 (ObjectId.oid_to_hex 2) b ex_tdb = (inr r, db') /\ r_status r = 200 /\
  exists f id c1 t c2 t',
    validate_task (db_clock ex_tdb) b = inr f /\ ObjectId.oid_cast (ObjectId.oid_to_hex 2) = Some id
    /\ db_tasks ex_tdb = (c1 ++ t :: c2)%list /\ Forall (fun z => owned 1 id z = false) c1
    /\ t_id t = id /\ t_owner t = 1%N
    /\ r = mkResp 200 (BTask (Some "Task updated successfully") t')
    /\ db' = with_tasks (c1 ++ t' :: c2) ex_tdb
    /\ t_id t' = t_id t /\ t_title t' = JsString.trim (f_title f)
    /\ t_description t' = match f_description f with Some d => Some (JsString.trim d) | None => t_description t end
    /\ t_status t' = default (t_status t) (f_status f)
    /\ t_priority t' = default (t_priority t) (f_priority f)
    /\ t_dueDate t' = match f_dueDate f with Some d => Some d | None => t_dueDate t end
    /\ t_owner t' = 1%N /\ t_createdAt t' = t_createdAt t /\ t_updatedAt t' = t_updatedAt t.
Proof.
  intros b r db'.
  assert (E : update_task 1 (ObjectId.oid_to_hex 2) b ex_tdb = (inr r, db')) by (vm_compute; reflexivity).
  split; [exact E | split; [reflexivity | exact (update_task_effect _ _ _ _ _ _ E eq_refl)]].
Defined.


Lemma invalid_body_no_write_witness :
  validate_task (db_clock ex_tdb) [("title", JStr EmptyString)] = inl (JEmpty "title")
  /\ create_task 1 [("title", JStr EmptyString)] ex_tdb
     = (inr (mkResp 400 (BError (joi_message (JEmpty "title")))), ex_tdb)
  /\ update_task 1 (ObjectId.oid_to_hex 2) [("title", JStr EmptyString)] ex_tdb
     = (inr (mkResp 400 (BError (joi_message (JEmpty "title")))), ex_tdb).
Proof.
  assert (V : validate_task (db_clock ex_tdb) [("title", JStr EmptyString)] = inl (JEmpty "title"))
    by (vm_compute; reflexivity).
  split; [exact V | exact (invalid_body_no_write 1 _ _ ex_tdb _ V)].
Defined.


Lemma delete_then_get_witness :
  List.NoDup (List.map doc_id (db_tasks ex_tdb))
  /\ delete_task 1 (ObjectId.oid_to_hex 2) ex_tdb
     = (inr (mkResp 200 (BMessage "Task deleted successfully")), with_tasks [] ex_tdb)
  /\ get_task 1 (ObjectId.oid_to_hex 2) (with_tasks [] ex_tdb)
     = (inr (mkResp 404 (BError "Task not found")), with_tasks [] ex_tdb).
Proof.
  assert (N : List.NoDup (List.map doc_id (db_tasks ex_tdb))) by (repeat constructor; simpl; tauto).
  assert (D : delete_task 1 (ObjectId.oid_to_hex 2) ex_tdb
     = (inr (mkResp 200 (BMessage "Task deleted successfully")), with_tasks [] ex_tdb))
    by (vm_compute; reflexivity).
  split; [exact N | split; [exact D | exact (delete_then_get _ _ _ _ _ N D eq_refl)]].
Defined.

Lemma list_tasks_result_witness :
  let o := 1%N in
  let q := ex_q None None None in
  let db := ex_tdb in
  let r := mkResp 200 (BTasks (db_tasks ex_tdb) (mkPagination 1 10 1 (Some 1))) in
  let db' := ex_tdb in
  (list_tasks o q db = (inr r, db')) /\
  (db' = db /\ exists page limit ts pg all,
    int_param (q_page q) 1 = Some page /\ int_param (q_limit q) 10 = Some limit
    /\ r = mkResp 200 (BTasks ts pg) /\ pg_page pg = page /\ pg_limit pg = limit
    /\ Permutation all (List.filter (list_filter o q) (db_tasks db))
    /\ Sorted (fun a b => query_le q a b = true) all
    /\ 0 <= (page - 1) * limit
    /\ ts = (if Z.eqb limit 0 then List.skipn (Z.to_nat ((page - 1) * limit)) all
             else List.firstn (Z.to_nat (Z.abs limit)) (List.skipn (Z.to_nat ((page - 1) * limit)) all))
    /\ pg_total pg = Z.of_nat (length (List.filter (list_filter o q) (db_tasks db)))
    /\ ((limit = 0 /\ pg_pages pg = None)
        \/ exists k, pg_pages pg = Some k
             /\ ((0 < limit /\ (k - 1) * limit < pg_total pg <= k * limit)
                 \/ (limit < 0 /\ k * limit <= pg_total pg < (k - 1) * limit)))).
Proof.
  intros o q db r db'.
  assert (W0 : list_tasks o q db = (inr r, db')) by (vm_compute; reflexivity).
  split; [exact W0|]. exact (list_tasks_result o q db r db' W0).
Defined.


Lemma ceil_div_bounds_witness : 0 < 10 /\ ceil_div 15 10 = Some 2 /\ (2 - 1) * 10 < 15 <= 2 * 10.
Proof.
  assert (L : 0 < 10) by lia. assert (C : ceil_div 15 10 = Some 2) by reflexivity.
  split; [exact L | split; [exact C | exact (ceil_div_bounds _ _ _ L C)]].
Defined.


(** ** Edge cases of the task routes *)

(** C28: a title of blanks passes Joi ([min(1)] counts the blanks) and
    the schema's [trim] setter empties it: [create] throws the schema's
    [ValidationError] from [save()] (forwarded to the error handler)
    instead of answering [400], and no task is written. *)
Lemma blank_title_throws o b db f :
  validate_task (db_clock db) b = inr f -> JsString.trim (f_title f) = EmptyString ->
  fst (create_task o b db) = inl (EValidation "title" "Task title is required")
  /\ db_tasks (snd (create_task o b db)) = db_tasks db.
Proof.
  intros Hv Ht. unfold create_task, clock, rm_bind, fresh_oid, rm_get. cbn [db_clock]. rewrite Hv.
  unfold task_save, task_validate, new_task. cbn [t_title]. rewrite Ht. split; reflexivity.
Qed.

(** C29: the update schema is the create schema, whose [title] is
    required: a [PUT] body without a title is answered [400 "title" is
    required] whatever else it sets, and nothing is written (the
    specification's update changes only the supplied fields). *)
Lemma update_requires_title o p b db :
  body_get "title" b = None ->
  update_task o p b db = (inr (mkResp 400 (BError (joi_message (JRequired "title")))), db).
Proof.
  intros Hb. unfold update_task, clock, rm_bind. cbn [fst snd].
  unfold validate_task. rewrite Hb. reflexivity.
Qed.

Lemma Sorted_mono {A} (R R' : A -> A -> Prop) l :
  (forall a b, R a b -> R' a b) -> Sorted R l -> Sorted R' l.
Proof.
  intros HR. induction 1 as [|a l _ IH Hh]; constructor; [exact IH|].
  destruct Hh; constructor. apply HR. assumption.
Qed.

Lemma str_leb_priority a b :
  str_leb (priority_str a) (priority_str b) = true -> (alpha_rank a <= alpha_rank b)%nat.
Proof. destruct a, b; vm_compute; intros E; (discriminate E || auto). Qed.

(** C30: [sortBy=priority] sorts the stored strings: in every page of an
    ascending list, [high] tasks come before [low] ones and [low] before
    [medium], not in the order of the priorities. *)
Lemma priority_sort_alphabetical o q db ts pg db' :
  q_sortBy q = Some "priority" -> q_sortOrder q = Some "asc" ->
  list_tasks o q db = (inr (mkResp 200 (BTasks ts pg)), db') ->
  Sorted (fun a b => (alpha_rank (t_priority a) <= alpha_rank (t_priority b))%nat) ts.
Proof.
  intros Hs Ho E. apply list_tasks_result_spec in E as (_ & ts' & pg' & [= <- <-] & Hsort & _).
  revert Hsort. apply Sorted_mono. intros a b. unfold query_le. rewrite Hs, Ho. apply str_leb_priority.
Qed.

(** C31: the limit parameter at its edges: [limit=0] is no limit for
    MongoDB, so every matching task of the caller is listed whatever the
    page, and [Math.ceil(total / 0)] is [Infinity], sent as [pages: null];
    a [page] or [limit] that [parseInt] reads as [NaN] makes the query
    throw, and nothing is answered from the handler itself. *)
Lemma list_limit_edges o q db :
  (int_param (q_limit q) 10 = Some 0 -> forall page, int_param (q_page q) 1 = Some page ->
     exists ts pg, list_tasks o q db = (inr (mkResp 200 (BTasks ts pg)), db)
       /\ Permutation ts (List.filter (list_filter o q) (db_tasks db)) /\ pg_pages pg = None)
  /\ ((int_param (q_limit q) 10 = None \/ int_param (q_page q) 1 = None) ->
     list_tasks o q db = (inl (EBadValue "limit"), db)).
Proof.
  split.
  - intros Hl page Hp. unfold list_tasks, rm_bind, rm_get. cbv zeta. rewrite Hp, Hl.
    rewrite Z.mul_0_r. cbn [Z.ltb Z.compare]. eexists _, _. split; [reflexivity|].
    split; [|reflexivity]. unfold skip_limit. cbn. apply sort_stable_perm.
  - intros H. unfold list_tasks, rm_bind, rm_get. cbv zeta.
    destruct H as [H|H]; rewrite H; [destruct (int_param (q_page q) 1)|]; reflexivity.
Qed.


Lemma blank_title_throws_witness :
  let o := 1%N in
  let b := [("title", JStr "   ")] in
  let db := ex_tdb in
  let f := mkFields "   " None None None None in
  (validate_task (db_clock db) b = inr f) /\
  (JsString.trim (f_title f) = EmptyString) /\
  (fst (create_task o b db) = inl (EValidation "title" "Task title is required")
  /\ db_tasks (snd (create_task o b db)) = db_tasks db).
Proof.
  intros o b db f.
  assert (W0 : validate_task (db_clock db) b = inr f) by (vm_compute; reflexivity).
  assert (W1 : JsString.trim (f_title f) = EmptyString) by (vm_compute; reflexivity).
  split; [exact W0|]. split; [exact W1|]. exact (blank_title_throws o b db f W0 W1).
Defined.

Lemma update_requires_title_witness :
  let o := 1%N in
  let p := ObjectId.oid_to_hex 2 in
  let b := [("status", JStr "completed")] in
  let db := ex_tdb in
  (body_get "title" b = None) /\
  (update_task o p b db = (inr (mkResp 400 (BError (joi_message (JRequired "title")))), db)).
Proof.
  intros o p b db.
  assert (W0 : body_get "title" b = None) by (reflexivity).
  split; [exact W0|]. exact (update_requires_title o p b db W0).
Defined.

Lemma priority_sort_alphabetical_witness :
  let o := 1%N in
  let q := ex_q (Some "priority") (Some "asc") None in
  let db := ex_tdb3 in
  let ts := db_tasks ex_tdb3 in
  let pg := mkPagination 1 10 3 (Some 1) in
  let db' := ex_tdb3 in
  (q_sortBy q = Some "priority") /\
  (q_sortOrder q = Some "asc") /\
  (list_tasks o q db = (inr (mkResp 200 (BTasks ts pg)), db')) /\
  (Sorted (fun a b => (alpha_rank (t_priority a) <= alpha_rank (t_priority b))%nat) ts).
Proof.
  intros o q db ts pg db'.
  assert (W0 : q_sortBy q = Some "priority") by (reflexivity).
  assert (W1 : q_sortOrder q = Some "asc") by (reflexivity).
  assert (W2 : list_tasks o q db = (inr (mkResp 200 (BTasks ts pg)), db')) by (vm_compute; reflexivity).
  split; [exact W0|]. split; [exact W1|]. split; [exact W2|]. exact (priority_sort_alphabetical o q db ts pg db' W0 W1 W2).
Defined.

Lemma list_limit_edges_witness :
  let q := ex_q None None (Some "0") in
  int_param (q_limit q) 10 = Some 0 /\ int_param (q_page q) 1 = Some 1 /\
  exists ts pg, list_tasks 1 q ex_tdb3 = (inr (mkResp 200 (BTasks ts pg)), ex_tdb3)
    /\ Permutation ts (List.filter (list_filter 1 q) (db_tasks ex_tdb3)) /\ pg_pages pg = None.
Proof.
  intros q.
  assert (L : int_param (q_limit q) 10 = Some 0) by (vm_compute; reflexivity).
  assert (P : int_param (q_page q) 1 = Some 1) by (vm_compute; reflexivity).
  split; [exact L | split; [exact P|]]. exact (proj1 (list_limit_edges 1 q ex_tdb3) L 1 P).
Defined.

