(* ===== verification/Server.v ===== *)
(** * The application ([src/server.js])

    [app] is the Express application as [server.js] assembles it, in the
    order of its [app.use]/[app.get] calls:
    - [/api/auth] mounts the router of [src/routes/auth.js]: [POST
      /register], [POST /login], [GET /me] and [POST /logout], the last
      two behind the guard of [src/middleware/auth.js];
    - [/api/tasks] runs the guard first, for every method and sub-path,
      then the router of [routes/tasks.js] with [req.user._id] as owner;
    - [GET /] and [GET /api/health];
    - a request that no route answers gets [404 "Route not found"].
    Every route handler forwards what it throws to [next(error)], which
    reaches the global error handler ([errorHandler]); [handle] is [app]
    with that boundary.  [src/middleware/errorHandler.js] is not part of
    the sources: [error_handler] is modelled from the specification
    (an internal failure is answered with a 5xx status and a generic
    body).

    A request is its method, its path as the list of its non-empty
    segments (Express's non-strict routing ignores a trailing slash and
    matches the literal segments of a route without regard to case), the
    query string as key/value pairs with distinct keys, the
    [Authorization] header and the parsed JSON body.  [HEAD] is answered
    by the [GET] routes. *)

From Stdlib Require Import ZArith NArith Lia String Ascii List Bool.
From stdpp Require Import base list.
From S2P Require Import Prelude JsString Crypto Store UserModel TaskModel Joi Db AuthMiddleware AuthRoutes TaskRoutes.

Local Open Scope string_scope.
Local Open Scope bool_scope.
Local Open Scope rm_scope.

Inductive Method := GET | HEAD | POST | PUT | DELETE | OtherMethod (m : string).

Record Request := mkReq {
  rq_method : Method;
  rq_path : list string;
  rq_query : list (string * string);
  rq_auth : option string;
  rq_body : Body
}.

(** A literal segment of a route matches without regard to case. *)
Definition seg_is (lit s : string) : bool := String.eqb (JsString.to_lower s) lit.

(** [req.query[k]] *)
Definition query_get (k : string) (q : list (string * string)) : option string :=
  option_map snd (List.find (fun kv => String.eqb (fst kv) k) q).

(** The destructuring of [req.query] in the list route. *)
Definition list_query (q : list (string * string)) : ListQuery :=
  mkQuery (query_get "status" q) (query_get "priority" q) (query_get "sortBy" q)
    (query_get "sortOrder" q) (query_get "page" q) (query_get "limit" q).

(** ** The routers *)

Inductive AuthRoute := RRegister | RLogin | RMe | RLogout.

(** The routes of [src/routes/auth.js], matched below [/api/auth]. *)
Definition auth_route (m : Method) (rest : list string) : option AuthRoute :=
  match m, rest with
  | POST, [s] =>
      if seg_is "register" s then Some RRegister
      else if seg_is "login" s then Some RLogin
      else if seg_is "logout" s then Some RLogout
      else None
  | GET, [s] | HEAD, [s] => if seg_is "me" s then Some RMe else None
  | _, _ => None
  end.

Inductive TaskRoute :=
  | RList | RGet (id : string) | RCreate | RUpdate (id : string) | RDelete (id : string) | RStats.

(** The routes of [routes/tasks.js], matched below [/api/tasks] in the
    order they are declared ([/:id] takes one segment, so it does not
    match [/stats/overview]). *)
Definition task_route (m : Method) (rest : list string) : option TaskRoute :=
  match m, rest with
  | GET, [] | HEAD, [] => Some RList
  | GET, [id] | HEAD, [id] => Some (RGet id)
  | POST, [] => Some RCreate
  | PUT, [id] => Some (RUpdate id)
  | DELETE, [id] => Some (RDelete id)
  | GET, [a; b] | HEAD, [a; b] =>
      if seg_is "stats" a && seg_is "overview" b then Some RStats else None
  | _, _ => None
  end.

Definition is_get (m : Method) : bool := match m with GET | HEAD => true | _ => false end.

(** [app.use((req, res) => res.status(404).json({ error: 'Route not found' }))] *)
Definition route_not_found : M Response := respond 404 (BError "Route not found").

(** The global [errorHandler] (modelled from the specification). *)
Definition error_handler (e : DbError) : M Response :=
  respond 500 (BError "Internal server error").

Section App.
Context `{JwtScheme} `{PasswordHasher} `{JoiLib}.

(** The guard in front of a route: [next()] runs [k] with [req.user] and
    [req.token]; a rejection is the response. *)
Definition with_auth (hdr : option string) (k : User -> string -> M Response) : M Response :=
  db <- rm_get ;;
  match auth db hdr with
  | Authed u t => k u t
  | Rejected r => rm_ret r
  end.

Definition auth_router (rq : Request) (r : AuthRoute) : M Response :=
  match r with
  | RRegister => register (rq_body rq)
  | RLogin => login (rq_body rq)
  | RMe => with_auth (rq_auth rq) (fun u _ => me u)
  | RLogout => with_auth (rq_auth rq) logout
  end.

Definition task_router (owner : N) (rq : Request) (r : TaskRoute) : M Response :=
  match r with
  | RList => list_tasks owner (list_query (rq_query rq))
  | RGet id => get_task owner id
  | RCreate => create_task owner (rq_body rq)
  | RUpdate id => update_task owner id (rq_body rq)
  | RDelete id => delete_task owner id
  | RStats => stats_overview owner
  end.

(** [app.use('/api/tasks', auth, taskRoutes)]: the guard runs for every
    request below [/api/tasks], whether or not a task route matches. *)
Definition tasks_mount (rq : Request) (rest : list string) : M Response :=
  with_auth (rq_auth rq) (fun u _ =>
    match task_route (rq_method rq) rest with
    | Some r => task_router (u_id u) rq r
    | None => route_not_found
    end).

Definition health : M Response :=
  now <- clock ;; respond 200 (BHealth "OK" now).

Definition root : M Response :=
  now <- clock ;; respond 200 (BRoot "Task Management API is running!" now).

(** The application without its error boundary. *)
Definition app (rq : Request) : M Response :=
  match rq_path rq with
  | [] => if is_get (rq_method rq) then root else route_not_found
  | a :: b :: rest =>
      if seg_is "api" a && seg_is "auth" b then
        match auth_route (rq_method rq) rest with
        | Some r => auth_router rq r
        | None => route_not_found
        end
      else if seg_is "api" a && seg_is "tasks" b then tasks_mount rq rest
      else if seg_is "api" a && seg_is "health" b && is_get (rq_method rq) then
        match rest with [] => health | _ => route_not_found end
      else route_not_found
  | [_] => route_not_found
  end.

(** A request: what a handler throws is answered by [errorHandler]. *)
Definition handle (rq : Request) : M Response := rm_catch (app rq) error_handler.

(** The invariant of the whole database. *)
Definition db_inv (db : Db) : Prop := db_users_inv db /\ tasks_inv db.

(** The states the service can reach: an empty database, any request
    handled atomically, and the clock moving forward between
    requests. *)
Inductive reachable : Db -> Prop :=
  | reach_init n now salt : reachable (mkDb [] [] n now salt)
  | reach_step db rq : reachable db -> reachable (snd (handle rq db))
  | reach_tick db dt :
      reachable db -> (0 <= dt)%Z ->
      reachable (mkDb (db_users db) (db_tasks db) (db_next_oid db) (db_clock db + dt) (db_salt db)).

(** A sequence of requests handled one after the other. *)
Fixpoint run (rqs : list Request) (db : Db) : list Response * Db :=
  match rqs with
  | [] => ([], db)
  | rq :: rqs' =>
      let '(r, db1) := handle rq db in
      let r' := match r with inr x => x | inl _ => mkResp 500 (BError "Internal server error") end in
      let '(rs, db2) := run rqs' db1 in (r' :: rs, db2)
  end.
End App.

(** ** The shape of a response

    The JSON bodies of the code: an error body [{ error: message }] goes
    with a 4xx or 5xx status, every other body with 200 or 201. *)
Definition resp_ok (r : Response) : bool :=
  match r_body r with
  | BError _ => existsb (Z.eqb (r_status r)) [400; 401; 404; 500]%Z
  | _ => existsb (Z.eqb (r_status r)) [200; 201]%Z
  end.

(** Every outcome of a handler, unfolded to its final [respond], has a
    well-formed response. *)
Ltac resp_cases :=
  repeat (match goal with |- context [match ?x with _ => _ end] => destruct x end);
  intros E; first [discriminate E | injection E as <- _; reflexivity].

(** ** Example requests

    Ann's requests, on the empty database [ex_db0] of [AuthRoutes];
    [ann_hdr] carries the token her registration returns. *)

Definition rq_register (b : Body) : Request := mkReq POST ["api"; "auth"; "register"] [] None b.
Definition rq_login (b : Body) : Request := mkReq POST ["api"; "auth"; "login"] [] None b.
Definition rq_logout (h : option string) : Request := mkReq POST ["api"; "auth"; "logout"] [] h [].
Definition rq_list (h : option string) : Request := mkReq GET ["api"; "tasks"] [] h [].
Definition rq_create (h : option string) (b : Body) : Request := mkReq POST ["api"; "tasks"] [] h b.
Definition ann_hdr : option string := Some (bearer_prefix ++ ex_token).

(** The token of an authentication response. *)
Definition resp_token (r : Response) : option string :=
  match r_body r with BAuth _ _ t => Some t | _ => None end.

(** A password of 72 characters followed by [1], and the same 72
    characters followed by [2]. *)
Definition pw72 : string :=
  "abcdefghijklmnopqrstuvwxyzabcdefghijklmnopqrstuvwxyzabcdefghijklmnopqrst".
Definition long_pw1 : string := pw72 ++ "1".
Definition long_pw2 : string := pw72 ++ "2".

(** ** The guard, the error boundary and the invariant of the service *)

Section AppProps.
Context `{JwtScheme} `{PasswordHasher} `{JoiLib}.

Lemma with_auth_rejected hdr k db r :
  auth db hdr = Rejected r -> with_auth hdr k db = (inr r, db).
Proof. intros E. unfold with_auth, rm_bind, rm_get, rm_ret. rewrite E. reflexivity. Qed.

Lemma with_auth_authed hdr k db u t :
  auth db hdr = Authed u t -> with_auth hdr k db = k u t db.
Proof. intros E. unfold with_auth, rm_bind, rm_get. rewrite E. reflexivity. Qed.

Lemma db_inv_task_frame db db' : db_inv db -> task_frame db db' -> db_inv db'.
Proof.
  intros [Hu _] (Ht & Eu & Hn). split; [|exact Ht].
  unfold db_users_inv. rewrite Eu. eapply users_inv_le; eassumption.
Qed.

Lemma tasks_inv_grow db db' :
  tasks_inv db -> db_tasks db' = db_tasks db -> (db_next_oid db <= db_next_oid db')%N -> tasks_inv db'.
Proof.
  intros [Hf Hn] Et Hle. split; [|rewrite Et; exact Hn].
  intros t Ht. rewrite Et in Ht. pose proof (Hf t Ht). lia.
Qed.

Lemma auth_router_inv rq r db : db_inv db -> db_inv (snd (auth_router rq r db)).
Proof.
  intros [Hu Ht]. destruct r; cbn [auth_router].
  - split; [apply register_preserves; exact Hu|].
    destruct (register_tasks db (rq_body rq)) as [E L]. exact (tasks_inv_grow _ _ Ht E L).
  - split; [apply login_preserves; exact Hu|].
    destruct (login_tasks db (rq_body rq)) as [E L]. apply (tasks_inv_grow _ _ Ht E). lia.
  - destruct (auth db (rq_auth rq)) eqn:A.
    + rewrite (with_auth_authed _ _ _ _ _ A). split; assumption.
    + rewrite (with_auth_rejected _ _ _ _ A). split; assumption.
  - destruct (auth db (rq_auth rq)) eqn:A.
    + rewrite (with_auth_authed _ _ _ _ _ A).
      pose proof (auth_Authed_inv_spec _ _ _ _ A) as (_ & Hin & _).
      split; [apply logout_preserves; assumption|].
      destruct (logout_tasks db u token) as [E L]. apply (tasks_inv_grow _ _ Ht E). lia.
    + rewrite (with_auth_rejected _ _ _ _ A). split; assumption.
Qed.

Lemma task_router_frame o rq r db : tasks_inv db -> task_frame db (snd (task_router o rq r db)).
Proof.
  intros Ht. destruct r; cbn [task_router].
  - rewrite list_tasks_readonly. auto with api.
  - rewrite get_task_readonly. auto with api.
  - apply create_task_frame. exact Ht.
  - apply update_task_frame. exact Ht.
  - apply delete_task_frame. exact Ht.
  - rewrite stats_overview_readonly. auto with api.
Qed.

Lemma app_inv rq db : db_inv db -> db_inv (snd (app rq db)).
Proof.
  intros Hi. unfold app. destruct (rq_path rq) as [|a [|b rest]].
  - destruct (is_get (rq_method rq)); exact Hi.
  - exact Hi.
  - destruct (seg_is "api" a && seg_is "auth" b).
    { destruct (auth_route _ _); [apply auth_router_inv; exact Hi | exact Hi]. }
    destruct (seg_is "api" a && seg_is "tasks" b).
    + unfold tasks_mount. destruct (auth db (rq_auth rq)) eqn:A.
      * rewrite (with_auth_authed _ _ _ _ _ A).
        destruct (task_route _ _); [|exact Hi].
        apply (db_inv_task_frame db); [exact Hi | apply task_router_frame; apply Hi].
      * rewrite (with_auth_rejected _ _ _ _ A). exact Hi.
    + destruct (_ && _ && _); [destruct rest; exact Hi | exact Hi].
Qed.

Lemma handle_inv rq db : db_inv db -> db_inv (snd (handle rq db)).
Proof.
  intros Hi. unfold handle, rm_catch. pose proof (app_inv rq db Hi) as Ha.
  destruct (app rq db) as [[e|r] db']; exact Ha.
Qed.

Lemma db_inv_empty n now salt : db_inv (mkDb [] [] n now salt).
Proof.
  split; [split; [intros u []|split; constructor] | split; [intros t []|constructor]].
Qed.

(** C5: every request below [/api/tasks] meets the guard first: when it
    rejects the request, its response is the answer and nothing is
    written, whatever the method and the rest of the path. *)
Theorem tasks_guarded rq db a b rest r :
  rq_path rq = a :: b :: rest -> seg_is "api" a = true -> seg_is "tasks" b = true ->
  auth db (rq_auth rq) = Rejected r -> handle rq db = (inr r, db).
Proof.
  intros Hp Ha Hb Hr. unfold handle, rm_catch, app. rewrite Hp, Ha, Hb. cbn [andb].
  destruct (seg_is "auth" b) eqn:Hab.
  { exfalso. unfold seg_is in Hb, Hab. apply String.eqb_eq in Hb, Hab. congruence. }
  unfold tasks_mount. rewrite (with_auth_rejected _ _ _ _ Hr). reflexivity.
Qed.

Lemma with_auth_throw_keeps hdr k db :
  (forall u t, auth db hdr = Authed u t -> throw_keeps (k u t) db) -> throw_keeps (with_auth hdr k) db.
Proof.
  intros Hk. destruct (auth db hdr) as [u t|r] eqn:A.
  - intros e db' E. rewrite (with_auth_authed _ _ _ _ _ A) in E. exact (Hk u t eq_refl e db' E).
  - intros e db' E. rewrite (with_auth_rejected _ _ _ _ A) in E. discriminate E.
Qed.

Lemma auth_router_throw_keeps rq r db : db_users_inv db -> throw_keeps (auth_router rq r) db.
Proof.
  intros Hu. destruct r; cbn [auth_router].
  - apply register_throw_keeps. exact Hu.
  - apply login_throw_keeps. exact Hu.
  - apply with_auth_throw_keeps. intros u t _ e db' E. discriminate E.
  - apply with_auth_throw_keeps. intros u t A. apply logout_throw_keeps; [exact Hu|].
    exact (proj1 (proj2 (auth_Authed_inv_spec _ _ _ _ A))).
Qed.

Lemma task_router_throw_keeps o rq r db : throw_keeps (task_router o rq r) db.
Proof.
  destruct r as [| p | | p | p |]; cbn [task_router];
    [pose (p := EmptyString) | | pose (p := EmptyString) | | | pose (p := EmptyString)];
    destruct (task_handlers_throw_keeps o p (list_query (rq_query rq)) (rq_body rq) db)
      as (? & ? & ? & ? & ? & ?); assumption.
Qed.


Lemma app_throw_keeps rq db : db_users_inv db -> throw_keeps (app rq) db.
Proof.
  intros Hu. unfold app. destruct (rq_path rq) as [|a [|b rest]].
  - destruct (is_get (rq_method rq)); intros e db' E; discriminate E.
  - intros e db' E. discriminate E.
  - destruct (seg_is "api" a && seg_is "auth" b).
    { destruct (auth_route _ _); [apply auth_router_throw_keeps; exact Hu | intros e db' E; discriminate E]. }
    destruct (seg_is "api" a && seg_is "tasks" b).
    + apply with_auth_throw_keeps. intros u t _.
      destruct (task_route _ _); [apply task_router_throw_keeps | intros e db' E; discriminate E].
    + destruct (_ && _ && _); [destruct rest|]; intros e db' E; discriminate E.
Qed.

(** C17: no partial writes on failure (specification, section 7): from a
    database that satisfies the invariant, a request whose handler
    throws has written neither collection, and the error boundary
    answers it with [500] and a body that carries nothing of the
    error. *)
Theorem failure_writes_nothing rq db e db' :
  db_inv db -> app rq db = (inl e, db') ->
  db_users db' = db_users db /\ db_tasks db' = db_tasks db
  /\ handle rq db = (inr (mkResp 500 (BError "Internal server error")), db').
Proof.
  intros [Hu _] E. destruct (app_throw_keeps rq db Hu e db' E) as [U T].
  split; [exact U | split; [exact T|]]. unfold handle, rm_catch. rewrite E. reflexivity.
Qed.

(** C7: every reachable database satisfies the invariant: users satisfy
    the schema and hold only tokens that name them, [_id]s and e-mails
    are unique, task [_id]s are distinct and below the counter. *)
Theorem reachable_inv db : reachable db -> db_inv db.
Proof.
  induction 1 as [n now salt | db rq _ IH | db dt _ IH _].
  - apply db_inv_empty.
  - apply handle_inv. exact IH.
  - destruct IH as [Hu [Hf Hn]]. split; [exact Hu | split; [exact Hf | exact Hn]].
Qed.
(** C26: Joi's [email()] accepts a last label of four or more word
    characters, the schema's regular expression ([\.\w{2,3}] top-level
    domains) does not: for every body Joi accepts with such a new
    e-mail, [save()] throws and [POST /api/auth/register] is answered
    with [500] instead of a [400] validation error; no user is written. *)
Theorem register_long_tld_is_500 q hdr b db ri p w :
  validate_register b = inr ri -> find_by_email (ri_email ri) (db_users db) = None ->
  JsString.to_lower (ri_email ri) = (p ++ String "."%char w)%string ->
  (4 <= String.length w)%nat -> EmailRegex.all_word w = true ->
  fst (handle (mkReq POST ["api"; "auth"; "register"] q hdr b) db)
    = inr (mkResp 500 (BError "Internal server error"))
  /\ db_users (snd (handle (mkReq POST ["api"; "auth"; "register"] q hdr b) db)) = db_users db.
Proof.
  intros Hv Hf Hl Hlen Hw.
  destruct (register_long_tld_throws db b ri p w Hv Hf Hl Hlen Hw) as [(pa & m & E) Hu].
  unfold handle, rm_catch. change (app _) with (register b).
  destruct (register b db) as [r db'] eqn:R. cbn in E, Hu. subst r. split; [reflexivity | exact Hu].
Qed.
(** C25: bcrypt reads only the first 72 bytes of a password: for a
    stored user whose hash was made from [pw], a login whose password
    agrees with [pw] on its first 72 bytes answers [200] with a session
    the guard accepts, whatever its later bytes are. *)
Theorem login_accepts_72_byte_prefix db b li u pw salt :
  db_users_inv db -> validate_login b = inr li ->
  find_by_email (li_email li) (db_users db) = Some u -> u_password u = bc_hash pw salt ->
  bcrypt_key (li_password li) = bcrypt_key pw ->
  exists u' t db',
    login b db = (inr (mkResp 200 (BAuth "Login successful" (user_to_json u') t)), db')
    /\ auth db' (Some (bearer_prefix ++ t)) = Authed u' t /\ u_id u' = u_id u.
Proof.
  intros Hinv Hv Hf Hp Hk.
  assert (Hc : compare_password u (li_password li) = true)
    by (unfold compare_password; rewrite Hp, bc_compare_hash, Hk; apply String.eqb_refl).
  destruct (login_creates_session_spec db b li u Hinv Hv Hf Hc) as (u' & t & db' & L & A & _ & I).
  exists u', t, db'. split; [exact L | split; [exact A | exact I]].
Qed.

(** C23: tokens are signed from the user's [_id], e-mail and role and the
    issue second only: two successful logins of the same user whose
    clocks fall in the same second answer the same token string, and
    the logout of either session ends the other (the specification keeps
    the other devices' sessions). *)
Theorem same_second_logins_share_token db1 db2 b1 b2 li1 li2 u1 u2 j1 j2 t1 t2 db1' db2' :
  validate_login b1 = inr li1 -> validate_login b2 = inr li2 ->
  find_by_email (li_email li1) (db_users db1) = Some u1 ->
  find_by_email (li_email li2) (db_users db2) = Some u2 ->
  u_id u1 = u_id u2 -> u_email u1 = u_email u2 -> u_role u1 = u_role u2 ->
  (db_clock db1 / 1000 = db_clock db2 / 1000)%Z ->
  login b1 db1 = (inr (mkResp 200 (BAuth "Login successful" j1 t1)), db1') ->
  login b2 db2 = (inr (mkResp 200 (BAuth "Login successful" j2 t2)), db2') ->
  t1 = t2 /\
  (forall db u, db_users_inv db -> auth db (Some (bearer_prefix ++ t1)) = Authed u t1 ->
     auth (snd (logout u t1 db)) (Some (bearer_prefix ++ t2))
     = Rejected (mkResp 401 (BError "Token is not valid"))).
Proof.
  intros Hv1 Hv2 Hf1 Hf2 Hi He Hr Hs L1 L2.
  rewrite (login_token _ _ _ _ _ _ _ Hv1 Hf1 L1), (login_token _ _ _ _ _ _ _ Hv2 Hf2 L2), Hi, He, Hr.
  rewrite (jwt_issue_same_second _ _ _ _ _ Hs). split; [reflexivity|].
  intros db u Hinv Ha. destruct (logout_revokes_spec _ _ _ _ Hinv Ha) as (db' & -> & R & _). exact R.
Qed.

Lemma auth_router_keeps_users rq r db :
  db_users_inv db -> users_kept (db_users db) (db_users (snd (auth_router rq r db))).
Proof.
  intros Hu. destruct r; cbn [auth_router].
  - apply register_keeps_users. exact Hu.
  - apply login_keeps_users. exact Hu.
  - destruct (auth db (rq_auth rq)) eqn:A;
      [rewrite (with_auth_authed _ _ _ _ _ A) | rewrite (with_auth_rejected _ _ _ _ A)]; auto with api.
  - destruct (auth db (rq_auth rq)) eqn:A.
    + rewrite (with_auth_authed _ _ _ _ _ A). apply logout_keeps_users; [exact Hu|].
      exact (proj1 (proj2 (auth_Authed_inv_spec _ _ _ _ A))).
    + rewrite (with_auth_rejected _ _ _ _ A). auto with api.
Qed.

Lemma app_keeps_users rq db : db_inv db -> users_kept (db_users db) (db_users (snd (app rq db))).
Proof.
  intros Hi. unfold app. destruct (rq_path rq) as [|a [|b rest]].
  - destruct (is_get (rq_method rq)); auto with api.
  - auto with api.
  - destruct (seg_is "api" a && seg_is "auth" b).
    { destruct (auth_route _ _); [apply auth_router_keeps_users; apply Hi | auto with api]. }
    destruct (seg_is "api" a && seg_is "tasks" b).
    + unfold tasks_mount. destruct (auth db (rq_auth rq)) eqn:A.
      * rewrite (with_auth_authed _ _ _ _ _ A).
        destruct (task_route _ _); [|auto with api].
        destruct (task_router_frame (u_id u) rq t db (proj2 Hi)) as (_ & -> & _). auto with api.
      * rewrite (with_auth_rejected _ _ _ _ A). auto with api.
    + destruct (_ && _ && _); [destruct rest|]; auto with api.
Qed.

(** C21: a stored user is never removed and keeps its [_id], name,
    e-mail, password hash, role and creation date across every request;
    only its list of sessions changes: the [pre('save')] hook rehashes
    the password only when the path was modified, so the [save()]s of
    [login], [logout] and [generateAuthToken()] keep the hash. *)
Theorem users_keep_identity rq db u :
  db_inv db -> In u (db_users db) -> exists ts, In (set_tokens u ts) (db_users (snd (handle rq db))).
Proof.
  intros Hi Hu. assert (K : users_kept (db_users db) (db_users (snd (handle rq db)))).
  { unfold handle, rm_catch. pose proof (app_keeps_users rq db Hi) as Ka.
    destruct (app rq db) as [[e|r] db']; exact Ka. }
  exact (K u Hu).
Qed.

Lemma task_router_keeps_others o rq r db t :
  In t (db_tasks db) -> t_owner t <> o -> In t (db_tasks (snd (task_router o rq r db))).
Proof.
  intros Ht Hne.
  destruct r as [| p | | p | p |]; cbn [task_router];
    [pose (p := EmptyString) | | pose (p := EmptyString) | | | pose (p := EmptyString)];
    destruct (task_handlers_keep_others o p (list_query (rq_query rq)) (rq_body rq) db t Ht Hne)
      as (? & ? & ? & ? & ? & ?); assumption.
Qed.

Lemma auth_router_tasks rq r db : db_tasks (snd (auth_router rq r db)) = db_tasks db.
Proof.
  destruct r; cbn [auth_router].
  - exact (proj1 (register_tasks db _)).
  - exact (proj1 (login_tasks db _)).
  - destruct (auth db (rq_auth rq)) eqn:A;
      [rewrite (with_auth_authed _ _ _ _ _ A) | rewrite (with_auth_rejected _ _ _ _ A)]; reflexivity.
  - destruct (auth db (rq_auth rq)) eqn:A;
      [rewrite (with_auth_authed _ _ _ _ _ A); exact (proj1 (logout_tasks db _ _))
      | rewrite (with_auth_rejected _ _ _ _ A); reflexivity].
Qed.

(** C22: owner isolation across every request: a task of anyone but the
    user the guard authenticates (every task, for a request the guard
    does not admit) is still stored, unchanged, after the request,
    whatever its method, path, query and body. *)
Theorem others_tasks_untouched rq db t :
  In t (db_tasks db) ->
  (forall u tok, auth db (rq_auth rq) = Authed u tok -> t_owner t <> u_id u) ->
  In t (db_tasks (snd (handle rq db))).
Proof.
  intros Ht Ho. assert (Ha : In t (db_tasks (snd (app rq db)))).
  { unfold app. destruct (rq_path rq) as [|a [|b rest]].
    - destruct (is_get (rq_method rq)); exact Ht.
    - exact Ht.
    - destruct (seg_is "api" a && seg_is "auth" b).
      { destruct (auth_route _ _) as [r|]; [rewrite auth_router_tasks|]; exact Ht. }
      destruct (seg_is "api" a && seg_is "tasks" b).
      + unfold tasks_mount. destruct (auth db (rq_auth rq)) as [u tok|r] eqn:A.
        * rewrite (with_auth_authed _ _ _ _ _ A). destruct (task_route _ _); [|exact Ht].
          exact (task_router_keeps_others _ rq _ db t Ht (Ho u tok eq_refl)).
        * rewrite (with_auth_rejected _ _ _ _ A). exact Ht.
      + destruct (_ && _ && _); [destruct rest|]; exact Ht. }
  unfold handle, rm_catch. destruct (app rq db) as [[e|r] db']; exact Ha.
Qed.

(** C34: a second logout with the same token is refused: after a
    logout that the guard admits, the same header is answered [401 Token
    is not valid] and nothing is written (the specification makes the
    removal of an absent token a no-op, not an error). *)
Theorem second_logout_rejected db hdr u t q1 b1 q2 b2 :
  db_inv db -> auth db hdr = Authed u t ->
  let db' := snd (handle (mkReq POST ["api"; "auth"; "logout"] q1 hdr b1) db) in
  fst (handle (mkReq POST ["api"; "auth"; "logout"] q1 hdr b1) db)
    = inr (mkResp 200 (BMessage "Logged out successfully"))
  /\ handle (mkReq POST ["api"; "auth"; "logout"] q2 hdr b2) db'
    = (inr (mkResp 401 (BError "Token is not valid")), db').
Proof.
  intros [Hu _] A db'. unfold db'. clear db'.
  destruct (logout_revokes_spec db hdr u t Hu A) as (db1 & L & R & _).
  unfold handle, rm_catch. change (app (mkReq POST _ q1 hdr b1)) with (with_auth hdr logout).
  change (app (mkReq POST _ q2 hdr b2)) with (with_auth hdr logout).
  rewrite (with_auth_authed _ _ _ _ _ A), L. cbn [fst snd].
  split; [reflexivity|]. rewrite (with_auth_rejected _ _ _ _ R). reflexivity.
Qed.

End AppProps.

(** ** Witnesses and scenarios *)

Lemma tasks_guarded_witness :
  rq_path (rq_list None) = ["api"; "tasks"] /\ seg_is "api" "api" = true /\ seg_is "tasks" "tasks" = true
  /\ auth ex_db0 (rq_auth (rq_list None)) = Rejected (mkResp 401 (BError "No token, authorization denied"))
  /\ handle (rq_list None) ex_db0 = (inr (mkResp 401 (BError "No token, authorization denied")), ex_db0).
Proof.
  assert (P : rq_path (rq_list None) = ["api"; "tasks"]) by reflexivity.
  assert (A1 : seg_is "api" "api" = true) by reflexivity.
  assert (A2 : seg_is "tasks" "tasks" = true) by reflexivity.
  assert (R : auth ex_db0 (rq_auth (rq_list None))
              = Rejected (mkResp 401 (BError "No token, authorization denied"))) by reflexivity.
  refine (conj P (conj A1 (conj A2 (conj R _)))).
  exact (tasks_guarded _ _ _ _ _ _ P A1 A2 R).
Defined.

Lemma reachable_inv_witness :
  reachable (snd (handle (rq_register ann_body) ex_db0))
  /\ db_inv (snd (handle (rq_register ann_body) ex_db0)).
Proof.
  assert (R : reachable (snd (handle (rq_register ann_body) ex_db0))) by (apply reach_step, reach_init).
  split; [exact R | exact (reachable_inv _ R)].
Defined.

(** Ann registers with [long_pw1]. *)
Definition ex_db_long : Db :=
  snd (register [("name", JStr "Ann"); ("email", JStr "ann@ex.com"); ("password", JStr long_pw1)] ex_db0).

Lemma login_accepts_72_byte_prefix_witness :
  let b := [("email", JStr "ann@ex.com"); ("password", JStr long_pw2)] in
  let u := List.hd ex_user (db_users ex_db_long) in
  db_users_inv ex_db_long /\ validate_login b = inr (mkLogin "ann@ex.com" long_pw2)
  /\ find_by_email "ann@ex.com" (db_users ex_db_long) = Some u
  /\ u_password u = bc_hash long_pw1 7 /\ bcrypt_key long_pw2 = bcrypt_key long_pw1
  /\ long_pw2 <> long_pw1
  /\ exists u' t db',
    login b ex_db_long = (inr (mkResp 200 (BAuth "Login successful" (user_to_json u') t)), db')
    /\ auth db' (Some (bearer_prefix ++ t)) = Authed u' t /\ u_id u' = u_id u.
Proof.
  intros b u.
  assert (I : db_users_inv ex_db_long) by exact (register_preserves _ _ db_users_inv_ex_db0).
  assert (V : validate_login b = inr (mkLogin "ann@ex.com" long_pw2)) by (vm_compute; reflexivity).
  assert (F : find_by_email "ann@ex.com" (db_users ex_db_long) = Some u) by (vm_compute; reflexivity).
  assert (P : u_password u = bc_hash long_pw1 7) by (vm_compute; reflexivity).
  assert (K : bcrypt_key long_pw2 = bcrypt_key long_pw1) by (vm_compute; reflexivity).
  assert (D : long_pw2 <> long_pw1) by (vm_compute; discriminate).
  refine (conj I (conj V (conj F (conj P (conj K (conj D _)))))).
  exact (login_accepts_72_byte_prefix ex_db_long b _ u long_pw1 7 I V F P K).
Defined.

Lemma db_inv_ex_db1 : db_inv ex_db1.
Proof. split; [exact db_users_inv_ex_db1 | split; [intros t [] | constructor]]. Qed.

Lemma register_long_tld_is_500_witness :
  let b := [("name", JStr "Ann"); ("email", JStr "ann@ex.info"); ("password", JStr "secret1")] in
  validate_register b = inr (mkRegister "Ann" "ann@ex.info" "secret1")
  /\ find_by_email "ann@ex.info" (db_users ex_db0) = None
  /\ JsString.to_lower "ann@ex.info" = ("ann@ex" ++ String "."%char "info")%string
  /\ (4 <= String.length "info")%nat /\ EmailRegex.all_word "info" = true
  /\ fst (handle (mkReq POST ["api"; "auth"; "register"] [] None b) ex_db0)
       = inr (mkResp 500 (BError "Internal server error"))
  /\ db_users (snd (handle (mkReq POST ["api"; "auth"; "register"] [] None b) ex_db0)) = db_users ex_db0.
Proof.
  intros b.
  assert (V : validate_register b = inr (mkRegister "Ann" "ann@ex.info" "secret1")) by (vm_compute; reflexivity).
  assert (F : find_by_email "ann@ex.info" (db_users ex_db0) = None) by reflexivity.
  assert (L : JsString.to_lower "ann@ex.info" = ("ann@ex" ++ String "."%char "info")%string) by (vm_compute; reflexivity).
  assert (N : (4 <= String.length "info")%nat) by (simpl; lia).
  assert (W : EmailRegex.all_word "info" = true) by (vm_compute; reflexivity).
  refine (conj V (conj F (conj L (conj N (conj W _))))).
  exact (register_long_tld_is_500 [] None b ex_db0 _ "ann@ex" "info" V F L N W).
Defined.

(** ** Every response has the shape of its status *)

Section Shapes.
Context `{JwtScheme} `{PasswordHasher} `{JoiLib}.

Lemma auth_rejected_ok db hdr r : auth db hdr = Rejected r -> resp_ok r = true.
Proof.
  unfold auth. destruct (extract_token hdr); [|intros [= <-]; reflexivity].
  destruct (jwt_verify _ _); [|intros [= <-]; reflexivity].
  destruct (session_owner _ _ _); [discriminate | intros [= <-]; reflexivity].
Qed.

Lemma with_auth_ok hdr k db r db' :
  (forall u t db0 r0 db0', k u t db0 = (inr r0, db0') -> resp_ok r0 = true) ->
  with_auth hdr k db = (inr r, db') -> resp_ok r = true.
Proof.
  intros Hk. destruct (auth db hdr) eqn:A.
  - rewrite (with_auth_authed _ _ _ _ _ A). apply Hk.
  - rewrite (with_auth_rejected _ _ _ _ A). intros [= <- _]. exact (auth_rejected_ok _ _ _ A).
Qed.

Lemma auth_router_ok rq a db r db' : auth_router rq a db = (inr r, db') -> resp_ok r = true.
Proof.
  destruct a; cbn [auth_router].
  - unfold register. cbv beta iota zeta delta [rm_bind rm_get fresh_oid clock fresh_salt save_user
      gen_token respond rm_ret]. resp_cases.
  - unfold login. cbv beta iota zeta delta [rm_bind rm_get clock gen_token respond rm_ret
      invalid_credentials]. resp_cases.
  - apply with_auth_ok. intros u t db0 r0 db0' [= <- _]. reflexivity.
  - apply with_auth_ok. intros u t db0 r0 db0'.
    unfold logout, save_user, rm_bind, respond, rm_ret. resp_cases.
Qed.

Lemma task_router_ok o rq a db r db' : task_router o rq a db = (inr r, db') -> resp_ok r = true.
Proof.
  destruct a; cbn [task_router].
  - unfold list_tasks, rm_bind, rm_get, respond, rm_ret, rm_throw. cbv zeta. resp_cases.
  - unfold get_task, cast_id, rm_bind, rm_get, respond, rm_ret, rm_throw, not_found. resp_cases.
  - unfold create_task, clock, fresh_oid, rm_bind, rm_get, respond, rm_ret, rm_put, rm_throw. resp_cases.
  - unfold update_task, clock, cast_id, rm_bind, rm_get, respond, rm_ret, rm_put, rm_throw, not_found.
    resp_cases.
  - unfold delete_task, cast_id, rm_bind, rm_get, respond, rm_ret, rm_put, rm_throw, not_found.
    resp_cases.
  - intros [= <- _]. reflexivity.
Qed.

(** C40: the response shape: every request is answered with an error
    body [{ error }] and a 4xx/5xx status, or with a data body and 200 or
    201; no handler answers an error body with a success status or data
    with an error status. *)
Theorem handle_resp_ok rq db r db' : handle rq db = (inr r, db') -> resp_ok r = true.
Proof.
  unfold handle, rm_catch. destruct (app rq db) as [[e|r0] db0] eqn:A.
  { intros [= <- _]. reflexivity. }
  intros [= <- _]. revert A. unfold app. destruct (rq_path rq) as [|a [|b rest]].
  - destruct (is_get _); intros [= <- _]; reflexivity.
  - intros [= <- _]; reflexivity.
  - destruct (seg_is "api" a && seg_is "auth" b).
    { destruct (auth_route _ _); [apply auth_router_ok | intros [= <- _]; reflexivity]. }
    destruct (seg_is "api" a && seg_is "tasks" b).
    + unfold tasks_mount. apply with_auth_ok. intros u t db1 r1 db1'.
      destruct (task_route _ _); [apply task_router_ok | intros [= <- _]; reflexivity].
    + destruct (_ && _ && _); [destruct rest|]; intros [= <- _]; reflexivity.
Qed.
End Shapes.

Lemma handle_resp_ok_witness :
  handle (rq_register ann_body) ex_db0
    = (inr (match fst (handle (rq_register ann_body) ex_db0) with
            | inr r => r | inl _ => mkResp 500 (BError EmptyString) end),
       snd (handle (rq_register ann_body) ex_db0))
  /\ resp_ok (match fst (handle (rq_register ann_body) ex_db0) with
               | inr r => r | inl _ => mkResp 500 (BError EmptyString) end) = true.
Proof.
  assert (E : handle (rq_register ann_body) ex_db0
    = (inr (match fst (handle (rq_register ann_body) ex_db0) with
            | inr r => r | inl _ => mkResp 500 (BError EmptyString) end),
       snd (handle (rq_register ann_body) ex_db0))) by (vm_compute; reflexivity).
  split; [exact E | exact (handle_resp_ok _ _ _ _ E)].
Defined.

Lemma same_second_logins_share_token_witness :
  let db1 := ex_db1 in
  let db2 := with_users [set_tokens ann1 (u_tokens ann1 ++ [ex_token])] ex_db1 in
  let b1 := ann_login in
  let b2 := ann_login in
  let li1 := mkLogin "ann@ex.com" "secret1" in
  let li2 := mkLogin "ann@ex.com" "secret1" in
  let u1 := ann1 in
  let u2 := set_tokens ann1 (u_tokens ann1 ++ [ex_token]) in
  let j1 := user_to_json (set_tokens ann1 (u_tokens ann1 ++ [ex_token])) in
  let j2 := user_to_json (set_tokens ann1 (u_tokens ann1 ++ [ex_token; ex_token])) in
  let t1 := ex_token in
  let t2 := ex_token in
  let db1' := with_users [set_tokens ann1 (u_tokens ann1 ++ [ex_token])] ex_db1 in
  let db2' := with_users [set_tokens ann1 (u_tokens ann1 ++ [ex_token; ex_token])] ex_db1 in
  (validate_login b1 = inr li1) /\
  (validate_login b2 = inr li2) /\
  (find_by_email (li_email li1) (db_users db1) = Some u1) /\
  (find_by_email (li_email li2) (db_users db2) = Some u2) /\
  (u_id u1 = u_id u2) /\
  (u_email u1 = u_email u2) /\
  (u_role u1 = u_role u2) /\
  ((db_clock db1 / 1000 = db_clock db2 / 1000)%Z) /\
  (login b1 db1 = (inr (mkResp 200 (BAuth "Login successful" j1 t1)), db1')) /\
  (login b2 db2 = (inr (mkResp 200 (BAuth "Login successful" j2 t2)), db2')) /\
  (t1 = t2 /\
  (forall db u, db_users_inv db -> auth db (Some (bearer_prefix ++ t1)) = Authed u t1 ->
     auth (snd (logout u t1 db)) (Some (bearer_prefix ++ t2))
     = Rejected (mkResp 401 (BError "Token is not valid")))).
Proof.
  intros db1 db2 b1 b2 li1 li2 u1 u2 j1 j2 t1 t2 db1' db2'.
  assert (W0 : validate_login b1 = inr li1) by (vm_compute; reflexivity).
  assert (W1 : validate_login b2 = inr li2) by (vm_compute; reflexivity).
  assert (W2 : find_by_email (li_email li1) (db_users db1) = Some u1) by (vm_compute; reflexivity).
  assert (W3 : find_by_email (li_email li2) (db_users db2) = Some u2) by (vm_compute; reflexivity).
  assert (W4 : u_id u1 = u_id u2) by (vm_compute; reflexivity).
  assert (W5 : u_email u1 = u_email u2) by (vm_compute; reflexivity).
  assert (W6 : u_role u1 = u_role u2) by (vm_compute; reflexivity).
  assert (W7 : (db_clock db1 / 1000 = db_clock db2 / 1000)%Z) by (vm_compute; reflexivity).
  assert (W8 : login b1 db1 = (inr (mkResp 200 (BAuth "Login successful" j1 t1)), db1')) by (vm_compute; reflexivity).
  assert (W9 : login b2 db2 = (inr (mkResp 200 (BAuth "Login successful" j2 t2)), db2')) by (vm_compute; reflexivity).
  split; [exact W0|]. split; [exact W1|]. split; [exact W2|]. split; [exact W3|]. split; [exact W4|]. split; [exact W5|]. split; [exact W6|]. split; [exact W7|]. split; [exact W8|]. split; [exact W9|]. exact (same_second_logins_share_token db1 db2 b1 b2 li1 li2 u1 u2 j1 j2 t1 t2 db1' db2' W0 W1 W2 W3 W4 W5 W6 W7 W8 W9).
Defined.

Lemma failure_writes_nothing_witness :
  let rq := mkReq GET ["api"; "tasks"; "not-an-id"] [] ann_hdr [] in
  let db := ex_db1 in
  let e := ECast "not-an-id" in
  let db' := ex_db1 in
  (db_inv db) /\
  (app rq db = (inl e, db')) /\
  (db_users db' = db_users db /\ db_tasks db' = db_tasks db
  /\ handle rq db = (inr (mkResp 500 (BError "Internal server error")), db')).
Proof.
  intros rq db e db'.
  assert (W0 : db_inv db) by (exact db_inv_ex_db1).
  assert (W1 : app rq db = (inl e, db')) by (vm_compute; reflexivity).
  split; [exact W0|]. split; [exact W1|]. exact (failure_writes_nothing rq db e db' W0 W1).
Defined.

Lemma users_keep_identity_witness :
  let rq := rq_login ann_login in
  let db := ex_db1 in
  let u := ann1 in
  (db_inv db) /\
  (In u (db_users db)) /\
  (exists ts, In (set_tokens u ts) (db_users (snd (handle rq db)))).
Proof.
  intros rq db u.
  assert (W0 : db_inv db) by (exact db_inv_ex_db1).
  assert (W1 : In u (db_users db)) by (vm_compute; left; reflexivity).
  split; [exact W0|]. split; [exact W1|]. exact (users_keep_identity rq db u W0 W1).
Defined.

Lemma others_tasks_untouched_witness :
  let rq := mkReq DELETE ["api"; "tasks"; ObjectId.oid_to_hex 2] [] ann_hdr [] in
  let db := with_tasks [ex_task 2 5 "Other" Pending Medium] ex_db1 in
  let t := ex_task 2 5 "Other" Pending Medium in
  (In t (db_tasks db)) /\
  ((forall u tok, auth db (rq_auth rq) = Authed u tok -> t_owner t <> u_id u)) /\
  (In t (db_tasks (snd (handle rq db)))).
Proof.
  intros rq db t.
  assert (W0 : In t (db_tasks db)) by (vm_compute; left; reflexivity).
  assert (W1 : (forall u tok, auth db (rq_auth rq) = Authed u tok -> t_owner t <> u_id u)) by (intros u tok A; vm_compute in A; injection A as <- _; vm_compute; intros E; discriminate E).
  split; [exact W0|]. split; [exact W1|]. exact (others_tasks_untouched rq db t W0 W1).
Defined.

Lemma second_logout_rejected_witness :
  let db := ex_db1 in
  let hdr := ann_hdr in
  let u := ann1 in
  let t := ex_token in
  let q1 := [] in
  let b1 := [] in
  let q2 := [] in
  let b2 := [] in
  (db_inv db) /\
  (auth db hdr = Authed u t) /\
  (let db' := snd (handle (mkReq POST ["api"; "auth"; "logout"] q1 hdr b1) db) in
  fst (handle (mkReq POST ["api"; "auth"; "logout"] q1 hdr b1) db)
    = inr (mkResp 200 (BMessage "Logged out successfully"))
  /\ handle (mkReq POST ["api"; "auth"; "logout"] q2 hdr b2) db'
    = (inr (mkResp 401 (BError "Token is not valid")), db')).
Proof.
  intros db hdr u t q1 b1 q2 b2.
  assert (W0 : db_inv db) by (exact db_inv_ex_db1).
  assert (W1 : auth db hdr = Authed u t) by (vm_compute; reflexivity).
  split; [exact W0|]. split; [exact W1|]. exact (second_logout_rejected db hdr u t q1 b1 q2 b2 W0 W1).
Defined.
