(* ===== verification/Sessions.v ===== *)
(** * The session store the service implements

    The specification's core is a store of active sessions: pairs of a
    user [_id] and a token, opened by register and login, closed by
    logout, consulted by the guard.  The code keeps no such store: the
    sessions are the [tokens] arrays of the user documents
    ([src/unnamed/part_002] lines 35-40, written by [generateAuthToken]
    and by the logout route, read by the guard's
    [User.findOne({ _id, 'tokens.token' })]).

    This file states the store abstractly, as a transition system on a
    finite set of sessions (stdpp's [gset]) whose labels are [Open],
    [Close] and the stutter [None], and proves that the service refines
    it:
    - [abs_sessions] is the abstraction function: the set of pairs
      [(u_id u, t)] for every stored user [u] and token [t] in its list;
    - every request handled by [Server.handle] moves the abstract store by
      one label: [Open] only for register and login, with a token that
      names the user, [Close] only for a logout, of the very session the
      guard authenticated, and [None] for every other request (the task
      routes, [me], errors, unknown routes);
    - the guard accepts a token exactly when jwt.verify accepts it and the
      session it names is in the abstract store;
    - every reachable database abstracts to a reachable state of the
      abstract machine. *)

From Stdlib Require Import ZArith NArith Lia String List Bool.
From stdpp Require Import base list gmap strings.
From S2P Require Import Prelude JsString Crypto Store UserModel TaskModel Joi Db AuthMiddleware AuthRoutes TaskRoutes Server.

(** ** The abstract store *)

Notation Session := (N * string)%type.

(** The sessions held by one user document. *)
Definition user_sessions (u : User) : gset Session :=
  list_to_set (List.map (fun t => (u_id u, t)) (u_tokens u)).

Definition sessions_of (us : list User) : gset Session :=
  list_to_set (List.flat_map (fun u => List.map (fun t => (u_id u, t)) (u_tokens u)) us).

(** The abstraction function. *)
Definition abs_sessions (db : Db) : gset Session := sessions_of (db_users db).

Inductive SessEvent := Open (id : N) (t : string) | Close (id : N) (t : string).

(** A step of the abstract store; [None] is a stutter step. *)
Definition sess_apply (l : option SessEvent) (S : gset Session) : gset Session :=
  match l with
  | None => S
  | Some (Open i t) => {[ (i, t) ]} ∪ S
  | Some (Close i t) => S ∖ {[ (i, t) ]}
  end.

Section Spec.
Context `{JwtScheme} `{PasswordHasher} `{JoiLib}.

(** The guard of a label: a session is opened with a token that names its
    user, and only an open session is closed. *)
Definition sess_valid (l : option SessEvent) (S : gset Session) : Prop :=
  match l with
  | None => True
  | Some (Open i t) => token_of i t
  | Some (Close i t) => (i, t) ∈ S
  end.

Inductive sess_reachable : gset Session -> Prop :=
  | sess_init : sess_reachable ∅
  | sess_step l S : sess_reachable S -> sess_valid l S -> sess_reachable (sess_apply l S).

(** The authentication route a request is routed to by [app]. *)
Definition auth_request (rq : Request) : option AuthRoute :=
  match rq_path rq with
  | a :: b :: rest => if seg_is "api" a && seg_is "auth" b then auth_route (rq_method rq) rest else None
  | _ => None
  end.

(** Which label a request may take: opening for register and login,
    closing the authenticated session for logout, stuttering otherwise. *)
Definition request_label (rq : Request) (db : Db) (l : option SessEvent) : Prop :=
  match l with
  | None => True
  | Some (Open i t) => token_of i t /\ (auth_request rq = Some RRegister \/ auth_request rq = Some RLogin)
  | Some (Close i t) =>
      auth_request rq = Some RLogout /\ exists u, auth db (rq_auth rq) = Authed u t /\ u_id u = i
  end.
End Spec.

(** ** The abstraction function *)

(** Swapping a subset [A] of [B] for [C ∪ A], or for [A] less one of its
    elements. *)
Lemma union_difference_sub (A B C : gset Session) : A ⊆ B -> (B ∖ A) ∪ (C ∪ A) = C ∪ B.
Proof. intros Hs. apply set_eq. intros x. destruct (decide (x ∈ A)); set_solver. Qed.

Lemma union_difference_remove (A B : gset Session) p :
  A ⊆ B -> p ∈ A -> (B ∖ A) ∪ (A ∖ {[ p ]}) = B ∖ {[ p ]}.
Proof. intros Hs Hp. apply set_eq. intros x. destruct (decide (x ∈ A)); set_solver. Qed.

Lemma elem_of_user_sessions i s u : (i, s) ∈ user_sessions u <-> i = u_id u /\ In s (u_tokens u).
Proof.
  unfold user_sessions. rewrite elem_of_list_to_set, list_elem_of_In, List.in_map_iff.
  split; [intros (t & [= <- <-] & Ht); auto | intros [-> Hs]; eauto].
Qed.

Lemma elem_of_sessions_of p us : p ∈ sessions_of us <-> exists u, In u us /\ p ∈ user_sessions u.
Proof.
  unfold sessions_of, user_sessions. rewrite elem_of_list_to_set, list_elem_of_In, List.in_flat_map.
  setoid_rewrite elem_of_list_to_set. setoid_rewrite list_elem_of_In. reflexivity.
Qed.

Lemma sessions_of_app us1 us2 : sessions_of (us1 ++ us2) = sessions_of us1 ∪ sessions_of us2.
Proof. unfold sessions_of. rewrite List.flat_map_app, list_to_set_app_L. reflexivity. Qed.

Lemma sessions_of_single u : sessions_of [u] = user_sessions u.
Proof. unfold sessions_of, user_sessions. simpl. rewrite List.app_nil_r. reflexivity. Qed.

Lemma user_sessions_sub u us : In u us -> user_sessions u ⊆ sessions_of us.
Proof. intros Hu p Hp. apply elem_of_sessions_of. eauto. Qed.

Lemma user_sessions_nil u : u_tokens u = [] -> user_sessions u = ∅.
Proof. unfold user_sessions. intros ->. reflexivity. Qed.

Lemma user_sessions_append u t :
  user_sessions (set_tokens u (u_tokens u ++ [t])) = {[ (u_id u, t) ]} ∪ user_sessions u.
Proof.
  unfold user_sessions. cbn [set_tokens u_id u_tokens].
  rewrite List.map_app, list_to_set_app_L. simpl. set_solver.
Qed.

Lemma user_sessions_revoke u t :
  user_sessions (set_tokens u (revoke t (u_tokens u))) = user_sessions u ∖ {[ (u_id u, t) ]}.
Proof.
  apply set_eq. intros [i s]. rewrite elem_of_difference, elem_of_singleton, !elem_of_user_sessions.
  cbn [set_tokens u_id u_tokens]. rewrite in_revoke. split.
  - intros (-> & Hs & Hne). split; [auto | congruence].
  - intros [[-> Hs] Hne]. split; [reflexivity|]. split; [exact Hs|]. congruence.
Qed.

(** Replacing a stored user by a document with the same [_id] swaps its
    sessions, and no other. *)
Lemma sessions_of_replace us u u' :
  List.NoDup (List.map doc_id us) -> In u us -> u_id u' = u_id u ->
  sessions_of (replace_doc u' us) = (sessions_of us ∖ user_sessions u) ∪ user_sessions u'.
Proof.
  intros Hnd Hu Hid. apply set_eq. intros [i s].
  rewrite elem_of_union, elem_of_difference, !elem_of_sessions_of. split.
  - intros (x & Hx & Hp). apply in_replace_doc in Hx as [->|[Hx Hne]]; [right; exact Hp|].
    left. split; [eauto|]. intros Hq. apply elem_of_user_sessions in Hq as [-> _].
    apply elem_of_user_sessions in Hp as [Hi _]. apply Hne. change (u_id x = u_id u'). congruence.
  - intros [[(x & Hx & Hp) Hn] | Hp].
    + exists x. split; [|exact Hp]. apply in_replace_doc_other; [exact Hx|]. intros E.
      assert (x = u) as -> by (apply (NoDup_map_eq doc_id us); auto; change (u_id x = u_id u); change (u_id x = u_id u') in E; congruence).
      exact (Hn Hp).
    + exists u'. split; [|exact Hp]. apply (in_replace_doc_new u' us u Hu). change (u_id u = u_id u'). congruence.
Qed.

Lemma abs_sessions_users db db' : db_users db' = db_users db -> abs_sessions db' = abs_sessions db.
Proof. unfold abs_sessions. intros ->. reflexivity. Qed.



(** ** How each handler moves the abstract store *)

Section Steps.
Context `{JwtScheme} `{PasswordHasher} `{JoiLib}.

Lemma user_save_tokens is_new s sel u c u' c' :
  user_save is_new s sel u c = inr (u', c') -> u_tokens u' = u_tokens u.
Proof.
  unfold user_save. destruct (user_validate sel u); [discriminate|].
  destruct (email_taken _ c); [discriminate|]. intros [= <- _]. destruct s; reflexivity.
Qed.
(** Appending a token to a stored user opens exactly that session. *)
Lemma sessions_of_token n c u t :
  users_inv n c -> In u c ->
  sessions_of (replace_doc (set_tokens u (u_tokens u ++ [t])) c) = {[ (u_id u, t) ]} ∪ sessions_of c.
Proof.
  intros Hinv Hu. rewrite (sessions_of_replace c u) by (auto; apply (proj2 Hinv)).
  rewrite user_sessions_append. apply union_difference_sub, user_sessions_sub, Hu.
Qed.

Lemma generate_auth_token_sessions n c u now :
  users_inv n c -> In u c ->
  exists t u' c', generate_auth_token now u c = inr (t, u', c')
    /\ token_of (u_id u) t /\ users_inv n c' /\ sessions_of c' = {[ (u_id u, t) ]} ∪ sessions_of c.
Proof.
  intros Hinv Hu. destruct (generate_auth_token_ok_spec _ _ u now Hinv Hu) as [G Hi].
  set (t := jwt_issue _ _ _ _) in G, Hi. set (u' := set_tokens u _) in G, Hi.
  exists t, u', (replace_doc u' c). split; [exact G|]. split; [apply token_of_issue|]. split; [exact Hi|].
  unfold u'. apply (sessions_of_token n); [exact Hinv | exact Hu].
Qed.

Lemma register_sessions db b :
  db_users_inv db ->
  abs_sessions (snd (register b db)) = abs_sessions db
  \/ exists t, token_of (db_next_oid db) t
       /\ abs_sessions (snd (register b db)) = {[ (db_next_oid db, t) ]} ∪ abs_sessions db.
Proof.
  intros Hinv. unfold register.
  destruct (validate_register b) as [e|ri]; [left; reflexivity|].
  cbv beta iota zeta delta [rm_bind rm_get fresh_oid clock fresh_salt save_user gen_token
                             respond rm_ret].
  destruct (find_by_email (ri_email ri) (db_users db)); [left; reflexivity|].
  cbn [db_users db_clock db_next_oid db_salt].
  set (u0 := new_user _ _ _ _ _).
  destruct (user_save true (Some (db_salt db)) true u0 (db_users db)) as [e|[u1 us1]] eqn:S;
    [left; reflexivity|].
  pose proof (user_save_tokens _ _ _ _ _ _ _ S) as Tk.
  destruct (user_save_new_inv _ _ u0 _ _ _ Hinv eq_refl eq_refl S) as (Hi & -> & Hid).
  cbn [with_users db_users db_clock db_next_oid].
  assert (Hu1 : In u1 (db_users db ++ [u1])%list) by (apply List.in_or_app; right; left; reflexivity).
  destruct (generate_auth_token_sessions _ _ u1 (db_clock db) Hi Hu1) as (t & u2 & c2 & G & Ht & _ & Hs).
  rewrite G. right. exists t. rewrite <- Hid. split; [exact Ht|].
  unfold abs_sessions. cbn [snd with_users db_users]. rewrite Hs, sessions_of_app, sessions_of_single.
  rewrite user_sessions_nil by exact Tk. clear. set_solver.
Qed.

Lemma login_sessions db b :
  db_users_inv db ->
  abs_sessions (snd (login b db)) = abs_sessions db
  \/ exists i t, token_of i t /\ abs_sessions (snd (login b db)) = {[ (i, t) ]} ∪ abs_sessions db.
Proof.
  intros Hinv. unfold login.
  destruct (validate_login b) as [e|li]; [left; reflexivity|].
  cbv beta iota zeta delta [rm_bind rm_get clock gen_token respond rm_ret invalid_credentials].
  destruct (find_by_email (li_email li) (db_users db)) as [u|] eqn:Hf; [|left; reflexivity].
  destruct (compare_password u (li_password li)); [|left; reflexivity].
  pose proof (proj1 (find_one_Some _ _ _ Hf)) as Hu.
  destruct (generate_auth_token_sessions _ _ u (db_clock db) Hinv Hu) as (t & u2 & c2 & G & Ht & _ & Hs).
  rewrite G. right. exists (u_id u), t. split; [exact Ht|]. exact Hs.
Qed.

Lemma logout_sessions db u t :
  db_users_inv db -> In u (db_users db) -> In t (u_tokens u) ->
  abs_sessions (snd (logout u t db)) = abs_sessions db ∖ {[ (u_id u, t) ]}.
Proof.
  intros Hinv Hu Ht. rewrite logout_step by assumption.
  unfold abs_sessions. cbn [snd with_users db_users].
  rewrite (sessions_of_replace _ u) by (auto; apply (proj2 Hinv)).
  rewrite user_sessions_revoke.
  assert (H2 : (u_id u, t) ∈ user_sessions u) by (apply elem_of_user_sessions; auto).
  apply union_difference_remove; [apply user_sessions_sub; exact Hu | exact H2].
Qed.
End Steps.

(** ** The service refines the abstract store *)

Section Refinement.
Context `{JwtScheme} `{PasswordHasher} `{JoiLib}.

Lemma handle_snd rq db : snd (handle rq db) = snd (app rq db).
Proof. unfold handle, rm_catch. destruct (app rq db) as [[e|r] db']; reflexivity. Qed.

Lemma app_sessions_step rq db :
  db_inv db ->
  exists l, request_label rq db l /\ sess_valid l (abs_sessions db)
    /\ abs_sessions (snd (app rq db)) = sess_apply l (abs_sessions db).
Proof.
  intros Hi. pose proof (proj1 Hi) as Hu.
  assert (Stut : forall db', abs_sessions db' = abs_sessions db ->
    exists l, request_label rq db l /\ sess_valid l (abs_sessions db)
      /\ abs_sessions db' = sess_apply l (abs_sessions db))
    by (intros db' E; exists None; split; [exact I | split; [exact I | exact E]]).
  unfold app. destruct (rq_path rq) as [|a [|b rest]] eqn:P.
  - destruct (is_get (rq_method rq)); apply Stut; reflexivity.
  - apply Stut; reflexivity.
  - destruct (seg_is "api" a && seg_is "auth" b) eqn:A.
    + destruct (auth_route (rq_method rq) rest) as [r|] eqn:R; [|apply Stut; reflexivity].
      assert (AR : auth_request rq = Some r) by (unfold auth_request; rewrite P, A; exact R).
      destruct r; cbn [auth_router].
      * destruct (register_sessions db (rq_body rq) Hu) as [E|(t & Ht & E)]; [apply Stut, E|].
        exists (Some (Open (db_next_oid db) t)). split; [split; [exact Ht | left; exact AR]|].
        split; [exact Ht | exact E].
      * destruct (login_sessions db (rq_body rq) Hu) as [E|(i & t & Ht & E)]; [apply Stut, E|].
        exists (Some (Open i t)). split; [split; [exact Ht | right; exact AR]|].
        split; [exact Ht | exact E].
      * destruct (auth db (rq_auth rq)) eqn:Au.
        -- rewrite (with_auth_authed _ _ _ _ _ Au). apply Stut. reflexivity.
        -- rewrite (with_auth_rejected _ _ _ _ Au). apply Stut. reflexivity.
      * destruct (auth db (rq_auth rq)) eqn:Au.
        -- rewrite (with_auth_authed _ _ _ _ _ Au).
           pose proof (auth_Authed_inv_spec _ _ _ _ Au) as (_ & Hin & Ht & _).
           exists (Some (Close (u_id u) token)). split; [split; [exact AR | exists u; split; [exact Au | reflexivity]]|].
           split; [apply elem_of_sessions_of; exists u; split; [exact Hin | apply elem_of_user_sessions; auto]|].
           apply logout_sessions; assumption.
        -- rewrite (with_auth_rejected _ _ _ _ Au). apply Stut. reflexivity.
    + destruct (seg_is "api" a && seg_is "tasks" b).
      * unfold tasks_mount. destruct (auth db (rq_auth rq)) eqn:Au.
        -- rewrite (with_auth_authed _ _ _ _ _ Au). destruct (task_route _ _) as [r|]; [|apply Stut; reflexivity].
           apply Stut, abs_sessions_users. apply (task_router_frame (u_id u) rq r db (proj2 Hi)).
        -- rewrite (with_auth_rejected _ _ _ _ Au). apply Stut. reflexivity.
      * destruct (_ && _ && _); [destruct rest|]; apply Stut; reflexivity.
Qed.

(** C33: refinement, step by step: under the invariant, every request
    moves the abstract session store by one step of the abstract machine:
    a session is opened only by register or login, with a token that
    names its user; a session is closed only by logout, and it is the
    session the guard authenticated; every other request, whatever it
    writes or throws, stutters. *)
Theorem handle_refines_sessions rq db :
  db_inv db ->
  exists l, request_label rq db l /\ sess_valid l (abs_sessions db)
    /\ abs_sessions (snd (handle rq db)) = sess_apply l (abs_sessions db).
Proof. intros Hi. rewrite handle_snd. exact (app_sessions_step rq db Hi). Qed.

(** Refinement of runs: the sessions of every reachable database
    form a reachable state of the abstract machine. *)
Theorem reachable_sessions db : reachable db -> sess_reachable (abs_sessions db).
Proof.
  intros R. cut (db_inv db /\ sess_reachable (abs_sessions db)); [tauto|].
  induction R as [n now salt | db rq _ [Hi IH] | db dt _ [Hi IH] _].
  - split; [apply db_inv_empty | constructor].
  - split; [apply handle_inv, Hi|]. rewrite handle_snd.
    destruct (app_sessions_step rq db Hi) as (l & _ & Hv & ->). constructor; assumption.
  - split; [|exact IH]. destruct Hi as [Hu [Hf Hn]]. split; [exact Hu | split; [exact Hf | exact Hn]].
Qed.

(** C35: the guard decides the abstract sessions: for a token extracted
    from the header, the guard admits the request exactly when jwt.verify
    accepts the token and the session it names is in the store. *)
Theorem auth_iff_session db hdr t :
  db_users_inv db -> extract_token hdr = Some t ->
  (exists u, auth db hdr = Authed u t)
  <-> exists c, jwt_verify t (db_clock db) = Some c /\ (cl_id c, t) ∈ abs_sessions db.
Proof.
  intros Hinv Ex. split.
  - intros (u & Au). pose proof (auth_Authed_inv_spec _ _ _ _ Au) as (_ & Hin & Ht & c & V & Hc).
    exists c. split; [exact V|]. apply elem_of_sessions_of. exists u. split; [exact Hin|].
    apply elem_of_user_sessions. auto.
  - intros (c & V & Hs). apply elem_of_sessions_of in Hs as (u & Hin & Hp).
    apply elem_of_user_sessions in Hp as [Hc Ht]. exists u.
    apply (auth_accepts db hdr t c u Ex V). apply session_owner_unique; auto. apply (proj2 Hinv).
Qed.
End Refinement.

(** ** Witnesses *)

Lemma handle_refines_sessions_witness :
  db_inv ex_db0 /\
  exists l, request_label (rq_register ann_body) ex_db0 l /\ sess_valid l (abs_sessions ex_db0)
    /\ abs_sessions (snd (handle (rq_register ann_body) ex_db0)) = sess_apply l (abs_sessions ex_db0).
Proof.
  assert (I : db_inv ex_db0) by apply db_inv_empty.
  split; [exact I | exact (handle_refines_sessions _ _ I)].
Defined.

Lemma auth_iff_session_witness :
  db_users_inv ex_db1 /\ extract_token ann_hdr = Some ex_token /\
  ((exists u, auth ex_db1 ann_hdr = Authed u ex_token)
   <-> exists c, jwt_verify ex_token (db_clock ex_db1) = Some c /\ (cl_id c, ex_token) ∈ abs_sessions ex_db1).
Proof.
  assert (E : extract_token ann_hdr = Some ex_token) by (vm_compute; reflexivity).
  split; [exact db_users_inv_ex_db1 | split; [exact E | exact (auth_iff_session _ _ _ db_users_inv_ex_db1 E)]].
Defined.
