(* ===== verification/Interleaving.v ===== *)
(** * Interleaved requests

    Node runs the handlers concurrently: a handler suspends at every
    [await], and the other requests' database operations run in between.
    [Server.handle] treats a request as one atomic transition; this file
    models the handlers that write the [users] collection at the
    granularity of their awaited operations, as threads stepping against a
    shared database, and proves that the interleavings still refine the
    abstract session store of [Sessions].

    - [src/routes/auth.js] register: [User.findOne({ email })] (line 33),
      then [user.save()] of the new user (line 40, the unique e-mail index
      is checked there), then [user.generateAuthToken()] (line 43), whose
      [this.save()] writes the [tokens] array ([src/unnamed/part_002]
      lines 71-72);
    - login: [User.findOne({ email })] (line 69) with [comparePassword],
      then [generateAuthToken()] on the loaded document (line 81);
    - logout: the guard's [User.findOne] ([src/middleware/auth.js] line
      21) loads [req.user], then [req.user.save()] (line 106);
    - every other request (the task routes, [me], the probes) writes only
      the [tasks] collection or nothing, and stays one atomic step.

    A saved user document was loaded earlier and its [tokens] array was
    reassigned: Mongoose then versions the update ([$set] of an array
    increments [__v]): the filter holds [__v] as loaded and the update
    increments it, so a save from a stale copy matches no document and
    throws a [VersionError].  The versions are kept beside the database
    ([VDb]); an in-flight thread holds the copy it loaded with its
    version.

    A run is a list of events: a request arrives (its thread joins the
    pool), thread [i] takes one step, or the clock advances. *)

From Stdlib Require Import ZArith NArith Lia String List Bool.
From stdpp Require Import base list gmap strings.
From S2P Require Import Prelude JsString Crypto Store UserModel TaskModel Joi Db AuthMiddleware AuthRoutes TaskRoutes Server Sessions.

Local Open Scope string_scope.
Local Open Scope rm_scope.

(** ** The versioned database *)

(** The database with the [__v] key of every user document. *)
Record VDb := mkVDb { vd_db : Db; vd_ver : gmap N N }.

(** [doc.__v] of the user with this [_id]. *)
Definition version (d : VDb) (id : N) : N := default 0%N (vd_ver d !! id).

Definition with_db (db : Db) (d : VDb) : VDb := mkVDb db (vd_ver d).

(** What the client receives for a handler outcome: a thrown error
    reaches [errorHandler]. *)
Definition answer (r : DbError + Response) : Response :=
  match r with inr x => x | inl _ => mkResp 500 (BError "Internal server error") end.

(** ** Threads

    An in-flight request, at the await it is suspended on. *)
Inductive Thread :=
  | TRegister (b : Body)                          (** before [User.findOne({ email })] *)
  | TRegisterSave (ri : RegisterInput)            (** before [user.save()] of the new user *)
  | TRegisterToken (u : User) (v : N)             (** before [generateAuthToken()] *)
  | TLogin (b : Body)                             (** before [User.findOne({ email })] *)
  | TLoginToken (u : User) (v : N)                (** password matched, before [generateAuthToken()] *)
  | TLogout (hdr : option string)                 (** before the guard's [User.findOne] *)
  | TLogoutSave (u : User) (v : N) (t : string)   (** [req.user] loaded, before [req.user.save()] *)
  | TAtomic (rq : Request)                        (** any other request *)
  | TDone (r : Response).

(** A request arriving: [app]'s dispatch. *)
Definition start (rq : Request) : Thread :=
  match auth_request rq with
  | Some RRegister => TRegister (rq_body rq)
  | Some RLogin => TLogin (rq_body rq)
  | Some RLogout => TLogout (rq_auth rq)
  | _ => TAtomic rq
  end.

Section Threads.
Context `{JwtScheme} `{PasswordHasher} `{JoiLib}.

(** [const token = await user.generateAuthToken()] and what the handler
    does with the token and the saved user. *)
Definition with_token (u : User) (k : string -> User -> M Response) : M Response :=
  now <- clock ;;
  '(token, u2) <- gen_token now u ;;
  k token u2.

(** The rest of the register handler from [generateAuthToken()]. *)
Definition register_tail (u1 : User) : M Response :=
  with_token u1 (fun token u2 =>
    respond 201 (BAuth "User registered successfully" (user_to_json u2) token)).

(** The rest of the login handler from [generateAuthToken()]. *)
Definition login_tail (u : User) : M Response :=
  with_token u (fun token u2 => respond 200 (BAuth "Login successful" (user_to_json u2) token)).

(** [save()] of the copy [u] loaded at version [v], followed by the rest
    [m] of the handler, whose only write is that save: the filter holds
    [__v: v], and a matched update increments [__v]. *)
Definition versioned (u : User) (v : N) (m : M Response) (d : VDb) : Thread * VDb :=
  if N.eqb (version d (u_id u)) v then
    match m (vd_db d) with
    | (inr r, db') => (TDone r, mkVDb db' (<[u_id u := N.succ v]> (vd_ver d)))
    | (inl e, db') => (TDone (answer (inl e)), with_db db' d)
    end
  else (TDone (answer (inl (EVersion (u_id u)))), d).

(** One step of a thread: the code from one await to the next. *)
Definition step (th : Thread) (d : VDb) : Thread * VDb :=
  let db := vd_db d in
  match th with
  | TRegister b =>
      match validate_register b with
      | inl e => (TDone (mkResp 400 (BError (joi_message e))), d)
      | inr ri =>
          match find_by_email (ri_email ri) (db_users db) with
          | Some _ => (TDone (mkResp 400 (BError "User already exists with this email")), d)
          | None => (TRegisterSave ri, d)
          end
      end
  | TRegisterSave ri =>
      match (id <- fresh_oid ;;
             now <- clock ;;
             salt <- fresh_salt ;;
             save_user true (Some salt) true
               (new_user id now (ri_name ri) (ri_email ri) (ri_password ri))) db with
      | (inl e, db') => (TDone (answer (inl e)), with_db db' d)
      | (inr u1, db') => (TRegisterToken u1 0, mkVDb db' (<[u_id u1 := 0%N]> (vd_ver d)))
      end
  | TRegisterToken u v => versioned u v (register_tail u) d
  | TLogin b =>
      match validate_login b with
      | inl e => (TDone (mkResp 400 (BError (joi_message e))), d)
      | inr li =>
          match find_by_email (li_email li) (db_users db) with
          | None => (TDone (mkResp 401 (BError "Invalid credentials")), d)
          | Some u =>
              if compare_password u (li_password li) then (TLoginToken u (version d (u_id u)), d)
              else (TDone (mkResp 401 (BError "Invalid credentials")), d)
          end
      end
  | TLoginToken u v => versioned u v (login_tail u) d
  | TLogout hdr =>
      match auth db hdr with
      | Rejected r => (TDone r, d)
      | Authed u t => (TLogoutSave u (version d (u_id u)) t, d)
      end
  | TLogoutSave u v t => versioned u v (logout u t) d
  | TAtomic rq => let '(r, db') := handle rq db in (TDone (answer r), with_db db' d)
  | TDone r => (TDone r, d)
  end.

(** ** Interleavings *)

Record Conc := mkConc { c_db : VDb; c_pool : list Thread }.

Inductive Event := Arrive (rq : Request) | Run (i : nat) | Tick (dt : Z).

(** Thread [i] steps (an index out of the pool is no step). *)
Definition run_thread (i : nat) (c : Conc) : Conc :=
  match c_pool c !! i with
  | Some th => let '(th', d') := step th (c_db c) in mkConc d' (<[i := th']> (c_pool c))
  | None => c
  end.

Definition tick (dt : Z) (d : VDb) : VDb :=
  let db := vd_db d in
  with_db (mkDb (db_users db) (db_tasks db) (db_next_oid db) (db_clock db + dt) (db_salt db)) d.

Definition conc_step (e : Event) (c : Conc) : Conc :=
  match e with
  | Arrive rq => mkConc (c_db c) (c_pool c ++ [start rq])
  | Run i => run_thread i c
  | Tick dt => mkConc (tick dt (c_db c)) (c_pool c)
  end.

Definition conc_run (es : list Event) (c : Conc) : Conc := fold_left (fun c e => conc_step e c) es c.

(** [n] steps of one thread with no other thread in between. *)
Fixpoint run_alone (n : nat) (th : Thread) (d : VDb) : Thread * VDb :=
  match n with
  | O => (th, d)
  | S n' => let '(th', d') := step th d in run_alone n' th' d'
  end.

Definition event_ok (e : Event) : Prop := match e with Tick dt => (0 <= dt)%Z | _ => True end.

Inductive creachable : Conc -> Prop :=
  | creach_init n now salt : creachable (mkConc (mkVDb (mkDb [] [] n now salt) ∅) [])
  | creach_step e c : creachable c -> event_ok e -> creachable (conc_step e c).
End Threads.

(** ** Example runs

    Ann registers on the empty database ([c_ann]): her request arrives
    and its thread takes its three steps. *)

Definition c_empty : Conc := mkConc (mkVDb ex_db0 ∅) [].
Definition ann_registers : list Event := [Arrive (rq_register ann_body); Run 0; Run 0; Run 0].
Definition c_ann : Conc := conc_run ann_registers c_empty.

(** ** What an interleaving keeps *)

Section InvariantDefs.
Context `{JwtScheme} `{PasswordHasher} `{JoiLib}.

(** The abstract session store of a versioned database. *)
Definition abs (d : VDb) : gset Session := abs_sessions (vd_db d).

(** A copy [u] loaded at version [v]: its version has not gone back, it is
    the stored document while the version is unchanged, and a user with
    its [_id] is stored. *)
Definition snap_ok (d : VDb) (u : User) (v : N) : Prop :=
  (v <= version d (u_id u))%N /\
  (version d (u_id u) = v -> In u (db_users (vd_db d))) /\
  exists u0, In u0 (db_users (vd_db d)) /\ u_id u0 = u_id u.

(** What an in-flight thread may assume of the database. *)
Definition thread_ok (d : VDb) (th : Thread) : Prop :=
  match th with
  | TRegisterToken u v | TLoginToken u v => snap_ok d u v
  | TLogoutSave u v t => snap_ok d u v /\ In t (u_tokens u)
  | TAtomic rq => auth_request rq = None \/ auth_request rq = Some RMe
  | _ => True
  end.

Definition conc_inv (c : Conc) : Prop :=
  db_inv (vd_db (c_db c)) /\ Forall (thread_ok (c_db c)) (c_pool c).

(** [d'] keeps every copy that is valid in [d] valid. *)
Definition stable (d d' : VDb) : Prop := forall u v, snap_ok d u v -> snap_ok d' u v.

(** Which label a thread's step may take: a session is opened only at the
    [generateAuthToken()] save of a register or a login, for the user it
    loaded, and closed only at the save of a logout, for the user and the
    token its guard admitted. *)
Definition thread_label (th : Thread) (l : option SessEvent) : Prop :=
  match l with
  | None => True
  | Some (Open i _) =>
      match th with TRegisterToken u _ | TLoginToken u _ => u_id u = i | _ => False end
  | Some (Close i t) => match th with TLogoutSave u _ t' => u_id u = i /\ t' = t | _ => False end
  end.

Definition event_label (c : Conc) (e : Event) (l : option SessEvent) : Prop :=
  match e with
  | Run i => match c_pool c !! i with Some th => thread_label th l | None => l = None end
  | _ => l = None
  end.

(** A step from [th] in [d] to [th'] in [d']. *)
Definition step_ok (th : Thread) (d : VDb) (th' : Thread) (d' : VDb) : Prop :=
  db_inv (vd_db d') /\ thread_ok d' th' /\ stable d d' /\
  exists l, thread_label th l /\ sess_valid l (abs d) /\ abs d' = sess_apply l (abs d).
(** [th] run alone for [n] steps finishes as the handler [m] does on
    the database alone. *)
Definition alone (n : nat) (th : Thread) (m : M Response) : Prop :=
  forall d, exists d', run_alone n th d = (TDone (answer (fst (m (vd_db d)))), d')
                  /\ vd_db d' = snd (m (vd_db d)).
End InvariantDefs.

(** The status of a finished thread. *)
Definition status_of (th : Thread) : option Z :=
  match th with TDone r => Some (r_status r) | _ => None end.

(** ** Loaded copies *)

Lemma thread_ok_stable d d' th : stable d d' -> thread_ok d th -> thread_ok d' th.
Proof. intros S. destruct th; cbn [thread_ok]; auto. intros [Hs Ht]. auto. Qed.

Lemma stable_users d d' :
  db_users (vd_db d') = db_users (vd_db d) -> vd_ver d' = vd_ver d -> stable d d'.
Proof. intros Eu Ev u v. unfold snap_ok, version. rewrite Eu, Ev. auto. Qed.

Lemma snap_ok_load d u : In u (db_users (vd_db d)) -> snap_ok d u (version d (u_id u)).
Proof. intros Hu. split; [lia|]. split; [auto | eauto]. Qed.

(** A versioned save of [u'] over the stored [u] with the same [_id]. *)
Lemma stable_save d db' u u' :
  In u (db_users (vd_db d)) -> u_id u' = u_id u ->
  db_users db' = replace_doc u' (db_users (vd_db d)) ->
  stable d (mkVDb db' (<[u_id u := N.succ (version d (u_id u))]> (vd_ver d))).
Proof.
  intros Hu Hid Eu x w (Hle & Heq & u0 & Hu0 & Hid0). unfold snap_ok, version in *.
  cbn [vd_db vd_ver]. rewrite Eu. destruct (decide (u_id x = u_id u)) as [E|Ne].
  - rewrite E, lookup_insert_eq. cbn. rewrite E in Hle. split; [lia|]. split; [lia|].
    exists u'. split; [|congruence]. apply (in_replace_doc_new u' _ u Hu). change (u_id u = u_id u'). congruence.
  - rewrite lookup_insert_ne by congruence. split; [exact Hle|]. split.
    + intros Ev. apply in_replace_doc_other; [auto|]. change (u_id x <> u_id u'). congruence.
    + exists u0. split; [|exact Hid0]. apply in_replace_doc_other; [exact Hu0|].
      change (u_id u0 <> u_id u'). congruence.
Qed.

(** The insert of a user with a new [_id]. *)
Lemma stable_insert d db' u1 :
  (forall x, In x (db_users (vd_db d)) -> u_id x <> u_id u1) ->
  db_users db' = (db_users (vd_db d) ++ [u1])%list ->
  stable d (mkVDb db' (<[u_id u1 := 0%N]> (vd_ver d))).
Proof.
  intros Hn Eu x w (Hle & Heq & u0 & Hu0 & Hid0). unfold snap_ok, version in *.
  cbn [vd_db vd_ver]. rewrite Eu.
  assert (Ne : u_id x <> u_id u1) by (rewrite <- Hid0; apply Hn, Hu0).
  rewrite lookup_insert_ne by congruence.
  split; [exact Hle|]. split; [intros Ev; apply List.in_or_app; left; auto|].
  exists u0. split; [apply List.in_or_app; left; exact Hu0 | exact Hid0].
Qed.

(** ** Each step of a thread *)

Section Steps.
Context `{JwtScheme} `{PasswordHasher} `{JoiLib}.

Lemma step_ok_stutter th d th' : db_inv (vd_db d) -> thread_ok d th' -> step_ok th d th' d.
Proof.
  intros Hi Ht. split; [exact Hi|]. split; [exact Ht|]. split; [intros u v; auto|].
  exists None. split; [exact I | split; [exact I | reflexivity]].
Qed.

(** A step that leaves the users collection and the versions alone. *)
Lemma step_ok_frame th d th' db' :
  db_inv db' -> db_users db' = db_users (vd_db d) -> thread_ok (with_db db' d) th' ->
  step_ok th d th' (with_db db' d).
Proof.
  intros Hi Eu Ht. split; [exact Hi|]. split; [exact Ht|].
  split; [apply stable_users; [exact Eu | reflexivity]|].
  exists None. split; [exact I | split; [exact I | apply abs_sessions_users, Eu]].
Qed.

Lemma db_inv_with_users db us :
  db_inv db -> users_inv (db_next_oid db) us -> db_inv (with_users us db).
Proof. intros [_ Ht] Hu. split; [exact Hu | apply (tasks_inv_grow _ _ Ht); reflexivity]. Qed.

(** [generateAuthToken()] on the stored [u]: the token is signed at the
    current time and appended. *)
Lemma with_token_step db u k :
  db_users_inv db -> In u (db_users db) ->
  let t := jwt_issue (u_id u) (u_email u) (role_str (u_role u)) (db_clock db) in
  let u' := set_tokens u (u_tokens u ++ [t]) in
  with_token u k db = k t u' (with_users (replace_doc u' (db_users db)) db).
Proof.
  intros Hinv Hu t u'. unfold with_token, rm_bind, clock, gen_token.
  destruct (generate_auth_token_ok_spec _ _ u (db_clock db) Hinv Hu) as [G _]. rewrite G. reflexivity.
Qed.

(** The save of [generateAuthToken()] from the current copy opens one
    session for the loaded user. *)
Lemma token_step_ok th d u r :
  db_inv (vd_db d) -> In u (db_users (vd_db d)) ->
  (forall t, thread_label th (Some (Open (u_id u) t))) ->
  let t := jwt_issue (u_id u) (u_email u) (role_str (u_role u)) (db_clock (vd_db d)) in
  let u' := set_tokens u (u_tokens u ++ [t]) in
  step_ok th d (TDone r)
    (mkVDb (with_users (replace_doc u' (db_users (vd_db d))) (vd_db d))
       (<[u_id u := N.succ (version d (u_id u))]> (vd_ver d))).
Proof.
  intros Hi Hin Hl t u'. pose proof (generate_auth_token_ok_spec _ _ u (db_clock (vd_db d)) (proj1 Hi) Hin) as [_ Hi2].
  split; [apply db_inv_with_users; [exact Hi | exact Hi2]|]. split; [exact I|].
  split; [apply (stable_save _ _ u u'); [exact Hin | reflexivity | reflexivity]|].
  exists (Some (Open (u_id u) t)). split; [apply Hl|]. split; [apply token_of_issue|].
  apply (sessions_of_token (db_next_oid (vd_db d))); [apply Hi | exact Hin].
Qed.

(** A save from a copy whose version has moved on throws. *)
Lemma versioned_stale u v m d :
  version d (u_id u) <> v -> versioned u v m d = (TDone (answer (inl (EVersion (u_id u)))), d).
Proof. intros Ne. unfold versioned. destruct (N.eqb_spec (version d (u_id u)) v); [contradiction | reflexivity]. Qed.

Lemma versioned_current u m d :
  versioned u (version d (u_id u)) m d =
  match m (vd_db d) with
  | (inr r, db') => (TDone r, mkVDb db' (<[u_id u := N.succ (version d (u_id u))]> (vd_ver d)))
  | (inl e, db') => (TDone (answer (inl e)), with_db db' d)
  end.
Proof. unfold versioned. rewrite N.eqb_refl. reflexivity. Qed.
End Steps.

Section ThreadSteps.
Context `{JwtScheme} `{PasswordHasher} `{JoiLib}.

(** The requests [start] leaves atomic never write the users. *)
Lemma app_users_frame rq db :
  db_inv db -> auth_request rq = None \/ auth_request rq = Some RMe ->
  db_users (snd (app rq db)) = db_users db.
Proof.
  intros Hi. unfold app, auth_request. destruct (rq_path rq) as [|a [|b rest]]; intros Ha.
  - destruct (is_get _); reflexivity.
  - reflexivity.
  - destruct (seg_is "api" a && seg_is "auth" b).
    + destruct (auth_route (rq_method rq) rest) as [r|]; [|reflexivity].
      destruct Ha as [Ha|Ha]; [discriminate|]. injection Ha as ->. cbn [auth_router].
      destruct (auth db (rq_auth rq)) eqn:Au;
        [rewrite (with_auth_authed _ _ _ _ _ Au) | rewrite (with_auth_rejected _ _ _ _ Au)]; reflexivity.
    + destruct (seg_is "api" a && seg_is "tasks" b).
      * unfold tasks_mount. destruct (auth db (rq_auth rq)) eqn:Au.
        -- rewrite (with_auth_authed _ _ _ _ _ Au). destruct (task_route _ _) as [r|]; [|reflexivity].
           apply (task_router_frame (u_id u) rq r db (proj2 Hi)).
        -- rewrite (with_auth_rejected _ _ _ _ Au). reflexivity.
      * destruct (_ && _ && _); [destruct rest|]; reflexivity.
Qed.

Ltac stutter := apply step_ok_stutter; [assumption | cbn [thread_ok]; auto].

Lemma register_check_ok b d :
  db_inv (vd_db d) -> let '(th', d') := step (TRegister b) d in step_ok (TRegister b) d th' d'.
Proof. intros Hi. cbn [step]. destruct (validate_register b); [|try destruct (find_by_email _ _)]; stutter. Qed.

Lemma register_insert_ok ri d :
  db_inv (vd_db d) -> let '(th', d') := step (TRegisterSave ri) d in step_ok (TRegisterSave ri) d th' d'.
Proof.
  intros Hi. destruct d as [db ver]. cbn [step vd_db vd_ver] in *.
  cbv beta iota zeta delta [rm_bind fresh_oid clock fresh_salt save_user]. cbn [db_users db_tasks db_next_oid db_clock db_salt].
  assert (Ht : tasks_inv (mkDb (db_users db) (db_tasks db) (N.succ (db_next_oid db)) (db_clock db) (N.succ (db_salt db))))
    by (apply (tasks_inv_grow _ _ (proj2 Hi)); cbn; [reflexivity | lia]).
  set (u0 := new_user _ _ _ _ _).
  destruct (user_save true (Some (db_salt db)) true u0 (db_users db)) as [e|[u1 us1]] eqn:S.
  - apply step_ok_frame; [split; [apply users_inv_succ, Hi | exact Ht] | reflexivity | exact I].
  - destruct (user_save_new_inv _ _ u0 _ _ _ (proj1 Hi) eq_refl eq_refl S) as (Hi1 & -> & Hid).
    pose proof (user_save_tokens _ _ _ _ _ _ _ S) as Tk.
    assert (Hin : In u1 (db_users db ++ [u1])%list) by (apply List.in_or_app; right; left; reflexivity).
    split; [split; [exact Hi1 | exact Ht]|].
    split; [cbn [thread_ok]; unfold snap_ok, version; cbn [vd_ver vd_db]; rewrite lookup_insert_eq; simpl; split; [lia | split; eauto]|].
    split; [apply stable_insert; [|reflexivity]; intros x Hx; rewrite Hid; apply N.lt_neq, (proj1 (proj1 (proj1 Hi) x Hx))|].
    exists None. split; [exact I|]. split; [exact I|].
    unfold abs, abs_sessions. cbn [vd_db with_users db_users]. rewrite sessions_of_app, sessions_of_single, user_sessions_nil by exact Tk.
    set_solver.
Qed.

(** The [generateAuthToken()] save of a register or a login. *)
Lemma token_thread_ok th u v d (k : string -> User -> Response) :
  db_inv (vd_db d) -> snap_ok d u v -> (forall t, thread_label th (Some (Open (u_id u) t))) ->
  let '(th', d') := versioned u v (with_token u (fun t u2 => rm_ret (k t u2))) d in step_ok th d th' d'.
Proof.
  intros Hi (_ & Heq & _) Hl. destruct (decide (version d (u_id u) = v)) as [<-|Ne].
  - rewrite versioned_current. pose proof (Heq eq_refl) as Hin.
    rewrite (with_token_step _ _ _ (proj1 Hi) Hin). apply token_step_ok; assumption.
  - rewrite (versioned_stale _ _ _ _ Ne). stutter.
Qed.

Lemma logout_save_ok u v t d :
  db_inv (vd_db d) -> snap_ok d u v -> In t (u_tokens u) ->
  let '(th', d') := step (TLogoutSave u v t) d in step_ok (TLogoutSave u v t) d th' d'.
Proof.
  intros Hi (_ & Heq & _) Ht. cbn [step]. destruct (decide (version d (u_id u) = v)) as [<-|Ne].
  - rewrite versioned_current. pose proof (Heq eq_refl) as Hin.
    pose proof (logout_sessions _ _ _ (proj1 Hi) Hin Ht) as E.
    rewrite (logout_step _ _ _ (proj1 Hi) Hin) in E |- *.
    split; [apply db_inv_with_users; [exact Hi | apply (logout_inv _ _ t (proj1 Hi) Hin)]|].
    split; [exact I|]. split; [apply (stable_save _ _ u (set_tokens u (revoke t (u_tokens u)))); [exact Hin | reflexivity | reflexivity]|].
    exists (Some (Close (u_id u) t)). split; [split; reflexivity|]. split; [|exact E].
    apply elem_of_sessions_of. exists u. split; [exact Hin | apply elem_of_user_sessions; auto].
  - rewrite (versioned_stale _ _ _ _ Ne). stutter.
Qed.
Lemma login_read_ok b d :
  db_inv (vd_db d) -> let '(th', d') := step (TLogin b) d in step_ok (TLogin b) d th' d'.
Proof.
  intros Hi. cbn [step]. destruct (validate_login b) as [e|li]; [stutter|].
  destruct (find_by_email _ _) as [u|] eqn:Hf; [|stutter]. destruct (compare_password _ _); [|stutter].
  apply step_ok_stutter; [exact Hi|]. apply snap_ok_load, (find_one_Some _ _ _ Hf).
Qed.

Lemma logout_guard_ok hdr d :
  db_inv (vd_db d) -> let '(th', d') := step (TLogout hdr) d in step_ok (TLogout hdr) d th' d'.
Proof.
  intros Hi. cbn [step]. destruct (auth (vd_db d) hdr) as [u t|r] eqn:Au; [|stutter].
  pose proof (auth_Authed_inv_spec _ _ _ _ Au) as (_ & Hin & Ht & _).
  apply step_ok_stutter; [exact Hi|]. split; [apply snap_ok_load, Hin | exact Ht].
Qed.

Lemma atomic_ok rq d :
  db_inv (vd_db d) -> auth_request rq = None \/ auth_request rq = Some RMe ->
  let '(th', d') := step (TAtomic rq) d in step_ok (TAtomic rq) d th' d'.
Proof.
  intros Hi Ha. cbn [step]. pose proof (handle_inv rq _ Hi) as Hi'.
  pose proof (app_users_frame rq _ Hi Ha) as Eu. rewrite <- handle_snd in Eu.
  destruct (handle rq (vd_db d)) as [r db']. apply step_ok_frame; [exact Hi' | exact Eu | exact I].
Qed.

(** Every step of a thread, from a database meeting the invariant and
    what the thread assumes of it. *)
Lemma step_spec th d :
  db_inv (vd_db d) -> thread_ok d th -> let '(th', d') := step th d in step_ok th d th' d'.
Proof.
  intros Hi Ht. destruct th; cbn [thread_ok] in Ht.
  - apply register_check_ok, Hi.
  - apply register_insert_ok, Hi.
  - exact (token_thread_ok (TRegisterToken u v) u v d _ Hi Ht (fun t => eq_refl)).
  - apply login_read_ok, Hi.
  - exact (token_thread_ok (TLoginToken u v) u v d _ Hi Ht (fun t => eq_refl)).
  - apply logout_guard_ok, Hi.
  - destruct Ht as [Hs Ht]. apply logout_save_ok; assumption.
  - apply atomic_ok; assumption.
  - cbn [step]. stutter.
Qed.

Lemma start_ok d rq : thread_ok d (start rq).
Proof. unfold start. destruct (auth_request rq) as [[]|] eqn:A; cbn [thread_ok]; tauto. Qed.
End ThreadSteps.

(** ** Interleavings refine the abstract session store *)

Section Refinement.
Context `{JwtScheme} `{PasswordHasher} `{JoiLib}.

Lemma db_inv_tick d dt : db_inv (vd_db d) -> db_inv (vd_db (tick dt d)).
Proof. intros [Hu [Hf Hn]]. split; [exact Hu | split; [exact Hf | exact Hn]]. Qed.

Lemma conc_step_label e c :
  conc_inv c -> event_ok e ->
  conc_inv (conc_step e c) /\
  exists l, event_label c e l /\ sess_valid l (abs (c_db c))
    /\ abs (c_db (conc_step e c)) = sess_apply l (abs (c_db c)).
Proof.
  intros [Hi Hp] He.
  assert (Stut : forall c', abs (c_db c') = abs (c_db c) ->
    exists l, l = None /\ sess_valid l (abs (c_db c)) /\ abs (c_db c') = sess_apply l (abs (c_db c)))
    by (intros c' E; exists None; split; [reflexivity | split; [exact I | exact E]]).
  destruct e as [rq|i|dt]; cbn [conc_step event_label].
  - split; [split; [exact Hi | apply Forall_app; split; [exact Hp | constructor; [apply start_ok | constructor]]]|].
    apply Stut. reflexivity.
  - unfold run_thread. destruct (c_pool c !! i) as [th|] eqn:L; [|split; [split; assumption | apply Stut; reflexivity]].
    pose proof (step_spec th (c_db c) Hi (Forall_lookup_1 _ _ _ _ Hp L)) as S.
    destruct (step th (c_db c)) as [th' d']. destruct S as (Hi' & Ht' & Hs & l & Hl & Hv & Ha).
    split; [split; [exact Hi' | apply Forall_insert; [|exact Ht']]|exists l; auto].
    apply (Forall_impl _ _ _ Hp). intros x. apply thread_ok_stable, Hs.
  - split; [split; [apply db_inv_tick, Hi|]|apply Stut; reflexivity].
    apply (Forall_impl _ _ _ Hp). intros x. apply thread_ok_stable, stable_users; reflexivity.
Qed.
End Refinement.

(** ** A thread alone is the atomic handler *)

Section Alone.
Context `{JwtScheme} `{PasswordHasher} `{JoiLib}.

Lemma run_alone_done n r d : run_alone n (TDone r) d = (TDone r, d).
Proof. induction n as [|n IH]; [reflexivity | exact IH]. Qed.


Ltac red_alone := cbn [run_alone step vd_db vd_ver];
  cbv beta iota zeta delta [rm_bind rm_get fresh_oid clock fresh_salt save_user register_tail login_tail with_token versioned];
  cbn [db_users db_tasks db_next_oid db_clock db_salt with_users vd_db vd_ver].
Ltac fin := eexists; split; reflexivity.

Lemma register_alone b : alone 3 (TRegister b) (register b).
Proof.
  intros [db ver]. unfold register. red_alone.
  destruct (validate_register b) as [e|ri]; [fin|]. red_alone.
  destruct (find_by_email _ _); [fin|]. red_alone.
  destruct (user_save _ _ _ _ _) as [e|[u1 us1]]; [fin|]. red_alone.
  unfold version. cbn [vd_ver]. rewrite lookup_insert_eq. cbn [default N.eqb].
  destruct (gen_token _ _ _) as [[e|[t u2]] db2]; fin.
Qed.
Lemma login_alone b : alone 2 (TLogin b) (login b).
Proof.
  intros [db ver]. unfold login. red_alone.
  destruct (validate_login b) as [e|li]; [fin|]. red_alone.
  destruct (find_by_email _ _) as [u|]; [|fin]. unfold invalid_credentials.
  destruct (compare_password _ _); [|fin]. red_alone. rewrite N.eqb_refl.
  destruct (gen_token _ _ _) as [[e|[t u2]] db2]; fin.
Qed.

Lemma logout_alone hdr : alone 2 (TLogout hdr) (with_auth hdr logout).
Proof.
  intros [db ver]. unfold with_auth. red_alone.
  destruct (auth db hdr) as [u t|r]; [|fin]. red_alone. rewrite N.eqb_refl.
  destruct (logout u t db) as [[e|r] db2]; fin.
Qed.

Lemma run_alone_S n th d r d' :
  run_alone n th d = (TDone r, d') -> run_alone (S n) th d = (TDone r, d').
Proof.
  revert th d. induction n as [|n IH]; intros th d E.
  - cbn in E. injection E as -> <-. reflexivity.
  - cbn [run_alone] in *. destruct (step th d) as [th1 d1]. apply IH. exact E.
Qed.

Lemma alone_le n k th m : n <= k -> alone n th m -> alone k th m.
Proof.
  induction 1 as [|k _ IH]; [auto|]. intros A d. destruct (IH A d) as (d' & E & Ed).
  exists d'. split; [apply run_alone_S, E | exact Ed].
Qed.

Lemma app_auth_request rq r : auth_request rq = Some r -> app rq = auth_router rq r.
Proof.
  unfold auth_request, app. destruct (rq_path rq) as [|a [|b rest]]; try discriminate.
  destruct (seg_is "api" a && seg_is "auth" b); [|discriminate]. intros ->. reflexivity.
Qed.

Lemma catch_answer (m : M Response) db : rm_catch m error_handler db = (inr (answer (fst (m db))), snd (m db)).
Proof. unfold rm_catch. destruct (m db) as [[e|r] db']; reflexivity. Qed.

Lemma atomic_alone rq : alone 1 (TAtomic rq) (app rq).
Proof.
  intros d. cbn [run_alone step]. unfold handle. rewrite catch_answer.
  exists (with_db (snd (app rq (vd_db d))) d). split; reflexivity.
Qed.

End Alone.

(** ** The claims *)

Section Claims.
Context `{JwtScheme} `{PasswordHasher} `{JoiLib}.

Lemma creachable_inv c : creachable c -> conc_inv c.
Proof.
  induction 1 as [n now salt | e c _ IH He]; [split; [apply db_inv_empty | constructor]|].
  exact (proj1 (conc_step_label e c IH He)).
Qed.

Lemma conc_run_reachable es c : creachable c -> Forall event_ok es -> creachable (conc_run es c).
Proof.
  intros R Hes. revert c R. induction Hes as [|e es He _ IH]; intros c R; [exact R|].
  apply IH. apply creach_step; assumption.
Qed.

(** C19: refinement under interleaving: from any state an interleaving
    of requests reaches, every event moves the abstract session store by
    one step of the abstract machine: a session is opened only by the
    [generateAuthToken()] save of a register or a login, for the user it
    loaded, and closed only by the save of a logout, for the session its
    guard admitted; arrivals, reads, stale saves that throw, the other
    requests and clock ticks stutter.  No save from a stale copy loses or
    revives a session. *)
Theorem conc_step_refines c e :
  creachable c -> event_ok e ->
  exists l, event_label c e l /\ sess_valid l (abs (c_db c))
    /\ abs (c_db (conc_step e c)) = sess_apply l (abs (c_db c)).
Proof. intros R He. exact (proj2 (conc_step_label e c (creachable_inv c R) He)). Qed.

(** C20: invariant of interleavings: in every state an interleaving
    reaches, the database meets the service invariant (valid users with
    unique [_id]s and e-mails, tokens naming their user, distinct task
    [_id]s), although register's [findOne] check races, and the sessions
    form a reachable state of the abstract machine. *)
Theorem creachable_sessions c : creachable c -> db_inv (vd_db (c_db c)) /\ sess_reachable (abs (c_db c)).
Proof.
  intros R. split; [apply (creachable_inv c R)|].
  induction R as [n now salt | e c R IH He]; [constructor|].
  destruct (conc_step_label e c (creachable_inv c R) He) as (_ & l & _ & Hv & ->). constructor; assumption.
Qed.

(** Equivalence with the atomic model: the thread of any request,
    run with no other step in between, finishes within three steps with
    the response and the database that [Server.handle] gives. *)
Theorem thread_alone_handle rq d :
  exists r d', run_alone 3 (start rq) d = (TDone r, d') /\ handle rq (vd_db d) = (inr r, vd_db d').
Proof.
  unfold handle. rewrite catch_answer.
  assert (G : forall n th, n <= 3 -> alone n th (app rq) ->
            exists r d', run_alone 3 th d = (TDone r, d')
              /\ ((inr (answer (fst (app rq (vd_db d)))) : DbError + Response), snd (app rq (vd_db d))) = (inr r, vd_db d')).
  { intros n th Hn A. destruct (alone_le _ _ _ _ Hn A d) as (d' & E & Ed).
    exists (answer (fst (app rq (vd_db d)))), d'. rewrite E, Ed. split; reflexivity. }
  unfold start. destruct (auth_request rq) as [[]|] eqn:A;
    try (apply (G 1); [lia | apply atomic_alone]); [apply (G 3) | apply (G 2) | apply (G 2)];
    try lia; rewrite (app_auth_request _ _ A); [apply register_alone | apply login_alone | apply logout_alone].
Qed.
End Claims.

(** ** Races

    Two threads holding copies of one document loaded at the same
    version, or two registrations past the [findOne] check. *)

Lemma events_ok_ann : Forall event_ok ann_registers.
Proof. repeat constructor. Qed.

Lemma c_ann_reachable : creachable c_ann.
Proof. apply conc_run_reachable; [apply creach_init | apply events_ok_ann]. Qed.

Section Races.
Context `{JwtScheme} `{PasswordHasher} `{JoiLib}.

(** The [generateAuthToken()] save of a login from the current copy. *)
Lemma login_token_step d u :
  db_inv (vd_db d) -> In u (db_users (vd_db d)) ->
  let t := jwt_issue (u_id u) (u_email u) (role_str (u_role u)) (db_clock (vd_db d)) in
  let u' := set_tokens u (u_tokens u ++ [t]) in
  step (TLoginToken u (version d (u_id u))) d =
    (TDone (mkResp 200 (BAuth "Login successful" (user_to_json u') t)),
     mkVDb (with_users (replace_doc u' (db_users (vd_db d))) (vd_db d))
       (<[u_id u := N.succ (version d (u_id u))]> (vd_ver d))).
Proof.
  intros Hi Hu t u'. cbn [step]. rewrite versioned_current. unfold login_tail.
  rewrite (with_token_step _ _ _ (proj1 Hi) Hu). reflexivity.
Qed.

(** After a versioned save of [id] from version [v], a copy loaded at
    [v] is stale. *)
Lemma version_saved db ver id v : version (mkVDb db (<[id := N.succ v]> ver)) id <> v.
Proof. unfold version. cbn [vd_ver]. rewrite lookup_insert_eq. cbn. lia. Qed.

(** C24: a logout racing a login of the same user, both holding the
    document loaded at its current version: once the login's save has
    moved [__v] on, the logout's save from its copy throws a
    [VersionError], the logout is answered [500], and the token it
    presented is still admitted by the guard (the specification removes
    the presented session). *)
Theorem logout_race_keeps_session d hdr u t th1 d1 :
  db_inv (vd_db d) -> auth (vd_db d) hdr = Authed u t ->
  step (TLoginToken u (version d (u_id u))) d = (th1, d1) ->
  status_of th1 = Some 200%Z
  /\ step (TLogoutSave u (version d (u_id u)) t) d1
     = (TDone (mkResp 500 (BError "Internal server error")), d1)
  /\ exists u', auth (vd_db d1) hdr = Authed u' t /\ u_id u' = u_id u.
Proof.
  intros Hi Ha S. pose proof (auth_Authed_inv_spec _ _ _ _ Ha) as (Ext & Hu & Ht & c & V & Hc).
  rewrite (login_token_step d u Hi Hu) in S. injection S as <- <-.
  split; [reflexivity|]. split; [cbn [step]; apply versioned_stale, version_saved|].
  set (t' := jwt_issue _ _ _ _). set (u' := set_tokens u _).
  exists u'. split; [|reflexivity].
  apply (auth_accepts _ hdr t c u' Ext); [exact V|]. apply session_owner_unique.
  - cbn. rewrite replace_doc_ids. apply (proj1 Hi).
  - apply (in_replace_doc_new u' _ u Hu). reflexivity.
  - exact (eq_sym Hc).
  - apply List.in_or_app. left. exact Ht.
Qed.

(** C32: two concurrent logins of one user, the multi-device case of the
    specification: when both have loaded the document at its current
    version, the first save succeeds with [200] and the second throws a
    [VersionError] and is answered [500], writing nothing. *)
Theorem concurrent_logins_one_fails d u th1 d1 :
  db_inv (vd_db d) -> In u (db_users (vd_db d)) ->
  step (TLoginToken u (version d (u_id u))) d = (th1, d1) ->
  status_of th1 = Some 200%Z
  /\ step (TLoginToken u (version d (u_id u))) d1
     = (TDone (mkResp 500 (BError "Internal server error")), d1).
Proof.
  intros Hi Hu S. rewrite (login_token_step d u Hi Hu) in S. injection S as <- <-.
  split; [reflexivity|]. cbn [step]. apply versioned_stale, version_saved.
Qed.

(** The schema validation of a new user does not read its [_id] or its
    creation date. *)
Lemma new_user_validate sel id id' now now' n e pw :
  user_validate sel (new_user id now n e pw) = user_validate sel (new_user id' now' n e pw).
Proof. reflexivity. Qed.

(** The e-mail index rejects a second new user with a stored e-mail. *)
Lemma email_taken_new u1 c id now ri s :
  In u1 c -> u_email u1 = JsString.to_lower (ri_email ri) -> u_id u1 <> id ->
  email_taken (pre_save_hash s (new_user id now (ri_name ri) (ri_email ri) (ri_password ri))) c = true.
Proof.
  intros Hu Ee Ne. apply existsb_exists. exists u1. split; [exact Hu|].
  destruct s; cbn; rewrite Ee, String.eqb_refl; apply negb_true_iff, N.eqb_neq; exact Ne.
Qed.

(** C27: two registrations of one e-mail that both passed the [findOne]
    check: when the first insert succeeds, the unique index rejects the
    second, which is answered [500] and stores no user, while the same
    body sent after the first would get the [400] [User already exists
    with this email]. *)
Theorem concurrent_register_is_500 d b ri th1 d1 :
  db_inv (vd_db d) -> validate_register b = inr ri ->
  step (TRegisterSave ri) d = (th1, d1) -> (forall r, th1 <> TDone r) ->
  fst (step (TRegisterSave ri) d1) = TDone (mkResp 500 (BError "Internal server error"))
  /\ db_users (vd_db (snd (step (TRegisterSave ri) d1))) = db_users (vd_db d1)
  /\ fst (register b (vd_db d1)) = inr (mkResp 400 (BError "User already exists with this email")).
Proof.
  intros Hi Hv S Hn. destruct d as [db ver]. cbn [vd_db] in Hi.
  cbn [step vd_db] in S. cbv beta iota zeta delta [rm_bind fresh_oid clock fresh_salt save_user] in S.
  cbn [db_users db_tasks db_next_oid db_clock db_salt] in S.
  destruct (user_save _ _ _ _ _) as [e|[u1 us1]] eqn:U; [injection S as <- _; destruct (Hn _ eq_refl)|].
  injection S as <- <-.
  destruct (user_save_new_inv (db_next_oid db) (db_users db)
      (new_user (db_next_oid db) (db_clock db) (ri_name ri) (ri_email ri) (ri_password ri))
      (db_salt db) _ _ (proj1 Hi) eq_refl eq_refl U)
    as (_ & -> & Hid).
  apply user_save_inv in U as (Hu1 & _ & Hval & _).
  assert (Hin : In u1 (db_users db ++ [u1])%list) by (apply List.in_or_app; right; left; reflexivity).
  assert (Ee : u_email u1 = JsString.to_lower (ri_email ri)) by (rewrite Hu1; reflexivity).
  split; [|split].
  - cbn [step vd_db]. cbv beta iota zeta delta [rm_bind fresh_oid clock fresh_salt save_user].
    cbn [db_users db_tasks db_next_oid db_clock db_salt with_users]. unfold user_save.
    rewrite (new_user_validate true _ (db_next_oid db) _ (db_clock db)), Hval.
    rewrite (email_taken_new u1 _ _ _ ri _ Hin Ee) by (rewrite Hid; cbn; lia). reflexivity.
  - cbn [step vd_db]. cbv beta iota zeta delta [rm_bind fresh_oid clock fresh_salt save_user].
    cbn [db_users db_tasks db_next_oid db_clock db_salt with_users]. unfold user_save.
    rewrite (new_user_validate true _ (db_next_oid db) _ (db_clock db)), Hval.
    rewrite (email_taken_new u1 _ _ _ ri _ Hin Ee) by (rewrite Hid; cbn; lia). reflexivity.
  - unfold register. rewrite Hv. unfold rm_bind, rm_get. cbn [vd_db with_users db_users].
    destruct (find_by_email (ri_email ri) (db_users db ++ [u1])) eqn:F; [reflexivity|].
    pose proof (find_one_None _ _ F u1 Hin) as E. cbn beta in E. rewrite Ee, String.eqb_refl in E.
    discriminate E.
Qed.
End Races.

(** ** Witnesses *)

Lemma conc_step_refines_witness :
  creachable c_ann /\ event_ok (Arrive (rq_login ann_login)) /\
  exists l, event_label c_ann (Arrive (rq_login ann_login)) l /\ sess_valid l (abs (c_db c_ann))
    /\ abs (c_db (conc_step (Arrive (rq_login ann_login)) c_ann)) = sess_apply l (abs (c_db c_ann)).
Proof.
  assert (R : creachable c_ann) by exact c_ann_reachable.
  split; [exact R | split; [exact I | exact (conc_step_refines c_ann (Arrive (rq_login ann_login)) R I)]].
Defined.

Lemma creachable_sessions_witness :
  creachable c_ann /\ db_inv (vd_db (c_db c_ann)) /\ sess_reachable (abs (c_db c_ann)).
Proof.
  assert (R : creachable c_ann) by exact c_ann_reachable.
  split; [exact R | exact (creachable_sessions _ R)].
Defined.

Lemma logout_race_keeps_session_witness :
  let d := c_db c_ann in
  let hdr := ann_hdr in
  let u := List.hd ex_user (db_users (vd_db (c_db c_ann))) in
  let t := ex_token in
  let th1 := fst (step (TLoginToken u (version d (u_id u))) d) in
  let d1 := snd (step (TLoginToken u (version d (u_id u))) d) in
  (db_inv (vd_db d)) /\
  (auth (vd_db d) hdr = Authed u t) /\
  (step (TLoginToken u (version d (u_id u))) d = (th1, d1)) /\
  (status_of th1 = Some 200%Z
  /\ step (TLogoutSave u (version d (u_id u)) t) d1
     = (TDone (mkResp 500 (BError "Internal server error")), d1)
  /\ exists u', auth (vd_db d1) hdr = Authed u' t /\ u_id u' = u_id u).
Proof.
  intros d hdr u t th1 d1.
  assert (W0 : db_inv (vd_db d)) by (exact (proj1 (creachable_inv _ c_ann_reachable))).
  assert (W1 : auth (vd_db d) hdr = Authed u t) by (vm_compute; reflexivity).
  assert (W2 : step (TLoginToken u (version d (u_id u))) d = (th1, d1)) by (vm_compute; reflexivity).
  split; [exact W0|]. split; [exact W1|]. split; [exact W2|]. exact (logout_race_keeps_session d hdr u t th1 d1 W0 W1 W2).
Defined.

Lemma concurrent_logins_one_fails_witness :
  let d := c_db c_ann in
  let u := List.hd ex_user (db_users (vd_db (c_db c_ann))) in
  let th1 := fst (step (TLoginToken u (version d (u_id u))) d) in
  let d1 := snd (step (TLoginToken u (version d (u_id u))) d) in
  (db_inv (vd_db d)) /\
  (In u (db_users (vd_db d))) /\
  (step (TLoginToken u (version d (u_id u))) d = (th1, d1)) /\
  (status_of th1 = Some 200%Z
  /\ step (TLoginToken u (version d (u_id u))) d1
     = (TDone (mkResp 500 (BError "Internal server error")), d1)).
Proof.
  intros d u th1 d1.
  assert (W0 : db_inv (vd_db d)) by (exact (proj1 (creachable_inv _ c_ann_reachable))).
  assert (W1 : In u (db_users (vd_db d))) by (vm_compute; left; reflexivity).
  assert (W2 : step (TLoginToken u (version d (u_id u))) d = (th1, d1)) by (vm_compute; reflexivity).
  split; [exact W0|]. split; [exact W1|]. split; [exact W2|]. exact (concurrent_logins_one_fails d u th1 d1 W0 W1 W2).
Defined.

Lemma concurrent_register_is_500_witness :
  let d := mkVDb ex_db0 empty in
  let b := ann_body in
  let ri := ann_ri in
  let th1 := fst (step (TRegisterSave ann_ri) (mkVDb ex_db0 empty)) in
  let d1 := snd (step (TRegisterSave ann_ri) (mkVDb ex_db0 empty)) in
  (db_inv (vd_db d)) /\
  (validate_register b = inr ri) /\
  (step (TRegisterSave ri) d = (th1, d1)) /\
  ((forall r, th1 <> TDone r)) /\
  (fst (step (TRegisterSave ri) d1) = TDone (mkResp 500 (BError "Internal server error"))
  /\ db_users (vd_db (snd (step (TRegisterSave ri) d1))) = db_users (vd_db d1)
  /\ fst (register b (vd_db d1)) = inr (mkResp 400 (BError "User already exists with this email"))).
Proof.
  intros d b ri th1 d1.
  assert (W0 : db_inv (vd_db d)) by (exact (db_inv_empty 1 ex_clock 7)).
  assert (W1 : validate_register b = inr ri) by (vm_compute; reflexivity).
  assert (W2 : step (TRegisterSave ri) d = (th1, d1)) by (vm_compute; reflexivity).
  assert (W3 : (forall r, th1 <> TDone r)) by (intros r; vm_compute; intros E; discriminate E).
  split; [exact W0|]. split; [exact W1|]. split; [exact W2|]. split; [exact W3|]. exact (concurrent_register_is_500 d b ri th1 d1 W0 W1 W2 W3).
Defined.
