(* ===== verification/Readme.v ===== *)
(** * The endpoint table of the README

    [src/unnamed/part_000] (the README) lists the endpoints of the API
    (lines 15-29) in two groups, Authentication and "Tasks (Protected
    Routes)".  [readme_endpoints] is that table: each row's method, its
    path with [:id] as a parameter segment, the handler its description
    names, and whether it is in the protected group.  The theorem below
    checks the table against [Server.app]: every listed endpoint, for any
    value of [:id], query, header and body, is dispatched to the handler
    the README describes, and every protected one refuses a request
    without a token. *)

From Stdlib Require Import ZArith NArith String List Bool.
From stdpp Require Import base list.
From S2P Require Import Prelude JsString Crypto Store UserModel TaskModel Joi Db AuthMiddleware AuthRoutes TaskRoutes Server.

Local Open Scope string_scope.

Inductive Seg := Lit (s : string) | Param.

(** The descriptions of the README rows. *)
Inductive Doc :=
  | DRegister | DLogin | DMe | DLogout
  | DList | DCreate | DGet | DUpdate | DDelete | DStats.

Record Endpoint := mkEndpoint { ep_method : Method; ep_path : list Seg; ep_doc : Doc; ep_protected : bool }.

(** README lines 17-29. *)
Definition readme_endpoints : list Endpoint := [
  mkEndpoint POST [Lit "api"; Lit "auth"; Lit "register"] DRegister false;
  mkEndpoint POST [Lit "api"; Lit "auth"; Lit "login"] DLogin false;
  mkEndpoint GET [Lit "api"; Lit "auth"; Lit "me"] DMe false;
  mkEndpoint POST [Lit "api"; Lit "auth"; Lit "logout"] DLogout false;
  mkEndpoint GET [Lit "api"; Lit "tasks"] DList true;
  mkEndpoint POST [Lit "api"; Lit "tasks"] DCreate true;
  mkEndpoint GET [Lit "api"; Lit "tasks"; Param] DGet true;
  mkEndpoint PUT [Lit "api"; Lit "tasks"; Param] DUpdate true;
  mkEndpoint DELETE [Lit "api"; Lit "tasks"; Param] DDelete true;
  mkEndpoint GET [Lit "api"; Lit "tasks"; Lit "stats"; Lit "overview"] DStats true
].

(** The path of a row with [p] for its [:id]. *)
Definition ep_instance (p : string) (e : Endpoint) : list string :=
  List.map (fun s => match s with Lit l => l | Param => p end) (ep_path e).

Definition ep_request (e : Endpoint) (p : string) (q : list (string * string)) (hdr : option string)
    (b : Body) : Request :=
  mkReq (ep_method e) (ep_instance p e) q hdr b.

Section Docs.
Context `{JwtScheme} `{PasswordHasher} `{JoiLib}.

(** The handler each description names, behind the guard where the code
    mounts one. *)
Definition doc_handler (d : Doc) (p : string) (rq : Request) : M Response :=
  match d with
  | DRegister => register (rq_body rq)
  | DLogin => login (rq_body rq)
  | DMe => with_auth (rq_auth rq) (fun u _ => me u)
  | DLogout => with_auth (rq_auth rq) logout
  | DList => with_auth (rq_auth rq) (fun u _ => list_tasks (u_id u) (list_query (rq_query rq)))
  | DCreate => with_auth (rq_auth rq) (fun u _ => create_task (u_id u) (rq_body rq))
  | DGet => with_auth (rq_auth rq) (fun u _ => get_task (u_id u) p)
  | DUpdate => with_auth (rq_auth rq) (fun u _ => update_task (u_id u) p (rq_body rq))
  | DDelete => with_auth (rq_auth rq) (fun u _ => delete_task (u_id u) p)
  | DStats => with_auth (rq_auth rq) (fun u _ => stats_overview (u_id u))
  end.
End Docs.

Section Conformance.
Context `{JwtScheme} `{PasswordHasher} `{JoiLib}.

(** C39: the README's table is the application's: every endpoint it
    lists, for any [:id], query, header and body, is dispatched by [app]
    to the handler its description names (the task routes behind the
    guard, [/stats/overview] not taken for an [:id]), and every endpoint
    of the protected group answers 401 to a request without a token. *)
Theorem readme_endpoints_served e p q hdr b db :
  In e readme_endpoints ->
  app (ep_request e p q hdr b) = doc_handler (ep_doc e) p (ep_request e p q hdr b)
  /\ (ep_protected e = true ->
      fst (handle (ep_request e p q None b) db) = inr (mkResp 401 (BError "No token, authorization denied"))).
Proof.
  intros Hin. repeat destruct Hin as [<-|Hin]; [..|destruct Hin];
    split; try reflexivity; intros E; discriminate E || reflexivity.
Qed.
End Conformance.

Lemma readme_endpoints_served_witness :
  In (mkEndpoint GET [Lit "api"; Lit "tasks"; Param] DGet true) readme_endpoints /\
  app (ep_request (mkEndpoint GET [Lit "api"; Lit "tasks"; Param] DGet true) "stats" [] None [])
  = doc_handler DGet "stats" (ep_request (mkEndpoint GET [Lit "api"; Lit "tasks"; Param] DGet true) "stats" [] None [])
  /\ (true = true ->
      fst (handle (ep_request (mkEndpoint GET [Lit "api"; Lit "tasks"; Param] DGet true) "stats" [] None []) ex_db1)
      = inr (mkResp 401 (BError "No token, authorization denied"))).
Proof.
  assert (Hin : In (mkEndpoint GET [Lit "api"; Lit "tasks"; Param] DGet true) readme_endpoints)
    by (simpl; tauto).
  split; [exact Hin | exact (readme_endpoints_served _ "stats" [] None [] ex_db1 Hin)].
Defined.
